(** * MyClaw: tool invoker, agent loop, background tasks and scheduled jobs

    A shallow embedding of the tool-orchestration core of the MyClaw LINE bot
    (src/ai.ts, src/tools/index.ts, src/tools/sessions-spawn.ts,
    src/tools/subagents.ts, src/tools/cron.ts, src/tools/gateway.ts,
    src/tools/sessions-send.ts) together with the properties its
    specification states about it.

    Conventions of the embedding:
    - JavaScript strings are [string]s (byte strings); [trim] strips the
      ASCII white space characters.
    - An [async] function becomes a function into [JsResult]: [Resolved v]
      for a fulfilled promise, [Rejected e] for a rejected one (or a
      synchronous [throw]).
    - Module-level mutable maps ([runningTasks], [activeTasks]) and the SQLite
      tables are fields of an explicit state record that every operation
      threads through.
    - Code that suspends at an [await] on the network is split at that point:
      the part before it is one atomic step, the part after it another, and
      the suspended coroutine is kept in the state in between.
    - Values supplied by the runtime (clock readings, random ids, replies of
      the language model, outcome of a LINE push) are arguments. *)

From stdpp Require Import base option list gmap strings pretty.
From Stdlib Require Import Ascii ZArith Lia.

Set Warnings "-register-all,-clear-no-such-hyp,-abstract-large-number".
Open Scope Z_scope.

(** ** JavaScript values and strings *)

Module JS.

(** The double quote character, for building the JSON texts. *)
Definition dq : string := String "034"%char "".
Definition bslash : string := String "092"%char "".
Definition nl : string := String "010"%char "".

Fixpoint trimStart (s : string) : string :=
  match s with
  | String c s' => if Ascii.is_space c then trimStart s' else s
  | EmptyString => EmptyString
  end.

Definition trimEnd (s : string) : string :=
  String.rev (trimStart (String.rev s)).

(** [String.prototype.trim]. *)
Definition trim (s : string) : string := trimEnd (trimStart s).

(** [s.split(",")]: the empty string splits to one empty piece. *)
Fixpoint split_comma (s : string) : list string :=
  match s with
  | EmptyString => [EmptyString]
  | String c s' =>
      if Ascii.eqb c ","%char then EmptyString :: split_comma s'
      else match split_comma s' with
           | h :: t => String c h :: t
           | [] => [String c EmptyString]
           end
  end.

(** [arr.includes(x)] on an array of strings. *)
Definition includes (l : list string) (x : string) : bool :=
  existsb (String.eqb x) l.

(** [s.substring(0, n)]. *)
Fixpoint take_str (n : nat) (s : string) : string :=
  match n, s with
  | S n', String c s' => String c (take_str n' s')
  | _, _ => EmptyString
  end.

(** [s.startsWith(p)]. *)
Definition startsWith (s p : string) : bool := String.prefix p s.

(** [s.replace(/\n/g, " ")]. *)
Fixpoint newlines_to_spaces (s : string) : string :=
  match s with
  | EmptyString => EmptyString
  | String c s' =>
      String (if Ascii.eqb c "010"%char then " "%char else c)
             (newlines_to_spaces s')
  end.

(** [arr.join("\n")]. *)
Fixpoint join_nl (l : list string) : string :=
  match l with
  | [] => ""
  | [x] => x
  | x :: rest => x +:+ nl +:+ join_nl rest
  end.

(** [a || b] on strings: the empty string is falsy. *)
Definition or_str (a b : string) : string :=
  if String.eqb a "" then b else a.

(** Truthiness of an optional string ([undefined] and [""] are falsy). *)
Definition truthy_str (o : option string) : bool :=
  match o with
  | Some s => negb (String.eqb s "")
  | None => false
  end.

(** [needle] occurs in [hay]. *)
Definition contains (hay needle : string) : Prop :=
  ∃ pre post, hay = pre +:+ needle +:+ post.

(** What a [throw] can carry, as far as the code inspects it: an [Error]
    object (with its [name] and [message]) or a bare string. *)
Inductive Thrown :=
  | ErrorObj (ename : string) (message : string)
  | ThrownStr (s : string).

(** [new Error(msg)]. *)
Definition Error (msg : string) : Thrown := ErrorObj "Error" msg.

(** [String(err)] and the template conversion [`${err}`]:
    [Error.prototype.toString] for error objects. *)
Definition toString (e : Thrown) : string :=
  match e with
  | ErrorObj n m =>
      if String.eqb n "" then m
      else if String.eqb m "" then n
      else n +:+ ": " +:+ m
  | ThrownStr s => s
  end.

(** [err?.message]: [undefined] on a thrown string. *)
Definition message_of (e : Thrown) : option string :=
  match e with
  | ErrorObj _ m => Some m
  | ThrownStr _ => None
  end.

(** The message a thrown value carries: [err.message] of an error object,
    the string itself for a thrown string. *)
Definition thrown_message (e : Thrown) : string :=
  match e with
  | ErrorObj _ m => m
  | ThrownStr s => s
  end.

(** [err?.message || String(err)]. *)
Definition message_or_string (e : Thrown) : string :=
  match message_of e with
  | Some m => if String.eqb m "" then toString e else m
  | None => toString e
  end.

(** Outcome of an [async] call. *)
Inductive JsResult (A : Type) :=
  | Resolved (a : A)
  | Rejected (e : Thrown).
Arguments Resolved {A} a.
Arguments Rejected {A} e.

(** JSON values, with object members in insertion order. *)
Inductive Json :=
  | JNull
  | JBool (b : bool)
  | JNum (n : Z)
  | JStr (s : string)
  | JArr (items : list Json)
  | JObj (members : list (string * Json)).

Definition hex_digit (n : N) : ascii :=
  match n with
  | 0%N => "0" | 1%N => "1" | 2%N => "2" | 3%N => "3" | 4%N => "4"
  | 5%N => "5" | 6%N => "6" | 7%N => "7" | 8%N => "8" | 9%N => "9"
  | 10%N => "a" | 11%N => "b" | 12%N => "c" | 13%N => "d" | 14%N => "e"
  | _ => "f"
  end%char.

(** Escaping of one character inside a JSON string literal. *)
Definition escape_char (c : ascii) : string :=
  let n := N_of_ascii c in
  if Ascii.eqb c "034"%char then bslash +:+ dq
  else if Ascii.eqb c "092"%char then bslash +:+ bslash
  else if Ascii.eqb c "008"%char then bslash +:+ "b"
  else if Ascii.eqb c "012"%char then bslash +:+ "f"
  else if Ascii.eqb c "010"%char then bslash +:+ "n"
  else if Ascii.eqb c "013"%char then bslash +:+ "r"
  else if Ascii.eqb c "009"%char then bslash +:+ "t"
  else if (n <? 32)%N then
    bslash +:+ "u00" +:+ String (hex_digit (n / 16)) (String (hex_digit (n mod 16)) "")
  else String c "".

Fixpoint escape (s : string) : string :=
  match s with
  | EmptyString => EmptyString
  | String c s' => escape_char c +:+ escape s'
  end.

Definition quote (s : string) : string := dq +:+ escape s +:+ dq.

Fixpoint join_comma (l : list string) : string :=
  match l with
  | [] => ""
  | [x] => x
  | x :: rest => x +:+ "," +:+ join_comma rest
  end.

(** [JSON.stringify]. *)
Fixpoint stringify (j : Json) : string :=
  match j with
  | JNull => "null"
  | JBool true => "true"
  | JBool false => "false"
  | JNum n => pretty n
  | JStr s => quote s
  | JArr items => "[" +:+ join_comma (map stringify items) +:+ "]"
  | JObj members =>
      "{" +:+ join_comma (map (λ kv, quote (fst kv) +:+ ":" +:+ stringify (snd kv)) members)
          +:+ "}"
  end.

(** Member lookup [obj.key] ([None] is [undefined]). *)
Definition get (j : Json) (key : string) : option Json :=
  match j with
  | JObj members => snd <$> find (λ kv, String.eqb (fst kv) key) members
  | _ => None
  end.

(** JavaScript truthiness of an optional JSON value. *)
Definition truthy (o : option Json) : bool :=
  match o with
  | None | Some JNull => false
  | Some (JBool b) => b
  | Some (JNum n) => negb (n =? 0)
  | Some (JStr s) => negb (String.eqb s "")
  | Some (JArr _) | Some (JObj _) => true
  end.

(** [typeof v === "string" ? v.trim() : ""]. *)
Definition trimmed_string_field (j : Json) (key : string) : string :=
  match get j key with
  | Some (JStr s) => trim s
  | _ => ""
  end.

(** [typeof v === "string" && v.trim()], then [v.trim()]. *)
Definition optional_nonempty (j : Json) (key : string) : option string :=
  let v := trimmed_string_field j key in
  if String.eqb v "" then None else Some v.

(** The error payload every tool returns:
    [JSON.stringify({ error: kind, message })]. *)
Definition error_payload (kind message : string) : string :=
  stringify (JObj [("error", JStr kind); ("message", JStr message)]).

End JS.

Import JS.

(** ** Owner-only tools (gateway.ts, sessions-send.ts) *)

(** The caller's context: [context?.userId] is [None] when the context or
    the field is missing. *)
Record ToolContext := { userId : string }.

Definition ctx_userId (ctx : option ToolContext) : option string :=
  userId <$> ctx.

Module Gateway.

(** [isOwner] of gateway.ts; [env] is [process.env.OWNER_USER_ID]. *)
Definition isOwner (env : option string) (uid : option string) : bool :=
  let ownerIds := trim <$> env in
  if negb (truthy_str ownerIds) then true
  else if negb (truthy_str uid) then false
  else includes (map trim (split_comma (default "" ownerIds))) (default "" uid).

Section Execute.
(** The tool body after the owner check (the action switch) and the state it
    works on. *)
Context {W : Type}.
Variable actions : string → Json → option ToolContext → W → JsResult string * W.

Definition execute (env : option string) (input : Json) (ctx : option ToolContext)
    (w : W) : JsResult string * W :=
  let action := trimmed_string_field input "action" in
  if negb (isOwner env (ctx_userId ctx)) then
    (Resolved (error_payload "forbidden" "This tool is restricted to the bot owner."), w)
  else actions action input ctx w.
End Execute.

End Gateway.

Module SessionsSend.

(** [isOwner] of sessions-send.ts (a copy of the one in gateway.ts). *)
Definition isOwner (env : option string) (uid : option string) : bool :=
  let ownerIds := trim <$> env in
  if negb (truthy_str ownerIds) then true
  else if negb (truthy_str uid) then false
  else includes (map trim (split_comma (default "" ownerIds))) (default "" uid).

Section Execute.
Context {W : Type}.
(** Everything after the owner check: argument validation, the push and the
    history insert. *)
Variable send : Json → option ToolContext → W → JsResult string * W.

Definition execute (env : option string) (input : Json) (ctx : option ToolContext)
    (w : W) : JsResult string * W :=
  if negb (isOwner env (ctx_userId ctx)) then
    (Resolved (error_payload "forbidden" "sessions_send is restricted to the bot owner."), w)
  else send input ctx w.
End Execute.

End SessionsSend.

(** ** Tool registry and invoker (tools/index.ts) *)

Module Tools.

Section Registry.
(** [W] is whatever the tool handlers act on (database, network, timers). *)
Context {W : Type}.

Record ToolDefinition := {
  name : string;
  description : string;
  inputSchema : Json;
  execute : Json → option ToolContext → W → JsResult string * W;
}.

Variable allTools : list ToolDefinition.

Definition findTool (n : string) : option ToolDefinition :=
  find (λ t, String.eqb (name t) n) allTools.

Definition getToolDefinitions : list (string * string * Json) :=
  map (λ t, (name t, description t, inputSchema t)) allTools.

Definition executeTool (n : string) (input : Json) (ctx : option ToolContext)
    (w : W) : JsResult string * W :=
  match findTool n with
  | None => (Resolved ("Error: tool " +:+ dq +:+ n +:+ dq +:+ " not found"), w)
  | Some tool =>
      match execute tool input ctx w with
      | (Resolved s, w') => (Resolved s, w')
      | (Rejected err, w') =>
          (Resolved ("Error executing " +:+ n +:+ ": " +:+ toString err), w')
      end
  end.
End Registry.

Arguments ToolDefinition : clear implicits.

End Tools.

(** ** A state-and-exception monad for the [async] code *)

Module Async.

(** A computation over the mutable state [S] that fulfils with an [A] or
    rejects; the state changes made before a rejection persist. *)
Definition M (S A : Type) : Type := S → JsResult A * S.

Definition ret {S A} (a : A) : M S A := λ s, (Resolved a, s).
Definition throw {S A} (e : Thrown) : M S A := λ s, (Rejected e, s).

Definition bind {S A B} (m : M S A) (k : A → M S B) : M S B :=
  λ s, match m s with
       | (Resolved a, s') => k a s'
       | (Rejected e, s') => (Rejected e, s')
       end.

(** [try { m } catch (err) { h err }]. *)
Definition try_catch {S A} (m : M S A) (h : Thrown → M S A) : M S A :=
  λ s, match m s with
       | (Resolved a, s') => (Resolved a, s')
       | (Rejected e, s') => h e s'
       end.

Definition modify {S} (f : S → S) : M S unit := λ s, (Resolved tt, f s).
Definition gets {S A} (f : S → A) : M S A := λ s, (Resolved (f s), s).

End Async.

Import Async.

Notation "'await' x ':=' m 'in' k" := (bind m (λ x, k))
  (at level 10, x pattern, m at level 100, k at level 200).
Notation "m ';;;' k" := (bind m (λ _, k))
  (at level 100, k at level 200, right associativity).

(** ** The agent loop (ai.ts) *)

Module Agent.

Definition MAX_HISTORY : nat := 20.

(** [arr.slice(-n)] for a positive [n]. *)
Definition slice_last {A} (n : nat) (l : list A) : list A :=
  drop (List.length l - n)%nat l.

(** [MediaData] of media.ts as ai.ts reads it: the MIME type and
    [media.buffer.toString("base64")]. *)
Record MediaData := { mimeType : string; base64 : string }.

(** Module-level [_lastAudioResult] and [_lastImageUrl]. *)
Record MediaOut := {
  lastAudioResult : option (Json * Json);
  lastImageUrl : option Json;
}.

Definition no_media_out : MediaOut :=
  {| lastAudioResult := None; lastImageUrl := None |}.

(** The mutable state of one exchange: the media side channel, the number of
    model requests sent so far, the messages handed to [saveMessage], and the
    world the tools act on. *)
Record St (W : Type) := {
  media_out : MediaOut;
  calls : nat;
  saved : list (string * string);
  world : W;
}.
Arguments media_out {W}. Arguments calls {W}. Arguments saved {W}.
Arguments world {W}. Arguments Build_St {W}.

Inductive Provider := gemini | ollama | anthropic | none.

Record Env := {
  GEMINI_API_KEY : option string;
  OLLAMA_MODEL : option string;
  ANTHROPIC_API_KEY : option string;
}.

(** [process.env.X?.trim()] used as a condition. *)
Definition env_set (v : option string) : bool := truthy_str (trim <$> v).

Definition AI_PROVIDER (env : Env) : Provider :=
  if env_set (GEMINI_API_KEY env) then gemini
  else if env_set (OLLAMA_MODEL env) then ollama
  else if env_set (ANTHROPIC_API_KEY env) then anthropic
  else none.

(** *** Gemini wire format *)

Record FunctionCall := { fc_name : string; fc_args : Json }.

(** A part of a model reply: [{ text?, functionCall? }]. *)
Record ReplyPart := { text : option string; functionCall : option FunctionCall }.

Inductive GeminiPart :=
  | PText (t : string)
  | PInlineData (mime data : string)
  | PFunctionResponse (fname result : string)
  | PModel (p : ReplyPart).

Record GeminiContent := { g_role : string; g_parts : list GeminiPart }.

Record GeminiRequest := {
  g_systemInstruction : string;
  g_contents : list GeminiContent;
  g_tools : option (list (string * string * Json));
}.

Inductive GeminiReply :=
  | GThrows (e : Thrown)                       (* fetch or res.json() rejects *)
  | GNotOk (status : Z) (body : string)        (* !res.ok *)
  | GOk (candidate : option (list ReplyPart)). (* json.candidates?.[0] *)

(** *** Ollama (OpenAI-compatible) wire format *)

Record ToolCall := { tc_id : string; tc_name : string; tc_arguments : string }.

Record OllamaMessage := {
  o_role : string;
  o_content : option string;
  o_tool_calls : option (list ToolCall);
  o_tool_call_id : option string;
}.

Record OllamaRequest := {
  o_messages : list OllamaMessage;
  o_tools : option (list (string * string * Json));
}.

Inductive OllamaReply :=
  | OThrows (e : Thrown)
  | ONotOk (status : Z) (body : string)
  | OOk (choice : option OllamaMessage).       (* json.choices[0] *)

(** *** Anthropic wire format *)

Inductive ContentBlock :=
  | BText (t : string)
  | BToolUse (id name : string) (input : Json)
  | BImage (media_type data : string)
  | BToolResult (tool_use_id content : string).

Inductive AContent := AText (t : string) | ABlocks (bs : list ContentBlock).

Record AMessage := { a_role : string; a_content : AContent }.

Record AnthropicRequest := {
  a_system : string;
  a_tools : list (string * string * Json);
  a_messages : list AMessage;
}.

Inductive AnthropicReply :=
  | AThrows (e : Thrown)
  | AOk (content : list ContentBlock) (stop_reason : string).

(** Result of [chat]. *)
Record ChatResult := {
  cr_text : string;
  cr_audio : option (Json * Json);   (* audioUrl, audioDuration *)
  cr_imageUrl : option Json;
}.

Section Loop.
Context {W : Type}.
Variable allTools : list (Tools.ToolDefinition W).

(** The runtime and the three back ends.  A back end sees the request and the
    number of requests this exchange has already sent. *)
Variable JSON_parse : string → option Json.          (* [None]: SyntaxError *)
Variable match_tool_call : string → option (string * string).
  (* the regular expression of [parseToolCallFromText]: captures 1 and 2 *)
Variable Date_now : nat → Z.
Variable gemini_api : nat → GeminiRequest → GeminiReply.
Variable ollama_api : nat → OllamaRequest → OllamaReply.
Variable anthropic_api : nat → AnthropicRequest → AnthropicReply.

Definition set_media (f : MediaOut → MediaOut) : M (St W) unit :=
  modify (λ st, {| media_out := f (media_out st); calls := calls st;
                   saved := saved st; world := world st |}).

Definition tick : M (St W) nat :=
  λ st, (Resolved (calls st),
         {| media_out := media_out st; calls := S (calls st);
            saved := saved st; world := world st |}).

Definition saveMessage (role content : string) : M (St W) unit :=
  modify (λ st, {| media_out := media_out st; calls := calls st;
                   saved := saved st ++ [(role, content)]; world := world st |}).

(** [await executeTool(name, args, toolCtx)]. *)
Definition executeTool (n : string) (args : Json) (ctx : ToolContext) : M (St W) string :=
  λ st, let '(r, w') := Tools.executeTool allTools n args (Some ctx) (world st) in
        (r, {| media_out := media_out st; calls := calls st;
               saved := saved st; world := w' |}).

Definition checkToolResultForMedia (result : string) : M (St W) unit :=
  match JSON_parse result with
  | None => ret tt
  | Some JNull => ret tt     (* property access on null throws, and is caught *)
  | Some parsed =>
      (if truthy (get parsed "audioUrl") && truthy (get parsed "success") then
         set_media (λ m, {| lastAudioResult :=
                              Some (default JNull (get parsed "audioUrl"),
                                    if truthy (get parsed "duration")
                                    then default JNull (get parsed "duration")
                                    else JNum 0);
                            lastImageUrl := lastImageUrl m |})
       else ret tt) ;;;
      (if truthy (get parsed "imageUrl") && truthy (get parsed "success") then
         set_media (λ m, {| lastAudioResult := lastAudioResult m;
                            lastImageUrl := Some (default JNull (get parsed "imageUrl")) |})
       else ret tt)
  end.

Definition parseToolCallFromText (t : string) : option (string * Json) :=
  if String.eqb t "" then None
  else match match_tool_call t with
       | Some (n, argsText) =>
           match JSON_parse argsText with
           | Some args => if Tools.findTool allTools n is Some _ then Some (n, args) else None
           | None => None
           end
       | None => None
       end.

Definition history_tail (dbHistory : list (string * string)) : list (string * string) :=
  slice_last (MAX_HISTORY - 1) dbHistory.

(** *** chatGemini *)

Definition GEMINI_INLINE_PREFIXES : list string := ["image/"; "video/"; "audio/"].

Definition gemini_tools (media : option MediaData) : option (list (string * string * Json)) :=
  let toolDefs := Tools.getToolDefinitions allTools in
  let hasHeavyMedia :=
    match media with
    | Some m => startsWith (mimeType m) "video/" || startsWith (mimeType m) "audio/"
    | None => false
    end in
  if (0 <? List.length toolDefs)%nat && negb hasHeavyMedia then Some toolDefs else None.

Definition has_call (p : ReplyPart) : bool :=
  match functionCall p with Some _ => true | None => false end.

(** The [for] loop over the requested calls of one model turn. *)
Fixpoint gemini_run_calls (ctx : ToolContext) (ps : list ReplyPart) : M (St W) (list GeminiPart) :=
  match ps with
  | [] => ret []
  | p :: rest =>
      match functionCall p with
      | Some fc =>
          await result := executeTool (fc_name fc) (fc_args fc) ctx in
          checkToolResultForMedia result ;;;
          await more := gemini_run_calls ctx rest in
          ret (PFunctionResponse (fc_name fc) result :: more)
      | None => gemini_run_calls ctx rest
      end
  end.

(** [while (maxLoops-- > 0) { ... }]; the value is [lastText] at loop exit. *)
Fixpoint gemini_loop (maxLoops : nat) (systemPrompt : string)
    (tools : option (list (string * string * Json))) (ctx : ToolContext)
    (contents : list GeminiContent) : M (St W) string :=
  match maxLoops with
  | O => ret ""
  | S remaining =>
      await k := tick in
      match gemini_api k {| g_systemInstruction := systemPrompt;
                            g_contents := contents; g_tools := tools |} with
      | GThrows e => throw e
      | GNotOk status body =>
          throw (Error ("Gemini API error: " +:+ pretty status +:+ " " +:+ body))
      | GOk None => ret "(no response from Gemini)"
      | GOk (Some parts) =>
          let contents1 := contents ++ [{| g_role := "model"; g_parts := PModel <$> parts |}] in
          let functionCalls := filter (λ p, has_call p = true) parts in
          if (0 <? List.length functionCalls)%nat then
            await responseParts := gemini_run_calls ctx functionCalls in
            gemini_loop remaining systemPrompt tools ctx
              (contents1 ++ [{| g_role := "user"; g_parts := responseParts |}])
          else
            ret (join_nl (omap (λ p, if truthy_str (text p) then text p else None) parts))
      end
  end.

Definition chatGemini (message : string) (dbHistory : list (string * string))
    (systemPrompt : string) (uid : string) (media : option MediaData) : M (St W) string :=
  let toolCtx := {| userId := uid |} in
  let contents :=
    map (λ m, {| g_role := if String.eqb (fst m) "assistant" then "model" else "user";
                 g_parts := [PText (snd m)] |}) (history_tail dbHistory) in
  let userParts :=
    PText message ::
    match media with
    | Some m => if existsb (startsWith (mimeType m)) GEMINI_INLINE_PREFIXES
                then [PInlineData (mimeType m) (base64 m)] else []
    | None => []
    end in
  await lastText :=
    gemini_loop 10 systemPrompt (gemini_tools media) toolCtx
      (contents ++ [{| g_role := "user"; g_parts := userParts |}]) in
  ret (or_str lastText "(no response)").

(** *** chatOllama *)

Definition tool_message (result id : string) : OllamaMessage :=
  {| o_role := "tool"; o_content := Some result; o_tool_calls := None;
     o_tool_call_id := Some id |}.

(** The [for] loop over [assistantMsg.tool_calls]; [JSON.parse] of the
    arguments may throw. *)
Fixpoint ollama_run_calls (ctx : ToolContext) (tcs : list ToolCall)
    (messages : list OllamaMessage) : M (St W) (list OllamaMessage) :=
  match tcs with
  | [] => ret messages
  | tc :: rest =>
      match JSON_parse (tc_arguments tc) with
      | None => throw (ErrorObj "SyntaxError" "Unexpected token in JSON")
      | Some args =>
          await result := executeTool (tc_name tc) args ctx in
          checkToolResultForMedia result ;;;
          ollama_run_calls ctx rest (messages ++ [tool_message result (tc_id tc)])
      end
  end.

Fixpoint ollama_loop (maxLoops : nat) (tools : option (list (string * string * Json)))
    (ctx : ToolContext) (messages : list OllamaMessage) : M (St W) string :=
  match maxLoops with
  | O => ret ""
  | S remaining =>
      await k := tick in
      match ollama_api k {| o_messages := messages; o_tools := tools |} with
      | OThrows e => throw e
      | ONotOk status body =>
          throw (Error ("Ollama API error: " +:+ pretty status +:+ " " +:+ body))
      | OOk None => ret ""
      | OOk (Some assistantMsg) =>
          let messages1 := messages ++ [assistantMsg] in
          let content := or_str (default "" (o_content assistantMsg)) "" in
          match o_tool_calls assistantMsg with
          | Some (tc :: tcs) =>
              await messages2 := ollama_run_calls ctx (tc :: tcs) messages1 in
              ollama_loop remaining tools ctx messages2
          | _ =>
              match parseToolCallFromText content with
              | Some (n, args) =>
                  await result := executeTool n args ctx in
                  checkToolResultForMedia result ;;;
                  ollama_loop remaining tools ctx
                    (messages1 ++ [tool_message result ("fallback-" +:+ pretty (Date_now k))])
              | None => ret content
              end
          end
      end
  end.

Definition chatOllama (message : string) (dbHistory : list (string * string))
    (systemPrompt : string) (uid : string) : M (St W) string :=
  let toolCtx := {| userId := uid |} in
  let tools := Tools.getToolDefinitions allTools in
  let plain r c := {| o_role := r; o_content := Some c; o_tool_calls := None;
                      o_tool_call_id := None |} in
  let messages :=
    plain "system" systemPrompt ::
    map (λ m, plain (fst m) (snd m)) (history_tail dbHistory) ++
    [plain "user" message] in
  let ollamaTools := if (0 <? List.length tools)%nat then Some tools else None in
  await lastText := ollama_loop 10 ollamaTools toolCtx messages in
  ret (or_str lastText "(no response)").

(** *** chatAnthropic *)

Definition ANTHROPIC_IMAGE_TYPES : list string :=
  ["image/jpeg"; "image/png"; "image/gif"; "image/webp"].

(** The [for] loop over the blocks of one assistant turn. *)
Fixpoint anthropic_run_calls (ctx : ToolContext) (blocks : list ContentBlock)
    : M (St W) (list ContentBlock) :=
  match blocks with
  | [] => ret []
  | BToolUse id n input :: rest =>
      await result := executeTool n input ctx in
      checkToolResultForMedia result ;;;
      await more := anthropic_run_calls ctx rest in
      ret (BToolResult id result :: more)
  | _ :: rest => anthropic_run_calls ctx rest
  end.

(** [do { ... } while (response.stop_reason === "tool_use")].  The source
    loop carries no counter, so the embedding is driven by [fuel]: the value
    is [Some response] when the loop exits within [fuel] iterations and [None]
    when it is still iterating after all of them. *)
Fixpoint anthropic_loop (fuel : nat) (systemPrompt : string) (ctx : ToolContext)
    (history : list AMessage) : M (St W) (option (list ContentBlock)) :=
  match fuel with
  | O => ret None
  | S fuel' =>
      await k := tick in
      match anthropic_api k {| a_system := systemPrompt;
                               a_tools := Tools.getToolDefinitions allTools;
                               a_messages := history |} with
      | AThrows e => throw e
      | AOk assistantContent stop_reason =>
          let history1 :=
            history ++ [{| a_role := "assistant"; a_content := ABlocks assistantContent |}] in
          if String.eqb stop_reason "tool_use" then
            await toolResults := anthropic_run_calls ctx assistantContent in
            anthropic_loop fuel' systemPrompt ctx
              (history1 ++ [{| a_role := "user"; a_content := ABlocks toolResults |}])
          else ret (Some assistantContent)
      end
  end.

Definition chatAnthropic (fuel : nat) (message : string) (dbHistory : list (string * string))
    (systemPrompt : string) (uid : string) (media : option MediaData)
    : M (St W) (option string) :=
  let toolCtx := {| userId := uid |} in
  let history :=
    map (λ m, {| a_role := fst m; a_content := AText (snd m) |}) (history_tail dbHistory) in
  let userTurn :=
    match media with
    | Some m =>
        if includes ANTHROPIC_IMAGE_TYPES (mimeType m)
        then {| a_role := "user";
                a_content := ABlocks [BImage (mimeType m) (base64 m); BText message] |}
        else {| a_role := "user"; a_content := AText message |}
    | None => {| a_role := "user"; a_content := AText message |}
    end in
  await response := anthropic_loop fuel systemPrompt toolCtx (history ++ [userTurn]) in
  match response with
  | None => ret None
  | Some content =>
      let textBlocks := omap (λ b, match b with BText t => Some t | _ => None end) content in
      ret (Some (or_str (join_nl textBlocks) "(no response)"))
  end.

(** *** chat *)

Definition SYSTEM_PROMPT : string :=
  "You are MyClaw, a helpful AI assistant on LINE." +:+ nl +:+
  "IMPORTANT: Always reply in the SAME language the user writes in. If the user writes in Thai, reply in Thai only. Never switch to another language." +:+ nl +:+
  "Reply concisely. You have access to tools - use them when needed." +:+ nl +:+
  "You can receive and understand images, audio messages, videos, stickers, locations, and files that users send.".

Definition NO_PROVIDER_TEXT : string :=
  "ยังไม่ได้ตั้งค่า AI provider กรุณาใส่ GEMINI_API_KEY, OLLAMA_MODEL หรือ ANTHROPIC_API_KEY ใน .env".

Definition media_label (m : MediaData) : string :=
  if startsWith (mimeType m) "image/" then "Image"
  else if startsWith (mimeType m) "video/" then "Video"
  else if startsWith (mimeType m) "audio/" then "Audio"
  else "Media".

(** The provider dispatch of [chat], with the Gemini-to-Ollama fallback.
    [None] stands for an Anthropic loop still running after [fuel] turns. *)
Definition dispatch (fuel : nat) (env : Env) (message : string)
    (dbHistory : list (string * string)) (fullSystemPrompt uid : string)
    (media : option MediaData) : M (St W) (option string) :=
  match AI_PROVIDER env with
  | gemini =>
      try_catch
        (await r := chatGemini message dbHistory fullSystemPrompt uid media in ret (Some r))
        (λ err,
           if env_set (OLLAMA_MODEL env) then
             await r := chatOllama message dbHistory fullSystemPrompt uid in ret (Some r)
           else throw err)
  | ollama =>
      await r := chatOllama message dbHistory fullSystemPrompt uid in ret (Some r)
  | _ => chatAnthropic fuel message dbHistory fullSystemPrompt uid media
  end.

(** [chat(userId, message, media)].  [dbHistory] is what [loadHistory]
    returned and [memory] what [searchMemory] followed by
    [formatMemoryForPrompt] gave (or how the search failed). *)
Definition chat (fuel : nat) (env : Env) (dbHistory : list (string * string))
    (memory : JsResult string) (uid message : string) (media : option MediaData)
    : M (St W) (option ChatResult) :=
  match AI_PROVIDER env with
  | none => ret (Some {| cr_text := NO_PROVIDER_TEXT; cr_audio := None; cr_imageUrl := None |})
  | _ =>
      let memoryContext := match memory with Resolved c => c | Rejected _ => "" end in
      let fullSystemPrompt :=
        if String.eqb memoryContext "" then SYSTEM_PROMPT
        else SYSTEM_PROMPT +:+ nl +:+ nl +:+ memoryContext in
      (if media is Some _ then ret tt else saveMessage "user" message) ;;;
      set_media (λ _, no_media_out) ;;;
      await reply := dispatch fuel env message dbHistory fullSystemPrompt uid media in
      match reply with
      | None => ret None
      | Some reply =>
          match media with
          | Some m =>
              let isAudioVideo :=
                startsWith (mimeType m) "audio/" || startsWith (mimeType m) "video/" in
              let desc := if isAudioVideo then newlines_to_spaces reply
                          else newlines_to_spaces (take_str 200 reply) in
              saveMessage "user" ("[" +:+ media_label m +:+ ": " +:+ desc +:+ "]")
          | None => ret tt
          end ;;;
          saveMessage "assistant" reply ;;;
          await out := gets media_out in
          ret (Some {| cr_text := reply;
                       cr_audio := lastAudioResult out;
                       cr_imageUrl := if truthy (lastImageUrl out) then lastImageUrl out
                                      else None |})
      end
  end.

(** *** Vocabulary of the turn-budget property *)

(** A step that fulfils and sends no model request. *)
Definition quiet {A} (m : M (St W) A) : Prop :=
  ∀ st, ∃ a st', m st = (Resolved a, st') ∧ calls st' = calls st.

(** What "always requests a tool call and never produces final text" means
    for each back end. *)
Definition gemini_always_calls : Prop :=
  ∀ k req, ∃ parts, gemini_api k req = GOk (Some parts) ∧ existsb has_call parts = true.

Definition ollama_always_calls : Prop :=
  ∀ k req, ∃ msg tc tcs,
    ollama_api k req = OOk (Some msg) ∧ o_tool_calls msg = Some (tc :: tcs)
    ∧ Forall (λ c, is_Some (JSON_parse (tc_arguments c))) (tc :: tcs).

Definition anthropic_always_calls : Prop :=
  ∀ k req, ∃ content, anthropic_api k req = AOk content "tool_use".

End Loop.
End Agent.

(** ** Background tasks (tools/sessions-spawn.ts) *)

(** A reading of the clock: [Date.now()] and [new Date().toISOString()]. *)
Record Clock := { now_ms : Z; now_iso : string }.

Module Spawn.

Inductive Status := running | completed | failed | cancelled.

Global Instance Status_eq_dec : EqDecision Status.
Proof. solve_decision. Defined.

Record BackgroundTask := {
  id : string;
  label : string;
  task : string;
  status : Status;
  result : option string;
  model : option string;
  user_id : string;
  created_at : string;
  completed_at : option string;
}.

(** An entry of [runningTasks].  The [AbortController] is a shared mutable
    object: the entry, the timeout timer and the task body all hold the same
    one, so it is an address into the set of aborted controllers. *)
Record Running := {
  r_task : BackgroundTask;
  abortController : nat;
  startedAt : Z;
}.

(** Where a suspended [executeBackgroundTask] waits. *)
Inductive Phase :=
  | AwaitModel      (* in [callGeminiSimple] / [callOllamaSimple] / ... *)
  | AwaitPush.      (* in [lineClient.pushMessage], before [finally] *)

Record Body := {
  b_taskId : string;
  b_userId : string;
  b_signal : nat;
  b_phase : Phase;
}.

Record State := {
  background_tasks : gmap string BackgroundTask;   (* the table, by primary key *)
  runningTasks : gmap string Running;
  aborted : gset nat;                               (* controllers whose signal is aborted *)
  timeouts : gset nat;                              (* controllers with an armed timeout *)
  next_controller : nat;
  bodies : list Body;                               (* suspended task bodies *)
  pushed : list (string * string);                  (* LINE pushes: recipient, text *)
}.

Definition empty : State :=
  {| background_tasks := ∅; runningTasks := ∅; aborted := ∅; timeouts := ∅;
     next_controller := 0; bodies := []; pushed := [] |}.

Definition with_table (f : gmap string BackgroundTask → gmap string BackgroundTask)
    (s : State) : State :=
  {| background_tasks := f (background_tasks s); runningTasks := runningTasks s;
     aborted := aborted s; timeouts := timeouts s;
     next_controller := next_controller s; bodies := bodies s; pushed := pushed s |}.

Definition with_running (f : gmap string Running → gmap string Running) (s : State) : State :=
  {| background_tasks := background_tasks s; runningTasks := f (runningTasks s);
     aborted := aborted s; timeouts := timeouts s;
     next_controller := next_controller s; bodies := bodies s; pushed := pushed s |}.

Definition with_aborted (f : gset nat → gset nat) (s : State) : State :=
  {| background_tasks := background_tasks s; runningTasks := runningTasks s;
     aborted := f (aborted s); timeouts := timeouts s;
     next_controller := next_controller s; bodies := bodies s; pushed := pushed s |}.

Definition with_timeouts (f : gset nat → gset nat) (s : State) : State :=
  {| background_tasks := background_tasks s; runningTasks := runningTasks s;
     aborted := aborted s; timeouts := f (timeouts s);
     next_controller := next_controller s; bodies := bodies s; pushed := pushed s |}.

Definition with_bodies (f : list Body → list Body) (s : State) : State :=
  {| background_tasks := background_tasks s; runningTasks := runningTasks s;
     aborted := aborted s; timeouts := timeouts s;
     next_controller := next_controller s; bodies := f (bodies s); pushed := pushed s |}.

Definition push_message (to text : string) (s : State) : State :=
  {| background_tasks := background_tasks s; runningTasks := runningTasks s;
     aborted := aborted s; timeouts := timeouts s;
     next_controller := next_controller s; bodies := bodies s;
     pushed := pushed s ++ [(to, text)] |}.

(** [new AbortController()] (a fresh signal, not aborted) followed by
    [setTimeout(() => abortController.abort(), ...)]. *)
Definition new_controller (s : State) : nat * State :=
  let c := next_controller s in
  (c, {| background_tasks := background_tasks s; runningTasks := runningTasks s;
         aborted := aborted s ∖ {[c]}; timeouts := {[c]} ∪ timeouts s;
         next_controller := S c; bodies := bodies s; pushed := pushed s |}).

(** [UPDATE background_tasks SET status, result, completed_at WHERE id = ?]. *)
Definition update_row (taskId : string) (st : Status) (res : option string)
    (at_ : string) (s : State) : State :=
  with_table (alter (λ t, {| id := id t; label := label t; task := task t;
                             status := st;
                             result := if res is Some r then Some r else result t;
                             model := model t; user_id := user_id t;
                             created_at := created_at t;
                             completed_at := Some at_ |}) taskId) s.

(** [INSERT INTO background_tasks ...]: [None] when the primary key is taken
    (the statement throws). *)
Definition insert_row (t : BackgroundTask) (s : State) : option State :=
  match background_tasks s !! id t with
  | Some _ => None
  | None => Some (with_table (<[id t := t]>) s)
  end.

Definition PK_ERROR : Thrown :=
  ErrorObj "SqliteError" "UNIQUE constraint failed: background_tasks.id".

Record Env := {
  GEMINI_API_KEY : option string;
  GEMINI_MODEL : option string;
  OLLAMA_MODEL : option string;
  ANTHROPIC_API_KEY : option string;
}.

Definition getActiveProvider (env : Env) : string * string :=
  if Agent.env_set (GEMINI_API_KEY env)
  then ("gemini", or_str (trim (default "" (GEMINI_MODEL env))) "gemini-2.0-flash")
  else if Agent.env_set (OLLAMA_MODEL env)
  then ("ollama", trim (default "" (OLLAMA_MODEL env)))
  else if Agent.env_set (ANTHROPIC_API_KEY env)
  then ("anthropic", "claude-sonnet-4-20250514")
  else ("none", "").

(** The [finally] block of [executeBackgroundTask], and the [.finally] of the
    caller that clears the timeout. *)
Definition finish_body (taskId : string) (signal : nat) (s : State) : State :=
  with_timeouts (λ t, t ∖ {[signal]}) (with_running (delete taskId) s).

(** The [catch] block of [executeBackgroundTask] up to its [await]; the value
    tells whether the body is now suspended in the failure push. *)
Definition body_catch (taskId uid : string) (signal : nat) (err : Thrown)
    (clock : Clock) (s : State) : bool * State :=
  if bool_decide (signal ∈ aborted s) then (false, finish_body taskId signal s)
  else
    let errorMsg := message_or_string err in
    let s1 := update_row taskId failed
                (Some ("Error: " +:+ take_str 5000 errorMsg)) (now_iso clock) s in
    (true, push_message uid ("❌ Task ล้มเหลว: " +:+ take_str 200 errorMsg) s1).

(** [executeBackgroundTask(...)] from the call to its first suspension. *)
Definition executeBackgroundTask (env : Env) (taskId uid : string) (signal : nat)
    (clock : Clock) (s : State) : State :=
  let suspended ph s' :=
    with_bodies (λ bs, bs ++ [{| b_taskId := taskId; b_userId := uid;
                                 b_signal := signal; b_phase := ph |}]) s' in
  let failing err :=
    let '(waits, s') := body_catch taskId uid signal err clock s in
    if waits then suspended AwaitPush s' else s' in
  if bool_decide (signal ∈ aborted s) then failing (Error "Task cancelled before start")
  else if String.eqb (fst (getActiveProvider env)) "none"
  then failing (Error "No AI provider configured")
  else suspended AwaitModel s.

(** The model call of body [i] settles. *)
Definition model_settles (i : nat) (outcome : JsResult string) (clock : Clock)
    (s : State) : State :=
  match bodies s !! i with
  | Some b =>
      match b_phase b with
      | AwaitModel =>
          let s0 := with_bodies (delete i) s in
          let suspended s' :=
            with_bodies (λ bs, bs ++ [{| b_taskId := b_taskId b; b_userId := b_userId b;
                                         b_signal := b_signal b; b_phase := AwaitPush |}]) s' in
          let failing err :=
            let '(waits, s') := body_catch (b_taskId b) (b_userId b) (b_signal b) err clock s0 in
            if waits then suspended s' else s' in
          match outcome with
          | Resolved res =>
              if bool_decide (b_signal b ∈ aborted s0) then failing (Error "Task cancelled")
              else
                let s1 := update_row (b_taskId b) completed (Some (take_str 10000 res))
                            (now_iso clock) s0 in
                let shortResult :=
                  if (1500 <? String.length res)%nat then take_str 1500 res +:+ "..." else res in
                suspended (push_message (b_userId b)
                             ("✅ Task เสร็จแล้ว!" +:+ nl +:+ nl +:+ shortResult) s1)
          | Rejected err => failing err
          end
      | AwaitPush => s
      end
  | None => s
  end.

(** The push of body [i] settles (its failure is swallowed), then [finally]. *)
Definition push_settles (i : nat) (s : State) : State :=
  match bodies s !! i with
  | Some b =>
      match b_phase b with
      | AwaitPush => finish_body (b_taskId b) (b_signal b) (with_bodies (delete i) s)
      | AwaitModel => s
      end
  | None => s
  end.

(** The timeout armed for controller [c] fires: [abortController.abort()]. *)
Definition timeout_fires (c : nat) (s : State) : State :=
  if bool_decide (c ∈ timeouts s)
  then with_aborted (λ a, {[c]} ∪ a) (with_timeouts (λ t, t ∖ {[c]}) s)
  else s.

(** [cancelTask(taskId, dataDir)].  The assignment
    [running.task.status = "cancelled"] changes the record of an entry that
    is removed from the map in the next statement, so it leaves no trace in
    the state. *)
Definition cancelTask (taskId : string) (clock : Clock) (s : State) : bool * State :=
  match runningTasks s !! taskId with
  | Some entry =>
      let s1 := with_aborted (λ a, {[abortController entry]} ∪ a) s in
      let s2 := with_running (delete taskId) s1 in
      (true,
       with_table (alter (λ t, {| id := id t; label := label t; task := task t;
                                  status := cancelled; result := result t;
                                  model := model t; user_id := user_id t;
                                  created_at := created_at t;
                                  completed_at := Some (now_iso clock) |}) taskId) s2)
  | None => (false, s)
  end.

Definition combined_task (original newMessage : string) : string :=
  "Original task: " +:+ original +:+ nl +:+ nl +:+
  "--- UPDATED INSTRUCTIONS ---" +:+ nl +:+ newMessage.

(** [steerTask(taskId, newMessage, dataDir)]; [newId] is
    [crypto.randomUUID().substring(0, 8)]. *)
Definition steerTask (env : Env) (taskId newMessage newId : string) (clock : Clock)
    (s : State) : JsResult (option string) * State :=
  match runningTasks s !! taskId with
  | None => (Resolved None, s)
  | Some entry =>
      let originalTask := r_task entry in
      let s1 := with_aborted (λ a, {[abortController entry]} ∪ a) s in
      let s2 := with_running (delete taskId) s1 in
      let s3 := update_row taskId cancelled (Some "Steered to new task") (now_iso clock) s2 in
      let combinedTask := combined_task (task originalTask) newMessage in
      let newTaskRecord :=
        {| id := newId; label := "[steered] " +:+ label originalTask;
           task := combinedTask; status := running; result := None;
           model := model originalTask; user_id := user_id originalTask;
           created_at := now_iso clock; completed_at := None |} in
      match insert_row newTaskRecord s3 with
      | None => (Rejected PK_ERROR, s3)
      | Some s4 =>
          let '(c, s5) := new_controller s4 in
          let s6 := with_running (<[newId := {| r_task := newTaskRecord;
                                                 abortController := c;
                                                 startedAt := now_ms clock |}]>) s5 in
          (Resolved (Some newId),
           executeBackgroundTask env newId (user_id originalTask) c clock s6)
      end
  end.

Definition MAX_CHILDREN : nat := 5.

(** The loop that counts the caller's entries of [runningTasks]. *)
Definition userRunning (uid : string) (s : State) : nat :=
  List.length (filter (λ kv, user_id (r_task kv.2) = uid) (map_to_list (runningTasks s))).

(** [sessionsSpawnTool.execute(input, context)]; [newId] is the random id.
    [ensureTasksTable] creates the table when it is missing and touches no
    row. *)
Definition execute (env : Env) (input : Json) (ctx : option ToolContext)
    (newId : string) (clock : Clock) (s : State) : JsResult string * State :=
  let task_ := trimmed_string_field input "task" in
  if String.eqb task_ "" then
    (Resolved (error_payload "missing_task" "task is required."), s)
  else if negb (truthy_str (ctx_userId ctx)) then
    (Resolved (error_payload "no_user" "No userId available."), s)
  else
    let uid := default "" (ctx_userId ctx) in
    if (MAX_CHILDREN <=? userRunning uid s)%nat then
      (Resolved (error_payload "limit_exceeded"
         ("Maximum " +:+ pretty MAX_CHILDREN +:+
          " concurrent tasks per user. Use subagents tool to manage existing tasks.")), s)
    else
      let label_ :=
        match optional_nonempty input "label" with
        | Some l => l
        | None => take_str 50 task_ +:+ (if (50 <? String.length task_)%nat then "..." else "")
        end in
      let model_ := optional_nonempty input "model" in
      let timeoutSec :=
        match get input "timeoutSeconds" with
        | Some (JNum n) => Z.max 10 (Z.min 600 n)
        | _ => 120
        end in
      let taskRecord :=
        {| id := newId; label := label_; task := task_; status := running;
           result := None; model := model_; user_id := uid;
           created_at := now_iso clock; completed_at := None |} in
      match insert_row taskRecord s with
      | None => (Rejected PK_ERROR, s)
      | Some s1 =>
          let '(c, s2) := new_controller s1 in
          let s3 := with_running (<[newId := {| r_task := taskRecord;
                                                 abortController := c;
                                                 startedAt := now_ms clock |}]>) s2 in
          let s4 := executeBackgroundTask env newId uid c clock s3 in
          let '(provider, defaultModel) := getActiveProvider env in
          (Resolved (stringify (JObj [
             ("status", JStr "accepted"); ("taskId", JStr newId);
             ("label", JStr label_);
             ("model", JStr (or_str (default "" model_) defaultModel));
             ("provider", JStr provider);
             ("timeoutSeconds", JNum timeoutSec);
             ("message", JStr "Task started in background. Result will be sent to you automatically when complete.")])),
           s4)
      end.

End Spawn.

(** ** Scheduled jobs (tools/cron.ts)

    The actions that change something ([add], [update], [remove], [run],
    [wake]) and the callbacks of the handles are embedded; [status], [list]
    and [runs] only read. *)

Module Cron.

Inductive ScheduleType := cron | once.

Global Instance ScheduleType_eq_dec : EqDecision ScheduleType.
Proof. solve_decision. Defined.

Definition schedule_type_text (t : ScheduleType) : string :=
  match t with cron => "cron" | once => "once" end.

(** A row of [cron_jobs]; [enabled] and [delete_after_run] are SQLite
    integers used as booleans. *)
Record CronJob := {
  id : string;
  name : string;
  schedule : string;
  schedule_type : ScheduleType;
  message : string;
  target_user_id : string;
  timezone : string;
  enabled : Z;
  delete_after_run : Z;
  run_count : Z;
  last_run_at : option string;
  last_status : option string;
  last_error : option string;
  created_at : string;
}.

(** A row of [cron_runs] (the autoincrement key is its position). *)
Record CronRun := {
  job_id : string;
  job_name : string;
  run_status : string;
  error : option string;
  started_at : string;
  completed_at : option string;
}.

(** What the runtime holds for an armed handle: a [setTimeout] or a
    [node-cron] task, with the [job] object its callback closes over. *)
Inductive TimerKind := Timeout | Recurring.

Record Timer := { t_kind : TimerKind; t_job : CronJob }.

(** An [executeJob] suspended in [lineClient.pushMessage]. *)
Record Firing := { f_job : CronJob; f_startedAt : string }.

Record State := {
  cron_jobs : gmap string CronJob;     (* the table, by primary key *)
  cron_runs : list CronRun;            (* the append-only run table *)
  activeTasks : gmap string nat;       (* job id to its handle *)
  timers : gmap nat Timer;             (* handles the runtime has armed *)
  next_timer : nat;
  firings : list Firing;
  pushed : list (string * string);
}.

Definition empty : State :=
  {| cron_jobs := ∅; cron_runs := []; activeTasks := ∅; timers := ∅;
     next_timer := 0; firings := []; pushed := [] |}.

Definition with_jobs (f : gmap string CronJob → gmap string CronJob) (s : State) : State :=
  {| cron_jobs := f (cron_jobs s); cron_runs := cron_runs s;
     activeTasks := activeTasks s; timers := timers s; next_timer := next_timer s;
     firings := firings s; pushed := pushed s |}.

Definition with_runs (f : list CronRun → list CronRun) (s : State) : State :=
  {| cron_jobs := cron_jobs s; cron_runs := f (cron_runs s);
     activeTasks := activeTasks s; timers := timers s; next_timer := next_timer s;
     firings := firings s; pushed := pushed s |}.

Definition with_firings (f : list Firing → list Firing) (s : State) : State :=
  {| cron_jobs := cron_jobs s; cron_runs := cron_runs s;
     activeTasks := activeTasks s; timers := timers s; next_timer := next_timer s;
     firings := f (firings s); pushed := pushed s |}.

Definition push_message (to text : string) (s : State) : State :=
  {| cron_jobs := cron_jobs s; cron_runs := cron_runs s;
     activeTasks := activeTasks s; timers := timers s; next_timer := next_timer s;
     firings := firings s; pushed := pushed s ++ [(to, text)] |}.

(** [activeTasks.delete(jobId)]. *)
Definition forget_handle (jobId : string) (s : State) : State :=
  {| cron_jobs := cron_jobs s; cron_runs := cron_runs s;
     activeTasks := delete jobId (activeTasks s); timers := timers s;
     next_timer := next_timer s; firings := firings s; pushed := pushed s |}.

(** [clearTimeout(timeoutId)] or [task.stop()] on handle [t]. *)
Definition disarm (t : nat) (s : State) : State :=
  {| cron_jobs := cron_jobs s; cron_runs := cron_runs s;
     activeTasks := activeTasks s; timers := delete t (timers s);
     next_timer := next_timer s; firings := firings s; pushed := pushed s |}.

(** [const task = activeTasks.get(id); if (task) { task.stop(); activeTasks.delete(id); }]. *)
Definition stop_handle (jobId : string) (s : State) : State :=
  match activeTasks s !! jobId with
  | Some t => forget_handle jobId (disarm t s)
  | None => s
  end.

(** [setTimeout(...)] or [cron.schedule(...)], then [activeTasks.set(job.id, handle)]. *)
Definition arm (kind : TimerKind) (job : CronJob) (s : State) : State :=
  let t := next_timer s in
  {| cron_jobs := cron_jobs s; cron_runs := cron_runs s;
     activeTasks := <[id job := t]> (activeTasks s);
     timers := <[t := {| t_kind := kind; t_job := job |}]> (timers s);
     next_timer := S t; firings := firings s; pushed := pushed s |}.

Definition truthyZ (n : Z) : bool := negb (n =? 0).

Definition is_digit (c : ascii) : bool :=
  if Ascii.is_nat c is Some _ then true else false.

(** The regular expression [/^\d{4}-\d{2}-\d{2}/]. *)
Definition iso_date_like (s : string) : bool :=
  match s with
  | String y1 (String y2 (String y3 (String y4 (String d1
      (String m1 (String m2 (String d2 (String a1 (String a2 _))))))))) =>
      is_digit y1 && is_digit y2 && is_digit y3 && is_digit y4
      && Ascii.eqb d1 "-" && is_digit m1 && is_digit m2
      && Ascii.eqb d2 "-" && is_digit a1 && is_digit a2
  | _ => false
  end.

Section Scheduler.
(** The runtime: [new Date(s).getTime()] ([None] for an invalid date),
    [cron.validate] of node-cron, what [cron.schedule] throws when it is given
    a time zone it does not know ([None] when it accepts the zone), and
    whether the SQLite connection of memory/store.ts enforces foreign keys
    (the [cron_runs] rows reference their job with [ON DELETE CASCADE]). *)
Variable Date_parse : string → option Z.
Variable cron_validate : string → bool.
Variable timezone_error : string → option Thrown.
Variable foreign_keys : bool.

Definition update_job (jobId : string) (f : CronJob → CronJob) (s : State) : State :=
  with_jobs (alter f jobId) s.

(** [DELETE FROM cron_jobs WHERE id = ?]. *)
Definition delete_job (jobId : string) (s : State) : State :=
  let s1 := with_jobs (delete jobId) s in
  if foreign_keys
  then with_runs (filter (λ r, job_id r ≠ jobId)) s1
  else s1.

(** [INSERT INTO cron_runs ...]: throws when foreign keys are enforced and
    the job row is gone. *)
Definition insert_run (r : CronRun) (s : State) : option State :=
  if foreign_keys && bool_decide (cron_jobs s !! job_id r = None) then None
  else Some (with_runs (λ rs, rs ++ [r]) s).

Definition FK_ERROR : Thrown := ErrorObj "SqliteError" "FOREIGN KEY constraint failed".
Definition PK_ERROR : Thrown := ErrorObj "SqliteError" "UNIQUE constraint failed: cron_jobs.id".

Definition record_run (at_ : string) (st : string) (err : option string) (j : CronJob)
    : CronJob :=
  {| id := id j; name := name j; schedule := schedule j;
     schedule_type := schedule_type j; message := message j;
     target_user_id := target_user_id j; timezone := timezone j;
     enabled := enabled j; delete_after_run := delete_after_run j;
     run_count := run_count j + 1;
     last_run_at := Some at_; last_status := Some st; last_error := err;
     created_at := created_at j |}.

Definition set_enabled (v : Z) (clear_error : bool) (j : CronJob) : CronJob :=
  {| id := id j; name := name j; schedule := schedule j;
     schedule_type := schedule_type j; message := message j;
     target_user_id := target_user_id j; timezone := timezone j;
     enabled := v; delete_after_run := delete_after_run j;
     run_count := run_count j;
     last_run_at := last_run_at j; last_status := last_status j;
     last_error := if clear_error then None else last_error j;
     created_at := created_at j |}.

(** *** executeJob *)

(** From the call to the suspension in [pushMessage]. *)
Definition executeJob_start (job : CronJob) (clock : Clock) (s : State) : State :=
  with_firings (λ fs, fs ++ [{| f_job := job; f_startedAt := now_iso clock |}])
    (push_message (target_user_id job) ("⏰ " +:+ message job) s).

(** The [catch] block. *)
Definition executeJob_catch (job : CronJob) (startedAt : string) (err : Thrown)
    (clock : Clock) (s : State) : JsResult (bool * option string) * State :=
  let errorMsg := message_or_string err in
  let completedAt := now_iso clock in
  let s1 := update_job (id job)
              (record_run completedAt "error" (Some (take_str 500 errorMsg))) s in
  match insert_run {| job_id := id job; job_name := name job; run_status := "error";
                      error := Some (take_str 500 errorMsg);
                      started_at := startedAt; completed_at := Some completedAt |} s1 with
  | None => (Rejected FK_ERROR, s1)
  | Some s2 => (Resolved (false, Some errorMsg), s2)
  end.

(** The rest of the [try] block once the push has succeeded. *)
Definition executeJob_try (job : CronJob) (startedAt : string) (clock : Clock)
    (s : State) : JsResult (bool * option string) * State :=
  let completedAt := now_iso clock in
  let s1 := update_job (id job) (record_run completedAt "success" None) s in
  match insert_run {| job_id := id job; job_name := name job; run_status := "success";
                      error := None; started_at := startedAt;
                      completed_at := Some completedAt |} s1 with
  | None => executeJob_catch job startedAt FK_ERROR clock s1
  | Some s2 =>
      if bool_decide (schedule_type job = once) || truthyZ (delete_after_run job) then
        let s3 := if truthyZ (delete_after_run job) then delete_job (id job) s2
                  else update_job (id job) (set_enabled 0 false) s2 in
        (Resolved (true, None), stop_handle (id job) s3)
      else (Resolved (true, None), s2)
  end.

(** [executeJob] from the moment its push settles: [failure] is what
    [pushMessage] threw, if it did. *)
Definition executeJob_resume (job : CronJob) (startedAt : string)
    (failure : option Thrown) (clock : Clock) (s : State)
    : JsResult (bool * option string) * State :=
  match failure with
  | None => executeJob_try job startedAt clock s
  | Some err => executeJob_catch job startedAt err clock s
  end.

(** A whole firing with nothing interleaved: [await executeJob(job, dataDir)]. *)
Definition executeJob (job : CronJob) (started : Clock) (failure : option Thrown)
    (finished : Clock) (s : State) : JsResult (bool * option string) * State :=
  executeJob_resume job (now_iso started) failure finished
    (push_message (target_user_id job) ("⏰ " +:+ message job) s).

(** *** scheduleJob *)

(** [scheduleJob] throws what [cron.schedule] throws, after the old handle
    has been stopped. *)
Definition scheduleJob (job : CronJob) (clock : Clock) (s : State)
    : JsResult bool * State :=
  let s1 := stop_handle (id job) s in
  if negb (truthyZ (enabled job)) then (Resolved false, s1)
  else match schedule_type job with
       | once =>
           match Date_parse (schedule job) with
           | Some targetTime =>
               if targetTime - now_ms clock <=? 0 then (Resolved false, s1)
               else (Resolved true, arm Timeout job s1)
           | None => (Resolved true, arm Timeout job s1)   (* NaN <= 0 is false *)
           end
       | cron =>
           if negb (cron_validate (schedule job)) then (Resolved false, s1)
           else
             match timezone_error (or_str (timezone job) "Asia/Bangkok") with
             | Some err => (Rejected err, s1)
             | None => (Resolved true, arm Recurring job s1)
             end
       end.

(** The loop of [initCronJobs] over the rows it selected: it has no
    [try]/[catch], so it is left at the first job whose [scheduleJob]
    throws. *)
Fixpoint schedule_all (jobs : list CronJob) (clock : Clock) (s : State)
    : JsResult unit * State :=
  match jobs with
  | [] => (Resolved tt, s)
  | job :: rest =>
      match scheduleJob job clock s with
      | (Resolved _, s1) => schedule_all rest clock s1
      | (Rejected err, s1) => (Rejected err, s1)
      end
  end.

(** [initCronJobs]: the rows with [enabled = 1], each scheduled.  The
    [SELECT] has no [ORDER BY]; the rows are taken here in the order of their
    keys. *)
Definition initCronJobs (clock : Clock) (s : State) : JsResult unit * State :=
  schedule_all (filter (λ j, enabled j = 1) (snd <$> map_to_list (cron_jobs s))) clock s.

(** The callback of a one-shot handle runs. *)
Definition timeout_fires (t : nat) (clock : Clock) (s : State) : State :=
  match timers s !! t with
  | Some {| t_kind := Timeout; t_job := job |} =>
      forget_handle (id job) (executeJob_start job clock (disarm t s))
  | _ => s
  end.

(** node-cron runs the callback of a recurring handle. *)
Definition cron_tick (t : nat) (clock : Clock) (s : State) : State :=
  match timers s !! t with
  | Some {| t_kind := Recurring; t_job := job |} => executeJob_start job clock s
  | _ => s
  end.

(** The push of suspended firing [i] settles. *)
Definition firing_settles (i : nat) (failure : option Thrown) (clock : Clock)
    (s : State) : JsResult (bool * option string) * State :=
  match firings s !! i with
  | Some f =>
      executeJob_resume (f_job f) (f_startedAt f) failure clock
        (with_firings (delete i) s)
  | None => (Resolved (false, None), s)
  end.

(** *** The tool actions *)

Definition opt_str_json (o : option string) : Json :=
  match o with Some s => JStr s | None => JNull end.

Definition formatJob (j : CronJob) (s : State) : Json :=
  JObj [("id", JStr (id j)); ("name", JStr (name j)); ("schedule", JStr (schedule j));
        ("scheduleType", JStr (schedule_type_text (schedule_type j)));
        ("message", JStr (message j)); ("timezone", JStr (timezone j));
        ("enabled", JBool (truthyZ (enabled j)));
        ("deleteAfterRun", JBool (truthyZ (delete_after_run j)));
        ("runCount", JNum (run_count j));
        ("lastRunAt", opt_str_json (last_run_at j));
        ("lastStatus", opt_str_json (last_status j));
        ("lastError", opt_str_json (last_error j));
        ("createdAt", JStr (created_at j));
        ("isScheduled", JBool (bool_decide (is_Some (activeTasks s !! id j))))].

(** The schedule check of [add]: the type of the schedule, or the error
    payload to return. *)
Definition validate_for_add (sched : string) (clock : Clock) : string + ScheduleType :=
  if iso_date_like sched then
    match Date_parse sched with
    | None => inl (error_payload "invalid_date" ("Invalid datetime: " +:+ sched))
    | Some d =>
        if d <=? now_ms clock
        then inl (error_payload "past_date" "Cannot schedule in the past.")
        else inr once
    end
  else if negb (cron_validate sched) then
    inl (error_payload "invalid_schedule"
           ("Invalid cron expression: " +:+ dq +:+ sched +:+ dq +:+
            ". Examples: " +:+ dq +:+ "0 8 * * *" +:+ dq +:+ " (daily 8am), " +:+
            dq +:+ "*/30 * * * *" +:+ dq +:+ " (every 30min)."))
  else inr cron.

(** The schedule check of [update]. *)
Definition validate_for_update (sched : string) : string + ScheduleType :=
  if iso_date_like sched then
    match Date_parse sched with
    | None => inl (error_payload "invalid_date" ("Invalid datetime: " +:+ sched))
    | Some _ => inr once
    end
  else if negb (cron_validate sched) then
    inl (error_payload "invalid_schedule"
           ("Invalid cron expression: " +:+ dq +:+ sched +:+ dq +:+ "."))
  else inr cron.

Definition action_failed (action : string) (err : Thrown) : string :=
  stringify (JObj [("error", JStr "action_failed"); ("action", JStr action);
                   ("message", JStr (message_or_string err))]).

(** [case "add"]; [newId] is [crypto.randomUUID().substring(0, 8)]. *)
Definition add (input : Json) (ctx : option ToolContext) (newId : string)
    (clock : Clock) (s : State) : string * State :=
  let name_ := trimmed_string_field input "name" in
  let sched := trimmed_string_field input "schedule" in
  let message_ := trimmed_string_field input "message" in
  let timezone_ := if get input "timezone" is Some (JStr z) then trim z else "Asia/Bangkok" in
  let deleteAfterRun := if get input "deleteAfterRun" is Some (JBool true) then true else false in
  if String.eqb name_ "" then (error_payload "missing_name" "name is required.", s)
  else if String.eqb sched "" then (error_payload "missing_schedule" "schedule is required.", s)
  else if String.eqb message_ "" then (error_payload "missing_message" "message is required.", s)
  else if negb (truthy_str (ctx_userId ctx)) then
    (error_payload "no_user" "No userId available.", s)
  else
    match validate_for_add sched clock with
    | inl err => (err, s)
    | inr scheduleType =>
        let job :=
          {| id := newId; name := name_; schedule := sched;
             schedule_type := scheduleType; message := message_;
             target_user_id := default "" (ctx_userId ctx); timezone := timezone_;
             enabled := 1; delete_after_run := if deleteAfterRun then 1 else 0;
             run_count := 0; last_run_at := None; last_status := None;
             last_error := None; created_at := now_iso clock |} in
        match cron_jobs s !! newId with
        | Some _ => (action_failed "add" PK_ERROR, s)     (* the INSERT throws *)
        | None =>
            let s1 := with_jobs (<[newId := job]>) s in
            match scheduleJob job clock s1 with
            | (Resolved scheduled, s2) =>
                (stringify (JObj [("success", JBool true); ("action", JStr "add");
                                  ("job", formatJob job s2);
                                  ("scheduled", JBool scheduled)]), s2)
            | (Rejected err, s2) => (action_failed "add" err, s2)   (* the row stays *)
            end
        end
    end.

(** The [SET] clauses [update] collects, as a change of the row; [None] when
    there is nothing to update. *)
Definition patch_of (input : Json) (newSchedule : option (string * ScheduleType))
    : option (CronJob → CronJob) :=
  let name_ := optional_nonempty input "name" in
  let message_ := optional_nonempty input "message" in
  let timezone_ := optional_nonempty input "timezone" in
  let enabled_ := if get input "enabled" is Some (JBool b) then Some b else None in
  let dar := if get input "deleteAfterRun" is Some (JBool b) then Some b else None in
  if bool_decide (name_ = None ∧ message_ = None ∧ timezone_ = None ∧ enabled_ = None
                  ∧ dar = None ∧ newSchedule = None)
  then None
  else Some (λ j,
    {| id := id j;
       name := default (name j) name_;
       schedule := default (schedule j) (fst <$> newSchedule);
       schedule_type := default (schedule_type j) (snd <$> newSchedule);
       message := default (message j) message_;
       target_user_id := target_user_id j;
       timezone := default (timezone j) timezone_;
       enabled := default (enabled j) ((λ b : bool, if b then 1 else 0) <$> enabled_);
       delete_after_run :=
         default (delete_after_run j) ((λ b : bool, if b then 1 else 0) <$> dar);
       run_count := run_count j; last_run_at := last_run_at j;
       last_status := last_status j; last_error := last_error j;
       created_at := created_at j |}).

(** [case "update"]. *)
Definition update (input : Json) (clock : Clock) (s : State) : string * State :=
  let jobId := trimmed_string_field input "jobId" in
  if String.eqb jobId "" then (error_payload "missing_job_id" "jobId is required.", s)
  else
    match cron_jobs s !! jobId with
    | None => (error_payload "not_found" ("Job " +:+ dq +:+ jobId +:+ dq +:+ " not found."), s)
    | Some existing =>
        let checked :=
          match optional_nonempty input "schedule" with
          | Some newSchedule =>
              match validate_for_update newSchedule with
              | inl err => inl err
              | inr newType => inr (Some (newSchedule, newType))
              end
          | None => inr None
          end in
        match checked with
        | inl err => (err, s)
        | inr newSchedule =>
            match patch_of input newSchedule with
            | None =>
                (error_payload "no_changes"
                   "No fields to update. Provide name, schedule, message, timezone, enabled, or deleteAfterRun.", s)
            | Some patch =>
                let s1 := update_job jobId patch s in
                let updated := patch existing in
                match scheduleJob updated clock s1 with
                | (Resolved _, s2) =>
                    (stringify (JObj [("success", JBool true); ("action", JStr "update");
                                      ("job", formatJob updated s2)]), s2)
                | (Rejected err, s2) => (action_failed "update" err, s2)
                end
            end
        end
    end.

(** [case "remove"]. *)
Definition remove (input : Json) (s : State) : string * State :=
  let jobId := trimmed_string_field input "jobId" in
  if String.eqb jobId "" then (error_payload "missing_job_id" "jobId is required.", s)
  else
    match cron_jobs s !! jobId with
    | None => (error_payload "not_found" ("Job " +:+ dq +:+ jobId +:+ dq +:+ " not found."), s)
    | Some job =>
        (stringify (JObj [("success", JBool true); ("action", JStr "remove");
                          ("removedJob", JObj [("id", JStr jobId); ("name", JStr (name job))])]),
         delete_job jobId (stop_handle jobId s))
    end.

(** [case "run"] up to the suspension inside [executeJob]: an immediate
    answer, or the job whose firing has been started. *)
Definition run_start (input : Json) (clock : Clock) (s : State)
    : (string + CronJob) * State :=
  let jobId := trimmed_string_field input "jobId" in
  if String.eqb jobId "" then (inl (error_payload "missing_job_id" "jobId is required."), s)
  else
    match cron_jobs s !! jobId with
    | None =>
        (inl (error_payload "not_found" ("Job " +:+ dq +:+ jobId +:+ dq +:+ " not found.")), s)
    | Some job => (inr job, executeJob_start job clock s)
    end.

(** The answer of [case "run"] once [executeJob] has settled. *)
Definition run_answer (job : CronJob) (r : JsResult (bool * option string)) : string :=
  match r with
  | Resolved (success, err) =>
      stringify (JObj ([("success", JBool success); ("action", JStr "run");
                        ("job", JObj [("id", JStr (id job)); ("name", JStr (name job));
                                      ("message", JStr (message job))])] ++
                       (if truthy_str err then [("error", JStr (default "" err))] else [])))
  | Rejected e => action_failed "run" e
  end.

(** [case "wake"]. *)
Definition wake (input : Json) (clock : Clock) (s : State) : string * State :=
  let jobId := trimmed_string_field input "jobId" in
  if String.eqb jobId "" then (error_payload "missing_job_id" "jobId is required.", s)
  else
    match cron_jobs s !! jobId with
    | None => (error_payload "not_found" ("Job " +:+ dq +:+ jobId +:+ dq +:+ " not found."), s)
    | Some job =>
        if truthyZ (enabled job) then
          match scheduleJob job clock s with
          | (Resolved scheduled, s1) =>
              (stringify (JObj [("success", JBool true); ("action", JStr "wake");
                                ("message", JStr "Job was already enabled.");
                                ("job", formatJob job s1);
                                ("scheduled", JBool scheduled)]), s1)
          | (Rejected err, s1) => (action_failed "wake" err, s1)
          end
        else
          let s1 := update_job jobId (set_enabled 1 true) s in
          let updated := set_enabled 1 true job in
          match scheduleJob updated clock s1 with
          | (Resolved scheduled, s2) =>
              (stringify (JObj [("success", JBool true); ("action", JStr "wake");
                                ("job", formatJob updated s2);
                                ("scheduled", JBool scheduled)]), s2)
          | (Rejected err, s2) => (action_failed "wake" err, s2)
          end
    end.

(** *** Everything that can happen to the scheduler *)

Inductive Op :=
  | OpStart (clock : Clock)       (* the process (re)starts and loads tools/index.ts,
                                     which catches what [initCronJobs] throws *)
  | OpAdd (input : Json) (ctx : option ToolContext) (newId : string) (clock : Clock)
  | OpUpdate (input : Json) (clock : Clock)
  | OpRemove (input : Json)
  | OpRun (input : Json) (clock : Clock)
  | OpWake (input : Json) (clock : Clock)
  | OpTimeoutFires (t : nat) (clock : Clock)
  | OpCronTick (t : nat) (clock : Clock)
  | OpFiringSettles (i : nat) (failure : option Thrown) (clock : Clock).

(** What a starting process finds: the tables, and nothing in memory. *)
Definition boot (jobs : gmap string CronJob) (runs : list CronRun) : State :=
  {| cron_jobs := jobs; cron_runs := runs; activeTasks := ∅; timers := ∅;
     next_timer := 0; firings := []; pushed := [] |}.

Definition step (s : State) (op : Op) : State :=
  match op with
  | OpStart clock => snd (initCronJobs clock (boot (cron_jobs s) (cron_runs s)))
  | OpAdd input ctx newId clock => snd (add input ctx newId clock s)
  | OpUpdate input clock => snd (update input clock s)
  | OpRemove input => snd (remove input s)
  | OpRun input clock => snd (run_start input clock s)
  | OpWake input clock => snd (wake input clock s)
  | OpTimeoutFires t clock => timeout_fires t clock s
  | OpCronTick t clock => cron_tick t clock s
  | OpFiringSettles i failure clock => snd (firing_settles i failure clock s)
  end.

(** The scheduler after a history of operations on a new database. *)
Definition after (ops : list Op) : State := foldl step empty ops.

(** Handles the runtime has armed for job [jobId]. *)
Definition armed_for (jobId : string) (s : State) : list (nat * Timer) :=
  filter (λ kv, id (t_job kv.2) = jobId) (map_to_list (timers s)).

(** *** The handle invariant *)

(** Every entry of [activeTasks] names a handle the runtime has armed for
    that very job, whose row exists and is enabled; every armed handle is the
    one [activeTasks] holds for its job; rows sit under their primary key. *)
Record consistent (s : State) : Prop := {
  handle_armed : ∀ jobId t, activeTasks s !! jobId = Some t →
    ∃ tm, timers s !! t = Some tm ∧ id (t_job tm) = jobId;
  handle_enabled : ∀ jobId t, activeTasks s !! jobId = Some t →
    ∃ row, cron_jobs s !! jobId = Some row ∧ enabled row ≠ 0;
  armed_registered : ∀ t tm, timers s !! t = Some tm →
    activeTasks s !! id (t_job tm) = Some t;
  armed_below_next : ∀ t tm, timers s !! t = Some tm → (t < next_timer s)%nat;
  rows_keyed : ∀ k row, cron_jobs s !! k = Some row → id row = k;
}.

(** A change of the table that touches the row of [j] only. *)
Definition touches_only (j : string) (f : gmap string CronJob → gmap string CronJob)
    (m : gmap string CronJob) : Prop :=
  (∀ j', j' ≠ j → f m !! j' = m !! j') ∧ (∀ row, f m !! j = Some row → id row = j).

End Scheduler.
End Cron.

(** ** Concrete inputs used by the examples *)

Module Scenario.

(** A world for the tool handlers: the log of what they were asked. *)
Definition World : Type := list string.

Definition echo_tool : Tools.ToolDefinition World :=
  {| Tools.name := "echo"; Tools.description := "Repeat the text argument.";
     Tools.inputSchema := JObj [("type", JStr "object")];
     Tools.execute := λ input _ w,
       (Resolved (trimmed_string_field input "text"), w ++ ["echo"]) |}.

Definition failing_tool : Tools.ToolDefinition World :=
  {| Tools.name := "fail"; Tools.description := "Always throws.";
     Tools.inputSchema := JObj [("type", JStr "object")];
     Tools.execute := λ _ _ w, (Rejected (Error "disk unreachable"), w ++ ["fail"]) |}.

Definition registry : list (Tools.ToolDefinition World) := [echo_tool; failing_tool].

Definition JSON_parse (s : string) : option Json :=
  if String.eqb s "{}" then Some (JObj []) else None.

Definition match_tool_call (s : string) : option (string * string) := None.

Definition Date_now (k : nat) : Z := 1767225600000 + Z.of_nat k.

(** Back ends that ask for a tool on every turn. *)
Definition gemini_tool_forever (k : nat) (req : Agent.GeminiRequest) : Agent.GeminiReply :=
  Agent.GOk (Some [{| Agent.text := None;
                      Agent.functionCall :=
                        Some {| Agent.fc_name := "echo"; Agent.fc_args := JObj [] |} |}]).

Definition ollama_tool_forever (k : nat) (req : Agent.OllamaRequest) : Agent.OllamaReply :=
  Agent.OOk (Some {| Agent.o_role := "assistant"; Agent.o_content := None;
                     Agent.o_tool_calls :=
                       Some [{| Agent.tc_id := "call_1"; Agent.tc_name := "echo";
                                Agent.tc_arguments := "{}" |}];
                     Agent.o_tool_call_id := None |}).

Definition anthropic_tool_forever (k : nat) (req : Agent.AnthropicRequest)
    : Agent.AnthropicReply :=
  Agent.AOk [Agent.BToolUse "toolu_1" "echo" (JObj [])] "tool_use".

(** Gemini out of quota, Ollama answering in plain text. *)
Definition gemini_down (k : nat) (req : Agent.GeminiRequest) : Agent.GeminiReply :=
  Agent.GNotOk 429 "RESOURCE_EXHAUSTED".

Definition ollama_pong (k : nat) (req : Agent.OllamaRequest) : Agent.OllamaReply :=
  Agent.OOk (Some {| Agent.o_role := "assistant"; Agent.o_content := Some "pong";
                     Agent.o_tool_calls := None; Agent.o_tool_call_id := None |}).

Definition gemini_and_ollama : Agent.Env :=
  {| Agent.GEMINI_API_KEY := Some "key"; Agent.OLLAMA_MODEL := Some "glm-4.7-flash";
     Agent.ANTHROPIC_API_KEY := None |}.

Definition photo : Agent.MediaData :=
  {| Agent.mimeType := "image/jpeg"; Agent.base64 := "/9j/4AAQ" |}.

Definition fresh_exchange : Agent.St World :=
  {| Agent.media_out := Agent.no_media_out; Agent.calls := 0; Agent.saved := [];
     Agent.world := [] |}.

(** Clock readings. *)
Definition noon : Clock := {| now_ms := 1767243600000; now_iso := "2026-01-01T05:00:00.000Z" |}.
Definition later : Clock := {| now_ms := 1767243660000; now_iso := "2026-01-01T05:01:00.000Z" |}.
Definition much_later : Clock :=
  {| now_ms := 1893466800000; now_iso := "2030-01-01T03:00:00.000Z" |}.

(** Background tasks. *)
Definition spawn_env : Spawn.Env :=
  {| Spawn.GEMINI_API_KEY := Some "key"; Spawn.GEMINI_MODEL := None;
     Spawn.OLLAMA_MODEL := None; Spawn.ANTHROPIC_API_KEY := None |}.

Definition alice : option ToolContext := Some {| userId := "Ualice" |}.

Definition spawn_input (what : string) : Json := JObj [("task", JStr what)].

Definition spawn_as_alice (taskId : string) (s : Spawn.State) : Spawn.State :=
  snd (Spawn.execute spawn_env (spawn_input "summarise the report") alice taskId noon s).

Definition one_task : Spawn.State := spawn_as_alice "a1b2c3d4" Spawn.empty.

Definition five_tasks : Spawn.State :=
  foldr spawn_as_alice Spawn.empty ["t0000005"; "t0000004"; "t0000003"; "t0000002"; "t0000001"].

Definition AbortError : Thrown := ErrorObj "AbortError" "This operation was aborted".

(** The task of [one_task] after its timeout fired and the aborted model call
    rejected. *)
Definition timed_out : Spawn.State :=
  Spawn.model_settles 0 (Rejected AbortError) later (Spawn.timeout_fires 0 one_task).

(** Scheduled jobs: a runtime that knows two dates and one cron expression. *)
Definition Date_parse (s : string) : option Z :=
  if String.eqb s "2020-01-01T00:00" then Some 1577811600000
  else if String.eqb s "2030-01-01T09:00" then Some 1893463200000
  else None.

Definition cron_validate (s : string) : bool := String.eqb s "0 8 * * *".

Definition timezone_error (tz : string) : option Thrown :=
  if String.eqb tz "Asia/Bangkok" || String.eqb tz "UTC" then None
  else Some (ErrorObj "RangeError" ("Invalid time zone specified: " +:+ tz)).

Definition add_input (n sched : string) (deleteAfterRun : bool) : Json :=
  JObj [("action", JStr "add"); ("name", JStr n); ("schedule", JStr sched);
        ("message", JStr "stand-up"); ("deleteAfterRun", JBool deleteAfterRun)].

Definition job_input (jobId : string) : Json := JObj [("jobId", JStr jobId)].

Definition reschedule_input (jobId sched : string) : Json :=
  JObj [("jobId", JStr jobId); ("name", JStr "daily"); ("message", JStr "stand-up");
        ("schedule", JStr sched)].

(** A one-shot job is added, fires, is delivered (hence disabled), and is
    woken after its date has passed. *)
Definition woken_too_late : list Cron.Op :=
  [Cron.OpAdd (add_input "new year" "2030-01-01T09:00" false) alice "j0000001" noon;
   Cron.OpTimeoutFires 0 much_later;
   Cron.OpFiringSettles 0 None much_later;
   Cron.OpWake (job_input "j0000001") much_later].

(** A recurring job, and one that deletes itself after running. *)
Definition daily_job : Cron.State :=
  snd (Cron.add Date_parse cron_validate timezone_error (add_input "daily" "0 8 * * *" false) alice
         "j0000002" noon Cron.empty).

Definition self_deleting_job : Cron.CronJob :=
  {| Cron.id := "j0000003"; Cron.name := "once only"; Cron.schedule := "0 8 * * *";
     Cron.schedule_type := Cron.cron; Cron.message := "stand-up";
     Cron.target_user_id := "Ualice"; Cron.timezone := "Asia/Bangkok";
     Cron.enabled := 1; Cron.delete_after_run := 1; Cron.run_count := 0;
     Cron.last_run_at := None; Cron.last_status := None; Cron.last_error := None;
     Cron.created_at := "2026-01-01T05:00:00.000Z" |}.

Definition with_self_deleting_job : Cron.State :=
  Cron.with_jobs (λ _, {[ "j0000003" := self_deleting_job ]}) Cron.empty.

End Scenario.

(** ** Vocabulary for the exchange properties *)

Module Exchange.

Section Vocabulary.
Context {W : Type}.

(** A step that sends no model request, whether it fulfils or throws. *)
Definition silent {A} (m : M (Agent.St W) A) : Prop :=
  ∀ st, Agent.calls (snd (m st)) = Agent.calls st.

(** A step that hands nothing to [saveMessage]. *)
Definition unsaving {A} (m : M (Agent.St W) A) : Prop :=
  ∀ st, Agent.saved (snd (m st)) = Agent.saved st.

(** The part of a Gemini reply that asks for tool [fc]. *)
Definition call_part (fc : Agent.FunctionCall) : Agent.ReplyPart :=
  {| Agent.text := None; Agent.functionCall := Some fc |}.

(** The part of a Gemini reply that carries text. *)
Definition text_part (t : string) : Agent.ReplyPart :=
  {| Agent.text := Some t; Agent.functionCall := None |}.

(** The conversation [chatGemini] opens with. *)
Definition gemini_opening (message : string) (dbHistory : list (string * string))
    (media : option Agent.MediaData) : list Agent.GeminiContent :=
  map (λ m, {| Agent.g_role := if String.eqb (fst m) "assistant" then "model" else "user";
               Agent.g_parts := [Agent.PText (snd m)] |}) (Agent.history_tail dbHistory)
  ++ [{| Agent.g_role := "user";
         Agent.g_parts :=
           Agent.PText message ::
           match media with
           | Some m => if existsb (startsWith (Agent.mimeType m)) Agent.GEMINI_INLINE_PREFIXES
                       then [Agent.PInlineData (Agent.mimeType m) (Agent.base64 m)] else []
           | None => []
           end |}].

(** The results of tool calls made one after the other: each call acts on
    the world the calls before it have left.  [executeTool] never rejects;
    the list would end there if it did. *)
Fixpoint results_in_order (allTools : list (Tools.ToolDefinition W))
    (ctx : ToolContext) (calls : list (string * Json)) (w : W) : list string * W :=
  match calls with
  | [] => ([], w)
  | (n, args) :: rest =>
      match Tools.executeTool allTools n args (Some ctx) w with
      | (Resolved result, w1) =>
          let '(more, w2) := results_in_order allTools ctx rest w1 in
          (result :: more, w2)
      | (Rejected _, w1) => ([], w1)
      end
  end.

(** The [tool_use] blocks of an Anthropic turn: id, name, input. *)
Definition tool_uses (blocks : list Agent.ContentBlock) : list (string * string * Json) :=
  omap (λ b, if b is Agent.BToolUse id n input then Some (id, n, input) else None) blocks.

(** The calls of an Ollama turn whose arguments parse, as name and
    arguments. *)
Definition parsed_calls (JSON_parse : string → option Json)
    (tcs : list Agent.ToolCall) : list (string * Json) :=
  omap (λ tc, (λ args, (Agent.tc_name tc, args)) <$> JSON_parse (Agent.tc_arguments tc)) tcs.

End Vocabulary.
End Exchange.

(** ** More concrete inputs for the examples *)

Module Script.

(** A Gemini back end that asks for [echo] first and answers "done" next. *)
Definition gemini_search_then_done (k : nat) (req : Agent.GeminiRequest)
    : Agent.GeminiReply :=
  match k with
  | O => Agent.GOk (Some [Exchange.call_part
                            {| Agent.fc_name := "echo";
                               Agent.fc_args := JObj [("text", JStr "x")] |}])
  | _ => Agent.GOk (Some [Exchange.text_part "done"])
  end.

End Script.

(** ** Histories of the background task manager *)

Module Tasks.
Import Spawn.

(** The counting loop of [sessionsSpawnTool.execute] on the map itself. *)
Definition count_user (uid : string) (m : gmap string Running) : nat :=
  List.length (filter (λ kv, user_id (r_task kv.2) = uid) (map_to_list m)).

(** What a starting process finds: the table, and nothing in memory (the
    module-level [runningTasks] is a new [Map]; timers and suspended bodies
    died with the old process). *)
Definition restart (s : State) : State :=
  {| background_tasks := background_tasks s; runningTasks := ∅; aborted := ∅;
     timeouts := ∅; next_controller := 0; bodies := []; pushed := pushed s |}.

(** Everything that can happen to the task manager. *)
Inductive Op :=
  | OpRestart
  | OpSpawn (input : Json) (ctx : option ToolContext) (newId : string) (clock : Clock)
  | OpCancel (taskId : string) (clock : Clock)
  | OpSteer (taskId newMessage newId : string) (clock : Clock)
  | OpTimeoutFires (c : nat)
  | OpModelSettles (i : nat) (outcome : JsResult string) (clock : Clock)
  | OpPushSettles (i : nat).

Definition step (env : Env) (s : State) (op : Op) : State :=
  match op with
  | OpRestart => restart s
  | OpSpawn input ctx newId clock => snd (execute env input ctx newId clock s)
  | OpCancel taskId clock => snd (cancelTask taskId clock s)
  | OpSteer taskId newMessage newId clock =>
      snd (steerTask env taskId newMessage newId clock s)
  | OpTimeoutFires c => timeout_fires c s
  | OpModelSettles i outcome clock => model_settles i outcome clock s
  | OpPushSettles i => push_settles i s
  end.

(** The manager after a history of operations on a new database. *)
Definition after (env : Env) (ops : list Op) : State := foldl (step env) empty ops.

(** Two versions of a row that differ at most in status, result and
    completion time. *)
Definition same_task (a b : BackgroundTask) : Prop :=
  id b = id a ∧ label b = label a ∧ task b = task a ∧ model b = model a
  ∧ user_id b = user_id a ∧ created_at b = created_at a.

(** Every row of [s] is still there in [s'], as the same task. *)
Definition keeps_rows (s s' : State) : Prop :=
  ∀ k row, background_tasks s !! k = Some row →
    ∃ row', background_tasks s' !! k = Some row' ∧ same_task row row'.

(** What holds of the registry of running tasks after every history. *)
Record well_formed (s : State) : Prop := {
  rows_keyed : ∀ k row, background_tasks s !! k = Some row → id row = k;
  entry_has_row : ∀ k e, runningTasks s !! k = Some e →
    ∃ row, background_tasks s !! k = Some row ∧ same_task (r_task e) row;
  within_cap : ∀ uid, (count_user uid (runningTasks s) ≤ MAX_CHILDREN)%nat;
}.

(** How the suspended bodies, the registry, the abort signals and the table
    hang together after every history. *)
Record linked (s : State) : Prop := {
  body_has_row : ∀ b, b ∈ bodies s → is_Some (background_tasks s !! b_taskId b);
  bodies_distinct : NoDup (b_taskId <$> bodies s);
  body_signal : ∀ b e, b ∈ bodies s → runningTasks s !! b_taskId b = Some e →
    abortController e = b_signal b;
  body_live : ∀ b, b ∈ bodies s → b_phase b = AwaitModel →
    is_Some (runningTasks s !! b_taskId b) ∨ b_signal b ∈ aborted s;
  signals_allocated : ∀ b, b ∈ bodies s → (b_signal b < next_controller s)%nat;
  cancelled_not_running : ∀ k row, background_tasks s !! k = Some row →
    status row = cancelled → runningTasks s !! k = None;
}.

End Tasks.

(** ** Concrete task histories *)

Module TaskScript.

Definition alice_row : Spawn.BackgroundTask :=
  {| Spawn.id := "a1b2c3d4"; Spawn.label := "summarise the report";
     Spawn.task := "summarise the report"; Spawn.status := Spawn.running;
     Spawn.result := None; Spawn.model := None; Spawn.user_id := "Ualice";
     Spawn.created_at := "2026-01-01T05:00:00.000Z"; Spawn.completed_at := None |}.

Definition alice_entry : Spawn.Running :=
  {| Spawn.r_task := alice_row; Spawn.abortController := 0;
     Spawn.startedAt := 1767243600000 |}.

Definition cancelled_row : Spawn.BackgroundTask :=
  {| Spawn.id := "a1b2c3d4"; Spawn.label := "summarise the report";
     Spawn.task := "summarise the report"; Spawn.status := Spawn.cancelled;
     Spawn.result := None; Spawn.model := None; Spawn.user_id := "Ualice";
     Spawn.created_at := "2026-01-01T05:00:00.000Z";
     Spawn.completed_at := Some "2026-01-01T05:01:00.000Z" |}.

Definition alice_body : Spawn.Body :=
  {| Spawn.b_taskId := "a1b2c3d4"; Spawn.b_userId := "Ualice";
     Spawn.b_signal := 0; Spawn.b_phase := Spawn.AwaitModel |}.

Definition chat_env : Agent.Env :=
  {| Agent.GEMINI_API_KEY := Some "key"; Agent.OLLAMA_MODEL := None;
     Agent.ANTHROPIC_API_KEY := None |}.

(** Another user asks to kill Alice's task. *)
Definition mallory : option ToolContext := Some {| userId := "Umallory" |}.

Definition kill_input : Json :=
  JObj [("action", JStr "kill"); ("target", JStr "a1b2c3d4")].

Definition no_report (input : Json) (s : Spawn.State) : string := "{}".

(** The five tasks of [Scenario.five_tasks] after the timeout of each one
    fired and its aborted model call rejected. *)
Definition five_timed_out : Spawn.State :=
  foldr (λ c s, Spawn.model_settles 0 (Rejected Scenario.AbortError) Scenario.later
                  (Spawn.timeout_fires c s))
    Scenario.five_tasks [4; 3; 2; 1; 0]%nat.

Definition five_ids : list string :=
  ["t0000001"; "t0000002"; "t0000003"; "t0000004"; "t0000005"].

(** No provider is configured. *)
Definition no_provider : Spawn.Env :=
  {| Spawn.GEMINI_API_KEY := None; Spawn.GEMINI_MODEL := None;
     Spawn.OLLAMA_MODEL := None; Spawn.ANTHROPIC_API_KEY := None |}.

Definition spawn_then_cancel : list Tasks.Op :=
  [Tasks.OpSpawn (Scenario.spawn_input "summarise the report") Scenario.alice
     "a1b2c3d4" Scenario.noon;
   Tasks.OpCancel "a1b2c3d4" Scenario.later].

End TaskScript.

(** ** How the scheduler's tables change (tools/cron.ts) *)

Module CronTables.
Import Cron.

(** The row rewrites the module performs: the [UPDATE] after a firing, the
    [enabled] flips of [executeJob] and [wake], the [SET] clauses of
    [update]. *)
Inductive row_change : (CronJob → CronJob) → Prop :=
  | rc_record at_ st err : row_change (record_run at_ st err)
  | rc_enabled v c : v = 0 ∨ v = 1 → row_change (set_enabled v c)
  | rc_patch input ns patch : patch_of input ns = Some patch → row_change patch.

(** Rewrites and deletions of rows, no insertion. *)
Inductive table_shrinks : gmap string CronJob → gmap string CronJob → Prop :=
  | ts_refl m : table_shrinks m m
  | ts_alter f j m : row_change f → table_shrinks m (alter f j m)
  | ts_delete j m : table_shrinks m (delete j m)
  | ts_trans m1 m2 m3 : table_shrinks m1 m2 → table_shrinks m2 m3 → table_shrinks m1 m3.

(** Two versions of the row of one job. *)
Definition same_job (a b : CronJob) : Prop :=
  id b = id a ∧ target_user_id b = target_user_id a ∧ created_at b = created_at a
  ∧ run_count a ≤ run_count b.

(** The operation is an [add] that draws the id [k]. *)
Definition adds (k : string) (op : Op) : Prop :=
  match op with OpAdd _ _ newId _ => newId = k | _ => False end.

(** Settled firings in a history. *)
Definition settled (ops : list Op) : nat :=
  foldr (λ op n, if op is OpFiringSettles _ _ _ then S n else n) 0%nat ops.

(** Whether [scheduleJob] arms a handle for an enabled job: a cron expression
    that validates with a time zone [cron.schedule] accepts, or a date that
    is ahead or cannot be read. *)
Definition arms (Date_parse : string → option Z) (cron_validate : string → bool)
    (timezone_error : string → option Thrown) (job : CronJob) (clock : Clock) : bool :=
  match schedule_type job with
  | cron =>
      cron_validate (schedule job)
      && (if timezone_error (or_str (timezone job) "Asia/Bangkok") is Some _
          then false else true)
  | once =>
      match Date_parse (schedule job) with
      | Some targetTime => negb (targetTime - now_ms clock <=? 0)
      | None => true
      end
  end.

(** What [scheduleJob] throws for an enabled job, if it throws: only
    [cron.schedule] can, on the time zone of a recurring job whose expression
    validates. *)
Definition throws (cron_validate : string → bool)
    (timezone_error : string → option Thrown) (job : CronJob) : option Thrown :=
  match schedule_type job with
  | cron => if cron_validate (schedule job)
            then timezone_error (or_str (timezone job) "Asia/Bangkok") else None
  | once => None
  end.

(** A firing of [job] has been started between [s] and [s1]: the push is in
    flight and no table has changed yet. *)
Definition started (job : CronJob) (clock : Clock) (s s1 : State) : Prop :=
  cron_jobs s1 = cron_jobs s ∧ cron_runs s1 = cron_runs s
  ∧ firings s1 = firings s ++ [{| f_job := job; f_startedAt := now_iso clock |}].

Definition binary_flags (s : State) : Prop :=
  ∀ k row, cron_jobs s !! k = Some row → enabled row = 0 ∨ enabled row = 1.

(** The three [SELECT COUNT( * )] of [case "status"] and [activeTasks.size]. *)
Definition totalJobs (s : State) : nat := size (cron_jobs s).
Definition activeJobs (s : State) : nat :=
  size (filter (λ kv : string * CronJob, enabled kv.2 = 1) (cron_jobs s)).
Definition erroredJobs (s : State) : nat :=
  size (filter (λ kv : string * CronJob, last_status kv.2 = Some "error") (cron_jobs s)).
Definition scheduledInMemory (s : State) : nat := size (activeTasks s).

End CronTables.

(** ** Concrete scheduler histories *)

Module CronScript.

(** The recurring job of [Scenario.daily_job] fires once and is delivered. *)
Definition one_delivery : list Cron.Op :=
  [Cron.OpCronTick 0 Scenario.later; Cron.OpFiringSettles 0 None Scenario.later].

(** A recurring job is added with a time zone the runtime does not know, and
    woken later. *)
Definition add_on_mars : Json :=
  JObj [("action", JStr "add"); ("name", JStr "daily"); ("schedule", JStr "0 8 * * *");
        ("message", JStr "stand-up"); ("timezone", JStr "Mars/Olympus")].

Definition added_on_mars_then_woken : list Cron.Op :=
  [Cron.OpAdd add_on_mars Scenario.alice "j0000004" Scenario.noon;
   Cron.OpWake (Scenario.job_input "j0000004") Scenario.later].

Definition one_daily_job : list Cron.Op :=
  [Cron.OpAdd (Scenario.add_input "daily" "0 8 * * *" false) Scenario.alice
     "j0000002" Scenario.noon].

Definition daily_row : Cron.CronJob :=
  {| Cron.id := "j0000002"; Cron.name := "daily"; Cron.schedule := "0 8 * * *";
     Cron.schedule_type := Cron.cron; Cron.message := "stand-up";
     Cron.target_user_id := "Ualice"; Cron.timezone := "Asia/Bangkok";
     Cron.enabled := 1; Cron.delete_after_run := 0; Cron.run_count := 0;
     Cron.last_run_at := None; Cron.last_status := None; Cron.last_error := None;
     Cron.created_at := "2026-01-01T05:00:00.000Z" |}.

Definition mars_row : Cron.CronJob :=
  {| Cron.id := "j0000004"; Cron.name := "daily"; Cron.schedule := "0 8 * * *";
     Cron.schedule_type := Cron.cron; Cron.message := "stand-up";
     Cron.target_user_id := "Ualice"; Cron.timezone := "Mars/Olympus";
     Cron.enabled := 1; Cron.delete_after_run := 0; Cron.run_count := 0;
     Cron.last_run_at := None; Cron.last_status := None; Cron.last_error := None;
     Cron.created_at := "2026-01-01T05:00:00.000Z" |}.

(** Both jobs are added; the process then restarts. *)
Definition mars_and_daily : list Cron.Op :=
  [Cron.OpAdd add_on_mars Scenario.alice "j0000004" Scenario.noon;
   Cron.OpAdd (Scenario.add_input "daily" "0 8 * * *" false) Scenario.alice
     "j0000002" Scenario.noon].

(** The daily job fires and its push is in flight. *)
Definition daily_in_flight : list Cron.Op :=
  one_daily_job ++ [Cron.OpCronTick 0 Scenario.later].

(** The daily job is removed while the push of its firing is in flight. *)
Definition removed_in_flight : list Cron.Op :=
  daily_in_flight ++ [Cron.OpRemove (Scenario.job_input "j0000002")].

(** A recurring job flagged [deleteAfterRun] is added, fires, and its push
    succeeds. *)
Definition self_deleting_fires : list Cron.Op :=
  [Cron.OpAdd (Scenario.add_input "once only" "0 8 * * *" true) Scenario.alice
     "j0000003" Scenario.noon;
   Cron.OpCronTick 0 Scenario.later;
   Cron.OpFiringSettles 0 None Scenario.later].

(** A push that fails with a message of 600 characters. *)
Definition long_message : string := foldr String EmptyString (replicate 600 "x"%char).

Definition delivered_row : Cron.CronJob :=
  {| Cron.id := "j0000002"; Cron.name := "daily"; Cron.schedule := "0 8 * * *";
     Cron.schedule_type := Cron.cron; Cron.message := "stand-up";
     Cron.target_user_id := "Ualice"; Cron.timezone := "Asia/Bangkok";
     Cron.enabled := 1; Cron.delete_after_run := 0; Cron.run_count := 1;
     Cron.last_run_at := Some "2026-01-01T05:01:00.000Z";
     Cron.last_status := Some "success"; Cron.last_error := None;
     Cron.created_at := "2026-01-01T05:00:00.000Z" |}.

End CronScript.

(** ** The gateway tool's actions (tools/gateway.ts) *)

Module GatewayTool.

Record LogEntry := { ts : string; level : string; msg : string }.

Record State := {
  env : gmap string string;                   (* process.env *)
  configOverrides : list (string * string);   (* the Map, in insertion order *)
  logBuffer : list LogEntry;
  exit_scheduled : bool;                      (* the [setTimeout] of restart is armed *)
}.

Definition LOG_BUFFER_SIZE : nat := 500.

(** [console.log] and [console.error] as the module replaces them; [m] is the
    text the arguments are joined to.  [logBuffer.shift()] drops the oldest
    entry. *)
Definition console_print (lvl : string) (clock : Clock) (m : string) (s : State) : State :=
  let buf := logBuffer s ++ [{| ts := now_iso clock; level := lvl; msg := m |}] in
  {| env := env s; configOverrides := configOverrides s;
     logBuffer := if (LOG_BUFFER_SIZE <? List.length buf)%nat then tail buf else buf;
     exit_scheduled := exit_scheduled s |}.

Definition console_log : Clock → string → State → State := console_print "info".
Definition console_error : Clock → string → State → State := console_print "error".

(** [Map.prototype.get] and [Map.prototype.set]: a key that is already
    there keeps its place. *)
Fixpoint map_get (k : string) (m : list (string * string)) : option string :=
  match m with
  | [] => None
  | (k', v) :: rest => if String.eqb k' k then Some v else map_get k rest
  end.

Fixpoint map_set (k v : string) (m : list (string * string)) : list (string * string) :=
  match m with
  | [] => [(k, v)]
  | (k', v') :: rest =>
      if String.eqb k' k then (k, v) :: rest else (k', v') :: map_set k v rest
  end.

(** The order in which an object lists its own keys: array indices first, by
    value, then the other keys as they were added. *)
Fixpoint parse_digits (s : string) (acc : N) : option N :=
  match s with
  | EmptyString => Some acc
  | String c rest =>
      let n := N_of_ascii c in
      if ((48 <=? n) && (n <=? 57))%N then parse_digits rest (acc * 10 + (n - 48))%N
      else None
  end.

Definition array_index (s : string) : option N :=
  match s with
  | EmptyString => None
  | String "0"%char EmptyString => Some 0%N
  | String "0"%char _ => None
  | _ => match parse_digits s 0%N with
         | Some n => if (n <? 4294967295)%N then Some n else None
         | None => None
         end
  end.

Fixpoint insert_by_index {A} (x : N * A) (l : list (N * A)) : list (N * A) :=
  match l with
  | [] => [x]
  | y :: rest => if (x.1 <=? y.1)%N then x :: l else y :: insert_by_index x rest
  end.

Definition own_property_order {A} (l : list (string * A)) : list (string * A) :=
  let indexed := omap (λ kv, (λ n, (n, kv)) <$> array_index kv.1) l in
  let named := filter (λ kv, array_index kv.1 = None) l in
  (snd <$> foldr insert_by_index [] indexed) ++ named.

(** [Object.fromEntries(configOverrides)]. *)
Definition overrides_object (s : State) : Json :=
  JObj (own_property_order ((λ kv, (kv.1, JStr kv.2)) <$> configOverrides s)).

Definition SENSITIVE : list string :=
  ["GEMINI_API_KEY"; "ANTHROPIC_API_KEY"; "LINE_CHANNEL_SECRET";
   "LINE_CHANNEL_ACCESS_TOKEN"; "BRAVE_API_KEY"; "PERPLEXITY_API_KEY";
   "XAI_API_KEY"; "OPENROUTER_API_KEY"].

Definition envKeys : list string :=
  ["GEMINI_MODEL"; "OLLAMA_MODEL"; "OLLAMA_BASE_URL"; "DATA_DIR"; "PORT";
   "WEB_SEARCH_PROVIDER"; "GEMINI_TTS_MODEL"; "OWNER_USER_ID"].

Definition BLOCKED : list string := ["LINE_CHANNEL_SECRET"; "LINE_CHANNEL_ACCESS_TOKEN"].

(** [process.env[key]?.trim()]. *)
Definition env_trimmed (s : State) (key : string) : option string := trim <$> env s !! key.

(** The [config] object of [case "config.get"], key by key as the two loops
    assign it. *)
Definition config_members (s : State) : list (string * Json) :=
  omap (λ key,
          if truthy_str (map_get key (configOverrides s))
          then Some (key, JStr (default "" (map_get key (configOverrides s))
                                +:+ " (override)"))
          else if truthy_str (env_trimmed s key)
          then Some (key, JStr (default "" (env_trimmed s key)))
          else None) envKeys
  ++ omap (λ key, if truthy_str (env_trimmed s key)
                  then Some (key, JStr "***set***") else None) SENSITIVE.

Definition config_get (s : State) : Json :=
  JObj [("config", JObj (config_members s)); ("overrides", overrides_object s)].

(** [case "config.set"]. *)
Definition config_set (input : Json) (clock : Clock) (s : State) : string * State :=
  let key := trimmed_string_field input "key" in
  let value := if get input "value" is Some (JStr v) then v else "" in
  if String.eqb key "" then (error_payload "missing_key" "key is required.", s)
  else if includes BLOCKED key then
    (error_payload "blocked" ("Cannot override " +:+ key +:+ " at runtime."), s)
  else
    let s1 := {| env := <[key := value]> (env s);
                 configOverrides := map_set key value (configOverrides s);
                 logBuffer := logBuffer s; exit_scheduled := exit_scheduled s |} in
    (stringify (JObj [("success", JBool true); ("action", JStr "config.set");
                      ("key", JStr key); ("value", JStr value);
                      ("message", JStr ("Runtime config " +:+ dq +:+ key +:+ dq +:+
                         " set. Note: Some changes may require restart to take effect."))]),
     console_log clock ("[gateway] Config override: " +:+ key +:+ " = " +:+ value) s1).

(** [case "restart"], up to the answer; the process exits a second later. *)
Definition restart (input : Json) (clock : Clock) (s : State) : string * State :=
  let reason := if get input "reason" is Some (JStr r) then take_str 200 (trim r)
                else "Requested via gateway tool" in
  let s1 := console_log clock ("[gateway] Restart requested: " +:+ reason) s in
  (stringify (JObj [("success", JBool true); ("action", JStr "restart");
                    ("reason", JStr reason);
                    ("message", JStr "Restarting in 1 second... (process manager will restart the app)")]),
   {| env := env s1; configOverrides := configOverrides s1; logBuffer := logBuffer s1;
      exit_scheduled := true |}).

(** [arr.slice(-n)] for [n >= 1]. *)
Definition slice_last {A} (n : nat) (l : list A) : list A := drop (List.length l - n) l.

(** The number of lines [case "logs"] shows. *)
Definition lines_of (input : Json) : nat :=
  match get input "lines" with
  | Some (JNum n) => Z.to_nat (Z.max 1 (Z.min 500 n))
  | _ => 50%nat
  end.

Definition level_of (input : Json) : string :=
  if get input "level" is Some (JStr l) then trim l else "all".

Definition filtered (lvl : string) (s : State) : list LogEntry :=
  if String.eqb lvl "info" then filter (λ l, level l = "info") (logBuffer s)
  else if String.eqb lvl "error" then filter (λ l, level l = "error") (logBuffer s)
  else logBuffer s.

Definition shown (input : Json) (s : State) : list LogEntry :=
  slice_last (lines_of input) (filtered (level_of input) s).

Definition log_line (l : LogEntry) : string :=
  "[" +:+ ts l +:+ "] [" +:+ level l +:+ "] " +:+ msg l.

(** [case "logs"]. *)
Definition logs (input : Json) (s : State) : Json :=
  JObj [("totalBuffered", JNum (Z.of_nat (List.length (logBuffer s))));
        ("returned", JNum (Z.of_nat (List.length (shown input s))));
        ("level", JStr (level_of input));
        ("logs", JArr ((λ l, JStr (log_line l)) <$> shown input s))].

Section Actions.
(** [case "status"] reads the process (uptime, memory) and the database; it
    changes nothing. *)
Variable status : State → string.

(** The action switch. *)
Definition actions (clock : Clock) (action : string) (input : Json)
    (ctx : option ToolContext) (s : State) : JsResult string * State :=
  if String.eqb action "status" then (Resolved (status s), s)
  else if String.eqb action "config.get" then (Resolved (stringify (config_get s)), s)
  else if String.eqb action "config.set" then
    let '(out, s') := config_set input clock s in (Resolved out, s')
  else if String.eqb action "restart" then
    let '(out, s') := restart input clock s in (Resolved out, s')
  else if String.eqb action "logs" then (Resolved (stringify (logs input s)), s)
  else (Resolved (error_payload "unknown_action"
          ("Unknown action " +:+ dq +:+ action +:+ dq +:+
           ". Available: status, config.get, config.set, restart, logs.")), s).

(** [gatewayTool.execute]: the owner check reads [process.env] at each call. *)
Definition execute (clock : Clock) (input : Json) (ctx : option ToolContext)
    (s : State) : JsResult string * State :=
  Gateway.execute (actions clock) (env s !! "OWNER_USER_ID") input ctx s.

(** A history of calls of the tool. *)
Definition run (calls : list (Clock * Json * option ToolContext)) (s : State) : State :=
  foldl (λ acc c, snd (execute c.1.1 c.1.2 c.2 acc)) s calls.

End Actions.

End GatewayTool.

(** ** A concrete gateway *)

Module GatewayScript.

Definition boot : GatewayTool.State :=
  {| GatewayTool.env := {[ "OWNER_USER_ID" := "Uowner"; "GEMINI_API_KEY" := "key";
                           "LINE_CHANNEL_SECRET" := "s3cret" ]};
     GatewayTool.configOverrides := []; GatewayTool.logBuffer := [];
     GatewayTool.exit_scheduled := false |}.

Definition owner : option ToolContext := Some {| userId := "Uowner" |}.

Definition set_input (key value : string) : Json :=
  JObj [("action", JStr "config.set"); ("key", JStr key); ("value", JStr value)].

Definition status (s : GatewayTool.State) : string := "{}".

Definition two_prints : list (string * Clock * string) :=
  [("info", Scenario.noon, "[cron] Scheduler initialized");
   ("error", Scenario.later, "[cron] Job failed")].

End GatewayScript.

(** ** Replies to LINE (line.ts) *)

Module Line.

(** [s.substring(n)]. *)
Fixpoint drop_str (n : nat) (s : string) : string :=
  match n, s with
  | S n', String _ s' => drop_str n' s'
  | _, _ => s
  end.

(** [s.lastIndexOf(p)] for a non-empty [p]: the scan keeps the last position
    where [p] starts, [-1] when there is none. *)
Fixpoint lastIndexOf_from (p s : string) (i best : Z) : Z :=
  match s with
  | EmptyString => best
  | String _ s' => lastIndexOf_from p s' (i + 1) (if String.prefix p s then i else best)
  end.

Definition lastIndexOf (s p : string) : Z := lastIndexOf_from p s 0 (-1).

(** Whether [/\n(?=\*\*|#{1,3} )/g] matches somewhere: a line break followed
    by [**] or by one to three [#] and a space. *)
Fixpoint has_heading (s : string) : bool :=
  match s with
  | EmptyString => false
  | String c s' =>
      (Ascii.eqb c "010"%char
       && (String.prefix "**" s' || String.prefix "# " s' || String.prefix "## " s'
           || String.prefix "### " s'))
      || has_heading s'
  end.

(** The defaults of [splitReply], the only values it is called with;
    [maxChars * 0.3] is 1500. *)
Definition maxChars : nat := 5000.
Definition maxMessages : nat := 5.

(** Where one pass of the loop cuts.  Every match of the heading pattern is
    the one-character text of a line break, so the position looked up for the
    last match is that of the last line break of the window. *)
Definition cut_point (window : string) : Z :=
  let c0 := if has_heading window then lastIndexOf window nl else -1 in
  let c1 := if c0 <? 1500
            then let doubleNewline := lastIndexOf window (nl +:+ nl) in
                 if 1500 <? doubleNewline then doubleNewline else c0
            else c0 in
  let c2 := if c1 <? 1500
            then let singleNewline := lastIndexOf window nl in
                 if 1500 <? singleNewline then singleNewline else c1
            else c1 in
  if c2 <? 1500 then Z.of_nat maxChars else c2.

(** The [while] loop; [room] is [maxMessages - chunks.length]. *)
Fixpoint split_loop (room : nat) (remaining : string) : list string :=
  match room with
  | O => []
  | S room' =>
      if String.eqb remaining "" then []
      else if (String.length remaining <=? maxChars)%nat then [remaining]
      else
        let cutAt := Z.to_nat (cut_point (take_str maxChars remaining)) in
        trimEnd (take_str cutAt remaining)
        :: split_loop room' (trimStart (drop_str cutAt remaining))
  end.

Definition splitReply (text : string) : list string :=
  if (String.length text <=? maxChars)%nat then [text] else split_loop maxMessages text.

(** The messages of one LINE reply. *)
Inductive Message :=
  | ImageMessage (originalContentUrl : Json)
  | AudioMessage (originalContentUrl duration : Json)
  | TextMessage (text : string).

Section Reply.
(** [stripMarkdown] is a chain of regular-expression replacements. *)
Variable stripMarkdown : string → string.

(** What [handleWebhook] hands to [replyMessage] for a result of [chat]. *)
Definition reply_messages (result : Agent.ChatResult) : list Message :=
  let image :=
    match Agent.cr_imageUrl result with
    | Some url => if truthy (Some url) then [ImageMessage url] else []
    | None => []
    end in
  let audio :=
    match Agent.cr_audio result with
    | Some (url, duration) =>
        if truthy (Some url)
        then [AudioMessage url (if truthy (Some duration) then duration else JNum 5000)]
        else []
    | None => []
    end in
  take 5 (image ++ audio
          ++ (TextMessage <$> splitReply (stripMarkdown (Agent.cr_text result)))).

End Reply.

End Line.

(** ** The subagents tool (tools/subagents.ts) *)

Module Subagents.
Import Spawn.

Definition not_running (target : string) : string :=
  error_payload "not_found"
    ("Task " +:+ dq +:+ target +:+ dq +:+ " not found or not running. Use " +:+
     dq +:+ "list" +:+ dq +:+ " to see tasks.").

(** The loop of [kill] with target "all".  [order] lists the keys of
    [runningTasks] as the Map iterates them (in insertion order) and
    [clock_at] is the clock as [cancelTask] reads it for each task. *)
Definition kill_all (order : list string) (clock_at : string → Clock)
    (ctx : option ToolContext) (s : State) : list string * State :=
  foldl (λ acc taskId,
           match runningTasks acc.2 !! taskId with
           | Some entry =>
               if negb (truthy_str (ctx_userId ctx))
                  || String.eqb (user_id (r_task entry)) (default "" (ctx_userId ctx))
               then (acc.1 ++ [label (r_task entry)],
                     snd (cancelTask taskId (clock_at taskId) acc.2))
               else acc
           | None => acc
           end) ([], s) order.

(** [typeof input.action === "string" ? input.action.trim() : "list"]. *)
Definition action_of (input : Json) : string :=
  if get input "action" is Some (JStr a) then trim a else "list".

Section Actions.
(** [list] and [status] only read: they format rows and clock differences. *)
Variable list_action : Json → State → string.
Variable status_action : Json → State → string.

(** [subagentsTool.execute]; [newId] is the id [steerTask] draws. *)
Definition execute (env : Env) (order : list string) (clock_at : string → Clock)
    (newId : string) (clock : Clock) (input : Json) (ctx : option ToolContext)
    (s : State) : string * State :=
  let action := action_of input in
  if String.eqb action "list" then (list_action input s, s)
  else if String.eqb action "kill" then
    let target := trimmed_string_field input "target" in
    if String.eqb target "" then
      (error_payload "missing_target"
         ("Provide target: task ID or " +:+ dq +:+ "all" +:+ dq +:+ "."), s)
    else if String.eqb target "all" || String.eqb target "*" then
      let '(killedLabels, s') := kill_all order clock_at ctx s in
      (stringify (JObj [("success", JBool true); ("action", JStr "kill");
                        ("target", JStr "all");
                        ("killedCount", JNum (Z.of_nat (List.length killedLabels)));
                        ("killedLabels", JArr (JStr <$> killedLabels))]), s')
    else
      match runningTasks s !! target with
      | None => (not_running target, s)
      | Some entry =>
          (stringify (JObj [("success", JBool true); ("action", JStr "kill");
                            ("killedTask", JObj [("id", JStr target);
                                                 ("label", JStr (label (r_task entry)))])]),
           snd (cancelTask target clock s))
      end
  else if String.eqb action "steer" then
    let target := trimmed_string_field input "target" in
    let message := if get input "message" is Some (JStr m) then take_str 4000 (trim m)
                   else "" in
    if String.eqb target "" then
      (error_payload "missing_target" "Provide target: task ID.", s)
    else if String.eqb message "" then
      (error_payload "missing_message" "Provide message: new instructions for the task.", s)
    else
      match steerTask env target message newId clock s with
      | (Resolved None, s') => (not_running target, s')
      | (Resolved (Some newTaskId), s') =>
          (stringify (JObj [("success", JBool true); ("action", JStr "steer");
                            ("oldTaskId", JStr target); ("newTaskId", JStr newTaskId);
                            ("message", JStr "Task interrupted and restarted with new instructions.")]),
           s')
      | (Rejected err, s') =>
          (stringify (JObj [("error", JStr "action_failed"); ("action", JStr action);
                            ("message", JStr (message_or_string err))]), s')
      end
  else if String.eqb action "status" then (status_action input s, s)
  else
    (error_payload "unknown_action"
       ("Unknown action " +:+ dq +:+ action +:+ dq +:+
        ". Available: list, kill, steer, status."), s).

End Actions.

End Subagents.

(** ** The body of sessions_send (tools/sessions-send.ts) *)

Module SessionsSendBody.

(** A row of [sessions]: session id, role, content, [created_at]. *)
Record SessionRow := {
  session_id : string;
  role : string;
  content : string;
  created_at : Z;
}.

Record State := {
  pushed : list (string * string);   (* LINE pushes delivered: recipient, text *)
  sessions : list SessionRow;
}.

Section Send.
(** What the runtime decides for one call: whether [pushMessage] rejects,
    whether the history insert throws (it is caught), [Date.now()], and the
    length of a string in UTF-16 code units. *)
Variable push_failure : option Thrown.
Variable insert_throws : bool.
Variable now : Z.
Variable js_length : string → Z.

Definition text_of (input : Json) : string :=
  let message := trimmed_string_field input "message" in
  if get input "asBot" is Some (JBool true) then "🤖 MyClaw: " +:+ message else message.

(** Everything after the owner check. *)
Definition send (input : Json) (ctx : option ToolContext) (s : State)
    : JsResult string * State :=
  let targetUserId := trimmed_string_field input "targetUserId" in
  let message := trimmed_string_field input "message" in
  if String.eqb targetUserId "" then
    (Resolved (error_payload "missing_target" "targetUserId is required."), s)
  else if String.eqb message "" then
    (Resolved (error_payload "missing_message" "message is required."), s)
  else
    let text := text_of input in
    match push_failure with
    | Some err =>
        (Resolved (error_payload "send_failed" (message_or_string err)), s)
    | None =>
        let s1 := {| pushed := pushed s ++ [(targetUserId, text)];
                     sessions := sessions s |} in
        let s2 := if insert_throws then s1
                  else {| pushed := pushed s1;
                          sessions := sessions s1
                                      ++ [{| session_id := targetUserId; role := "assistant";
                                             content := text; created_at := now |}] |} in
        (Resolved (stringify (JObj [
           ("success", JBool true); ("action", JStr "sessions_send");
           ("from", JStr (or_str (default "" (ctx_userId ctx)) "system"));
           ("to", JStr targetUserId);
           ("messageLength", JNum (js_length text))])), s2)
    end.

(** [sessionsSendTool.execute]; [env] is [process.env.OWNER_USER_ID]. *)
Definition execute (env : option string) (input : Json) (ctx : option ToolContext)
    (s : State) : JsResult string * State :=
  SessionsSend.execute send env input ctx s.

End Send.

End SessionsSendBody.

(* ================================================================== *)
(** * Properties *)

Import Tools Agent.

(** ** Strings *)

Lemma app_assoc_str (a b c : string) : (a +:+ b) +:+ c = a +:+ (b +:+ c).
Proof.
  induction a as [|ch a IH]; [done|].
  change (String ch ((a +:+ b) +:+ c) = String ch (a +:+ b +:+ c)). by rewrite IH.
Qed.

Lemma app_empty_r (a : string) : a +:+ "" = a.
Proof.
  induction a as [|ch a IH]; [done|].
  change (String ch (a +:+ "") = String ch a). by rewrite IH.
Qed.

Lemma contains_suffix (pre s : string) : contains (pre +:+ s) s.
Proof. exists pre, "". by rewrite app_empty_r. Qed.

Lemma contains_self (s : string) : contains s s.
Proof. exists "", "". simpl. by rewrite app_empty_r. Qed.

Lemma contains_trans (a b c : string) : contains a b → contains b c → contains a c.
Proof.
  intros (p1 & q1 & ->) (p2 & q2 & ->).
  exists (p1 +:+ p2), (q2 +:+ q1). by rewrite !app_assoc_str.
Qed.

Lemma includes_elem_of (l : list string) (x : string) :
  includes l x = true ↔ x ∈ l.
Proof.
  unfold includes. rewrite existsb_exists. split.
  - intros (y & Hin & Heq). apply String.eqb_eq in Heq. subst y.
    by apply list_elem_of_In.
  - intros Hin. exists x. split; [by apply list_elem_of_In | apply String.eqb_refl].
Qed.

Lemma truthy_str_false (o : option string) :
  truthy_str o = false ↔ o = None ∨ o = Some "".
Proof.
  destruct o as [s|]; simpl; [|naive_solver].
  destruct (String.eqb_spec s ""); naive_solver.
Qed.

(** ** Owner check *)

Lemma gateway_isOwner_eq env uid : Gateway.isOwner env uid = SessionsSend.isOwner env uid.
Proof. reflexivity. Qed.

Lemma isOwner_unrestricted env uid :
  env = None ∨ (∃ s, env = Some s ∧ trim s = "") → Gateway.isOwner env uid = true.
Proof. unfold Gateway.isOwner. intros [-> | (s & -> & Hs)]; simpl; [done|]. by rewrite Hs. Qed.

Lemma isOwner_restricted s uid :
  trim s ≠ "" →
  Gateway.isOwner (Some s) uid = true ↔
  ∃ u, uid = Some u ∧ u ≠ "" ∧ u ∈ map trim (split_comma (trim s)).
Proof.
  intros Hs. unfold Gateway.isOwner. simpl.
  destruct (String.eqb_spec (trim s) "") as [|_]; [done|]. simpl.
  destruct uid as [u|]; simpl; [|naive_solver].
  destruct (String.eqb_spec u "") as [->|Hu]; simpl; [naive_solver|].
  rewrite includes_elem_of. naive_solver.
Qed.

(** C10. Owner-only tools ([gateway], [sessions_send]).  When
    [OWNER_USER_ID] is unset or empty (blank once trimmed) the owner check
    passes for every caller; when it is set, a caller passes exactly when its
    user id is one of the (trimmed) items of the comma-separated list; a
    caller that does not pass gets the "forbidden" error payload and the
    guarded action is not run, while for a caller that passes the action is
    run. *)
Theorem owner_only_tools (env : option string) (uid : option string) :
  (env = None ∨ (∃ s, env = Some s ∧ trim s = "") →
     Gateway.isOwner env uid = true ∧ SessionsSend.isOwner env uid = true)
  ∧ (∀ s, env = Some s → trim s ≠ "" →
       let listed := ∃ u, uid = Some u ∧ u ≠ "" ∧ u ∈ map trim (split_comma (trim s)) in
       (Gateway.isOwner env uid = true ↔ listed)
       ∧ (SessionsSend.isOwner env uid = true ↔ listed))
  ∧ (∀ (W : Type) actions send input (ctx : option ToolContext) (w : W),
       ctx_userId ctx = uid →
       (Gateway.isOwner env uid = false →
          Gateway.execute actions env input ctx w =
            (Resolved (error_payload "forbidden" "This tool is restricted to the bot owner."), w))
       ∧ (SessionsSend.isOwner env uid = false →
          SessionsSend.execute send env input ctx w =
            (Resolved (error_payload "forbidden" "sessions_send is restricted to the bot owner."), w))
       ∧ (Gateway.isOwner env uid = true →
          Gateway.execute actions env input ctx w =
            actions (trimmed_string_field input "action") input ctx w)
       ∧ (SessionsSend.isOwner env uid = true →
          SessionsSend.execute send env input ctx w = send input ctx w)).
Proof.
  split; [|split].
  - intros H. split; by apply isOwner_unrestricted.
  - intros s -> Hs. simpl. split; by apply isOwner_restricted.
  - intros W actions send input ctx w <-.
    unfold Gateway.execute, SessionsSend.execute.
    split; [|split; [|split]]; intros H; rewrite H; reflexivity.
Qed.

(** ** Tool invoker *)

Lemma toString_contains_message (e : Thrown) : contains (toString e) (thrown_message e).
Proof.
  destruct e as [n m|s]; simpl; [|apply contains_self].
  destruct (String.eqb_spec n ""); [apply contains_self|].
  destruct (String.eqb_spec m "") as [->|].
  - exists n, "". by rewrite app_empty_r.
  - exists (n +:+ ": "), "". by rewrite app_empty_r, app_assoc_str.
Qed.

Lemma executeTool_resolves {W} (allTools : list (ToolDefinition W)) n input ctx w :
  ∃ s w', Tools.executeTool allTools n input ctx w = (Resolved s, w').
Proof.
  unfold Tools.executeTool. destruct (findTool allTools n) as [tool|]; [|eauto].
  destruct (execute tool input ctx w) as [[s|e] w']; eauto.
Qed.

(** C2 (as amended). [executeTool] always fulfils with a string, whatever
    the handler does: for a name with no registered tool the string is the
    plain text [Error: tool "<name>" not found] and nothing else happens;
    for a registered tool whose handler throws it is the plain text
    [Error executing <name>: <err>], with [<err>] the thrown value as text,
    which contains the handler's error message. *)
Theorem executeTool_never_raises {W} (allTools : list (ToolDefinition W))
    (n : string) (input : Json) (ctx : option ToolContext) (w : W) :
  (∃ s w', Tools.executeTool allTools n input ctx w = (Resolved s, w'))
  ∧ (findTool allTools n = None →
       Tools.executeTool allTools n input ctx w =
         (Resolved ("Error: tool " +:+ dq +:+ n +:+ dq +:+ " not found"), w))
  ∧ (∀ tool e w',
       findTool allTools n = Some tool →
       execute tool input ctx w = (Rejected e, w') →
       ∃ s, Tools.executeTool allTools n input ctx w = (Resolved s, w')
            ∧ s = "Error executing " +:+ n +:+ ": " +:+ toString e
            ∧ contains s (thrown_message e)).
Proof.
  split; [apply executeTool_resolves|]. unfold Tools.executeTool. split.
  - by intros ->.
  - intros tool e w' -> ->. eexists. split; [done|]. split; [done|].
    eapply contains_trans; [|apply toString_contains_message].
    rewrite <- (app_assoc_str "Error executing " n), <- app_assoc_str.
    apply contains_suffix.
Qed.

(** C2, the claim as stated fails: what [executeTool] returns for an unknown
    name and for a handler that throws is a line of plain text, not an
    [{error, message}] payload.  With the registry of [Scenario], the call of
    the unregistered [weather] and the call of [fail], whose handler throws
    [Error("disk unreachable")], return texts that are the serialization of
    no such payload, whatever its kind and message. *)
Lemma invoker_errors_are_plain_text :
  let unknown := fst (Tools.executeTool Scenario.registry "weather" (JObj [])
                        Scenario.alice []) in
  let thrown := fst (Tools.executeTool Scenario.registry "fail" (JObj [])
                       Scenario.alice []) in
  unknown = Resolved ("Error: tool " +:+ dq +:+ "weather" +:+ dq +:+ " not found")
  ∧ thrown = Resolved "Error executing fail: Error: disk unreachable"
  ∧ ∀ kind message, unknown ≠ Resolved (error_payload kind message)
                    ∧ thrown ≠ Resolved (error_payload kind message).
Proof.
  cbv zeta. split; [reflexivity|]. split; [reflexivity|].
  intros kind message. split; intros H; vm_compute in H; discriminate H.
Qed.

(** ** Agent loop: the turn budget *)

Section TurnBudget.
Context {W : Type}.
Variable allTools : list (ToolDefinition W).
Variable JSON_parse : string → option Json.
Variable match_tool_call : string → option (string * string).
Variable Date_now : nat → Z.
Variable gemini_api : nat → GeminiRequest → GeminiReply.
Variable ollama_api : nat → OllamaRequest → OllamaReply.
Variable anthropic_api : nat → AnthropicRequest → AnthropicReply.

Lemma quiet_ret {A} (a : A) : quiet (W:=W) (ret a).
Proof. intros st. by exists a, st. Qed.

Lemma quiet_bind {A B} (m : M (St W) A) (k : A → M (St W) B) :
  quiet m → (∀ a, quiet (k a)) → quiet (W:=W) (bind m k).
Proof.
  intros Hm Hk st. destruct (Hm st) as (a & st1 & E1 & C1).
  destruct (Hk a st1) as (b & st2 & E2 & C2).
  exists b, st2. unfold bind. rewrite E1, E2. split; [done|congruence].
Qed.

Lemma quiet_set_media f : quiet (W:=W) (set_media (W:=W) f).
Proof. intros st. by eexists _, _. Qed.

Lemma quiet_executeTool n args ctx : quiet (W:=W) (Agent.executeTool allTools n args ctx).
Proof.
  intros st. unfold Agent.executeTool.
  destruct (executeTool_resolves allTools n args (Some ctx) (world st)) as (s & w' & ->).
  by eexists _, _.
Qed.

Lemma quiet_checkToolResultForMedia r : quiet (W:=W) (checkToolResultForMedia JSON_parse r).
Proof.
  unfold checkToolResultForMedia.
  destruct (JSON_parse r) as [[]|]; try apply quiet_ret;
    (apply quiet_bind; [|intros _]; case_match;
     auto using quiet_ret, quiet_set_media).
Qed.

Create HintDb quiet.
Local Hint Resolve quiet_ret quiet_set_media quiet_executeTool
  quiet_checkToolResultForMedia : quiet.

Lemma quiet_gemini_run_calls ctx ps :
  quiet (W:=W) (gemini_run_calls allTools JSON_parse ctx ps).
Proof.
  induction ps as [|p ps IH]; simpl; [auto with quiet|].
  destruct (functionCall p); [|done].
  repeat (apply quiet_bind; [auto with quiet|intros ?]). auto with quiet.
Qed.

Lemma quiet_anthropic_run_calls ctx bs :
  quiet (W:=W) (anthropic_run_calls allTools JSON_parse ctx bs).
Proof.
  induction bs as [|b bs IH]; simpl; [auto with quiet|].
  destruct b; try done.
  repeat (apply quiet_bind; [auto with quiet|intros ?]). auto with quiet.
Qed.

Lemma quiet_ollama_run_calls ctx tcs messages :
  Forall (λ tc, is_Some (JSON_parse (tc_arguments tc))) tcs →
  quiet (W:=W) (ollama_run_calls allTools JSON_parse ctx tcs messages).
Proof.
  intros Hall. revert messages.
  induction Hall as [|tc tcs [args Hargs] _ IH]; intros messages; simpl;
    [auto with quiet|].
  rewrite Hargs. repeat (apply quiet_bind; [auto with quiet|intros ?]). apply IH.
Qed.

Lemma filter_has_call_nonempty (parts : list ReplyPart) :
  existsb has_call parts = true →
  (0 <? List.length (filter (λ p, has_call p = true) parts))%nat = true.
Proof.
  induction parts as [|p parts IH]; simpl; [done|].
  rewrite filter_cons. destruct (has_call p) eqn:Hp; simpl; [done|apply IH].
Qed.

Lemma gemini_loop_exhausts maxLoops systemPrompt tools ctx contents st :
  gemini_always_calls gemini_api →
  ∃ st', gemini_loop allTools JSON_parse gemini_api maxLoops systemPrompt tools ctx contents st
           = (Resolved "", st')
         ∧ calls st' = (calls st + maxLoops)%nat.
Proof.
  intros Hadapter. revert contents st.
  induction maxLoops as [|n IH]; intros contents st; simpl.
  - exists st. split; [done|lia].
  - unfold bind at 1. simpl.
    destruct (Hadapter (calls st) {| g_systemInstruction := systemPrompt;
                                     g_contents := contents; g_tools := tools |})
      as (parts & -> & Hcalls).
    rewrite filter_has_call_nonempty by done.
    set (st1 := Build_St _ _ _ _).
    destruct (quiet_gemini_run_calls ctx (filter (λ p, has_call p = true) parts) st1)
      as (rs & st2 & E & C).
    unfold bind at 1. rewrite E.
    edestruct IH as (st3 & -> & C3). exists st3. split; [done|].
    rewrite C3, C. subst st1. simpl. lia.
Qed.

Lemma ollama_loop_exhausts maxLoops tools ctx messages st :
  ollama_always_calls JSON_parse ollama_api →
  ∃ st', ollama_loop allTools JSON_parse match_tool_call Date_now ollama_api
           maxLoops tools ctx messages st = (Resolved "", st')
         ∧ calls st' = (calls st + maxLoops)%nat.
Proof.
  intros Hadapter. revert messages st.
  induction maxLoops as [|n IH]; intros messages st; simpl.
  - exists st. split; [done|lia].
  - unfold bind at 1. simpl.
    destruct (Hadapter (calls st) {| o_messages := messages; o_tools := tools |})
      as (msg & tc & tcs & -> & -> & Hparse).
    set (st1 := Build_St _ _ _ _).
    destruct (quiet_ollama_run_calls ctx (tc :: tcs) (messages ++ [msg]) Hparse st1)
      as (ms & st2 & E & C).
    simpl in E. unfold bind at 1. rewrite E.
    edestruct IH as (st3 & -> & C3). exists st3. split; [done|].
    rewrite C3, C. subst st1. simpl. lia.
Qed.

Lemma anthropic_loop_never_exits fuel systemPrompt ctx history st :
  anthropic_always_calls anthropic_api →
  ∃ st', anthropic_loop allTools JSON_parse anthropic_api fuel systemPrompt ctx history st
           = (Resolved None, st')
         ∧ calls st' = (calls st + fuel)%nat.
Proof.
  intros Hadapter. revert history st.
  induction fuel as [|n IH]; intros history st; simpl.
  - exists st. split; [done|lia].
  - unfold bind at 1. simpl.
    destruct (Hadapter (calls st) {| a_system := systemPrompt;
                                     a_tools := getToolDefinitions allTools;
                                     a_messages := history |})
      as (content & ->). simpl.
    set (st1 := Build_St _ _ _ _).
    destruct (quiet_anthropic_run_calls ctx content st1) as (rs & st2 & E & C).
    unfold bind at 1. rewrite E.
    edestruct IH as (st3 & -> & C3). exists st3. split; [done|].
    rewrite C3, C. subst st1. simpl. lia.
Qed.

(** [chatGemini] under a back end that only ever asks for tools: ten requests,
    then the fallback text. *)
Lemma chatGemini_turn_budget message dbHistory systemPrompt uid media st :
  gemini_always_calls gemini_api →
  ∃ st', chatGemini allTools JSON_parse gemini_api message dbHistory systemPrompt uid media st
           = (Resolved "(no response)", st')
         ∧ calls st' = (calls st + 10)%nat.
Proof.
  intros Hadapter. unfold chatGemini, bind.
  edestruct (gemini_loop_exhausts 10) as (st' & -> & C); [done|].
  by exists st'.
Qed.

Lemma chatOllama_turn_budget message dbHistory systemPrompt uid st :
  ollama_always_calls JSON_parse ollama_api →
  ∃ st', chatOllama allTools JSON_parse match_tool_call Date_now ollama_api
           message dbHistory systemPrompt uid st = (Resolved "(no response)", st')
         ∧ calls st' = (calls st + 10)%nat.
Proof.
  intros Hadapter. unfold chatOllama, bind.
  edestruct (ollama_loop_exhausts 10) as (st' & -> & C); [done|].
  by exists st'.
Qed.

Lemma chatAnthropic_no_budget fuel message dbHistory systemPrompt uid media st :
  anthropic_always_calls anthropic_api →
  ∃ st', chatAnthropic allTools JSON_parse anthropic_api fuel message dbHistory
           systemPrompt uid media st = (Resolved None, st')
         ∧ calls st' = (calls st + fuel)%nat.
Proof.
  intros Hadapter. unfold chatAnthropic, bind.
  edestruct (anthropic_loop_never_exits fuel) as (st' & -> & C); [done|].
  by exists st'.
Qed.

End TurnBudget.

(** C1. The turn budget under each back end.  With a back end that asks for a
    tool on every turn and never gives final text, [chatGemini] and
    [chatOllama] send exactly 10 requests and fulfil with the fallback text
    ["(no response)"]; [chatAnthropic] has no budget: however many turns it is
    given it has sent that many requests and is still looping, so it never
    returns. *)
Theorem turn_budget_by_provider {W} (allTools : list (ToolDefinition W))
    JSON_parse match_tool_call Date_now gemini_api ollama_api anthropic_api
    message dbHistory systemPrompt uid media (st : St W) :
  (gemini_always_calls gemini_api →
     ∃ st', chatGemini allTools JSON_parse gemini_api message dbHistory systemPrompt
              uid media st = (Resolved "(no response)", st')
            ∧ calls st' = (calls st + 10)%nat)
  ∧ (ollama_always_calls JSON_parse ollama_api →
     ∃ st', chatOllama allTools JSON_parse match_tool_call Date_now ollama_api
              message dbHistory systemPrompt uid st = (Resolved "(no response)", st')
            ∧ calls st' = (calls st + 10)%nat)
  ∧ (anthropic_always_calls anthropic_api →
     ∀ fuel, ∃ st', chatAnthropic allTools JSON_parse anthropic_api fuel message
                      dbHistory systemPrompt uid media st = (Resolved None, st')
                    ∧ calls st' = (calls st + fuel)%nat).
Proof.
  split; [|split].
  - apply chatGemini_turn_budget.
  - apply chatOllama_turn_budget.
  - intros H fuel. by apply chatAnthropic_no_budget.
Qed.

(** ** Cross-provider fallback *)

(** C4 (as amended). When [chatGemini] fails and [OLLAMA_MODEL] is set, the
    turn is retried on Ollama whether or not it carries media; the retry is
    [chatOllama] on the text of the turn, started from the state the failed
    attempt left, and the media is not passed on.  Without [OLLAMA_MODEL] the
    failure is rethrown. *)
Theorem gemini_failure_falls_back_to_ollama {W} (allTools : list (ToolDefinition W))
    JSON_parse match_tool_call Date_now gemini_api ollama_api anthropic_api
    fuel env message dbHistory systemPrompt uid media (st st1 : St W) err :
  AI_PROVIDER env = gemini →
  chatGemini allTools JSON_parse gemini_api message dbHistory systemPrompt uid media st
    = (Rejected err, st1) →
  dispatch allTools JSON_parse match_tool_call Date_now gemini_api ollama_api
    anthropic_api fuel env message dbHistory systemPrompt uid media st
  = if env_set (OLLAMA_MODEL env)
    then (await r := chatOllama allTools JSON_parse match_tool_call Date_now ollama_api
                       message dbHistory systemPrompt uid in ret (Some r)) st1
    else (Rejected err, st1).
Proof.
  intros Hp Hfail. unfold dispatch. rewrite Hp.
  unfold try_catch, bind at 1. rewrite Hfail.
  by destruct (env_set (OLLAMA_MODEL env)).
Qed.

(** ** Examples for the agent loop and the tool invoker *)

Lemma owner_only_tools_witness :
  Gateway.isOwner None (Some "Ubob") = true
  ∧ Gateway.isOwner (Some "Ualice, Ucarol") (Some "Ucarol") = true
  ∧ SessionsSend.execute (W:=list string) (λ _ _ w, (Resolved "sent", w ++ ["push"]))
      (Some "Ualice, Ucarol") (JObj []) (Some {| userId := "Ubob" |}) []
    = (Resolved (error_payload "forbidden" "sessions_send is restricted to the bot owner."), []).
Proof.
  pose proof (owner_only_tools None (Some "Ubob")) as (H1 & _ & _).
  pose proof (owner_only_tools (Some "Ualice, Ucarol") (Some "Ucarol")) as (_ & H2 & _).
  pose proof (owner_only_tools (Some "Ualice, Ucarol") (Some "Ubob")) as (_ & _ & H3).
  split; [|split].
  - apply H1. by left.
  - apply (H2 "Ualice, Ucarol"); [reflexivity | vm_compute; discriminate |].
    exists "Ucarol". split; [reflexivity|]. split; [discriminate|].
    vm_compute. apply list_elem_of_In. right. by left.
  - apply (H3 (list string) (λ _ _ _ w, (Resolved "", w))); reflexivity.
Defined.

Lemma executeTool_never_raises_witness :
  Tools.executeTool Scenario.registry "weather" (JObj []) Scenario.alice []
    = (Resolved ("Error: tool " +:+ dq +:+ "weather" +:+ dq +:+ " not found"), [])
  ∧ ∃ s, Tools.executeTool Scenario.registry "fail" (JObj []) Scenario.alice []
           = (Resolved s, ["fail"])
         ∧ s = "Error executing fail: Error: disk unreachable"
         ∧ contains s "disk unreachable".
Proof.
  split.
  - apply (executeTool_never_raises Scenario.registry "weather"). reflexivity.
  - apply (proj2 (proj2 (executeTool_never_raises Scenario.registry "fail" (JObj [])
                           Scenario.alice [])) Scenario.failing_tool
             (Error "disk unreachable") ["fail"]); reflexivity.
Defined.

Lemma gemini_tool_forever_always_calls : gemini_always_calls Scenario.gemini_tool_forever.
Proof. intros k req. eexists. split; reflexivity. Qed.

Lemma ollama_tool_forever_always_calls :
  ollama_always_calls Scenario.JSON_parse Scenario.ollama_tool_forever.
Proof.
  intros k req. eexists _, _, _. split; [reflexivity|]. split; [reflexivity|].
  repeat constructor. by eexists.
Qed.

Lemma anthropic_tool_forever_always_calls :
  anthropic_always_calls Scenario.anthropic_tool_forever.
Proof. intros k req. by eexists. Qed.

Lemma turn_budget_by_provider_witness :
  (∃ st', chatGemini Scenario.registry Scenario.JSON_parse Scenario.gemini_tool_forever
            "hello" [] SYSTEM_PROMPT "Ualice" None Scenario.fresh_exchange
            = (Resolved "(no response)", st') ∧ calls st' = 10%nat)
  ∧ (∃ st', chatOllama Scenario.registry Scenario.JSON_parse Scenario.match_tool_call
              Scenario.Date_now Scenario.ollama_tool_forever
              "hello" [] SYSTEM_PROMPT "Ualice" Scenario.fresh_exchange
              = (Resolved "(no response)", st') ∧ calls st' = 10%nat)
  ∧ (∃ st', chatAnthropic Scenario.registry Scenario.JSON_parse
              Scenario.anthropic_tool_forever 11 "hello" [] SYSTEM_PROMPT "Ualice" None
              Scenario.fresh_exchange = (Resolved None, st') ∧ calls st' = 11%nat).
Proof.
  pose proof (turn_budget_by_provider Scenario.registry Scenario.JSON_parse
                Scenario.match_tool_call Scenario.Date_now Scenario.gemini_tool_forever
                Scenario.ollama_tool_forever Scenario.anthropic_tool_forever
                "hello" [] SYSTEM_PROMPT "Ualice" None Scenario.fresh_exchange)
    as (Hg & Ho & Ha).
  split; [|split].
  - apply Hg, gemini_tool_forever_always_calls.
  - apply Ho, ollama_tool_forever_always_calls.
  - apply (Ha anthropic_tool_forever_always_calls 11%nat).
Defined.

(** C4, the claim as stated fails: a turn that carries a photo, Gemini out of
    quota, [OLLAMA_MODEL] set.  The Gemini attempt throws, and the reply comes
    from Ollama, which got the second request of the exchange. *)
Lemma fallback_happens_with_media :
  ∃ st1 st2,
    chatGemini Scenario.registry Scenario.JSON_parse Scenario.gemini_down
      "what is this?" [] SYSTEM_PROMPT "Ualice" (Some Scenario.photo) Scenario.fresh_exchange
      = (Rejected (Error "Gemini API error: 429 RESOURCE_EXHAUSTED"), st1)
    ∧ dispatch Scenario.registry Scenario.JSON_parse Scenario.match_tool_call
        Scenario.Date_now Scenario.gemini_down Scenario.ollama_pong
        Scenario.anthropic_tool_forever 0 Scenario.gemini_and_ollama
        "what is this?" [] SYSTEM_PROMPT "Ualice" (Some Scenario.photo)
        Scenario.fresh_exchange
      = (Resolved (Some "pong"), st2)
    ∧ calls st1 = 1%nat ∧ calls st2 = 2%nat.
Proof. eexists _, _. split; [|split; [|split]]; vm_compute; reflexivity. Qed.

Lemma gemini_failure_falls_back_to_ollama_witness :
  ∃ st1,
    dispatch Scenario.registry Scenario.JSON_parse Scenario.match_tool_call
      Scenario.Date_now Scenario.gemini_down Scenario.ollama_pong
      Scenario.anthropic_tool_forever 0 Scenario.gemini_and_ollama
      "what is this?" [] SYSTEM_PROMPT "Ualice" (Some Scenario.photo)
      Scenario.fresh_exchange
    = (await r := chatOllama Scenario.registry Scenario.JSON_parse Scenario.match_tool_call
                    Scenario.Date_now Scenario.ollama_pong
                    "what is this?" [] SYSTEM_PROMPT "Ualice" in ret (Some r)) st1.
Proof.
  eexists.
  apply (gemini_failure_falls_back_to_ollama Scenario.registry Scenario.JSON_parse
           Scenario.match_tool_call Scenario.Date_now Scenario.gemini_down
           Scenario.ollama_pong Scenario.anthropic_tool_forever 0
           Scenario.gemini_and_ollama "what is this?" [] SYSTEM_PROMPT "Ualice"
           (Some Scenario.photo) Scenario.fresh_exchange _
           (Error "Gemini API error: 429 RESOURCE_EXHAUSTED")).
  - reflexivity.
  - vm_compute. reflexivity.
Defined.

(** ** Background tasks *)

Import Spawn.

(** C5 (as amended). An owner with (at least) 5 entries in [runningTasks],
    the registry the current process keeps in memory, who spawns again gets
    an error payload and the state, table included, is left as it was; for
    a well-formed call (a task text and a caller id) the payload is the
    capacity error. *)
Theorem spawn_rejected_at_capacity (env : Env) (input : Json) (ctx : option ToolContext)
    (newId : string) (clock : Clock) (s : State) (uid : string) :
  ctx_userId ctx = Some uid →
  (5 ≤ userRunning uid s)%nat →
  (∃ kind msg, execute env input ctx newId clock s = (Resolved (error_payload kind msg), s))
  ∧ (trimmed_string_field input "task" ≠ "" → uid ≠ "" →
     execute env input ctx newId clock s =
       (Resolved (error_payload "limit_exceeded"
          "Maximum 5 concurrent tasks per user. Use subagents tool to manage existing tasks."),
        s)).
Proof.
  intros Hctx Hfull.
  assert ((MAX_CHILDREN <=? userRunning uid s)%nat = true) as Hle
    by (apply Nat.leb_le; exact Hfull).
  unfold execute. rewrite Hctx.
  change (default "" (Some uid)) with uid. rewrite Hle. unfold truthy_str.
  split.
  - destruct (String.eqb_spec (trimmed_string_field input "task") ""); [by eexists _, _|].
    destruct (String.eqb_spec uid ""); by eexists _, _.
  - intros Htask Huid.
    destruct (String.eqb_spec (trimmed_string_field input "task") ""); [done|].
    destruct (String.eqb_spec uid ""); [done|]. reflexivity.
Qed.

Lemma spawn_rejected_at_capacity_witness :
  execute Scenario.spawn_env (Scenario.spawn_input "one more") Scenario.alice
    "t0000006" Scenario.later Scenario.five_tasks
  = (Resolved (error_payload "limit_exceeded"
       "Maximum 5 concurrent tasks per user. Use subagents tool to manage existing tasks."),
     Scenario.five_tasks).
Proof.
  apply (spawn_rejected_at_capacity Scenario.spawn_env (Scenario.spawn_input "one more")
           Scenario.alice "t0000006" Scenario.later Scenario.five_tasks "Ualice").
  - reflexivity.
  - vm_compute. lia.
  - vm_compute. discriminate.
  - discriminate.
Defined.

(** C5, the claim as stated fails: the limit counts the entries of
    [runningTasks], not the rows in status "running".  Alice spawns five
    tasks, each one times out and its aborted model call rejects: the five
    rows are still "running" and no entry is left (so also after a restart
    of the process, which finds the rows and an empty registry).  A sixth
    spawn is accepted and persists a sixth "running" row.  And with five
    entries in the registry, a call without a task text is answered with
    [missing_task], not with the capacity error. *)
Lemma five_running_rows_allow_a_sixth :
  let five_running (s : State) :=
    Forall (λ k, ∃ row, background_tasks s !! k = Some row
                        ∧ status row = running ∧ user_id row = "Ualice")
      TaskScript.five_ids in
  let sixth (s : State) :=
    execute Scenario.spawn_env (Scenario.spawn_input "one more") Scenario.alice
      "t0000006" Scenario.later s in
  let accepted (s : State) :=
    fst (sixth s)
    = Resolved (stringify (JObj [
        ("status", JStr "accepted"); ("taskId", JStr "t0000006");
        ("label", JStr "one more"); ("model", JStr "gemini-2.0-flash");
        ("provider", JStr "gemini"); ("timeoutSeconds", JNum 120);
        ("message", JStr "Task started in background. Result will be sent to you automatically when complete.")]))
    ∧ ∃ row, background_tasks (snd (sixth s)) !! "t0000006" = Some row
             ∧ status row = running ∧ user_id row = "Ualice" in
  (five_running TaskScript.five_timed_out
   ∧ userRunning "Ualice" TaskScript.five_timed_out = 0%nat
   ∧ accepted TaskScript.five_timed_out)
  ∧ (five_running (Tasks.restart Scenario.five_tasks)
     ∧ userRunning "Ualice" (Tasks.restart Scenario.five_tasks) = 0%nat
     ∧ accepted (Tasks.restart Scenario.five_tasks))
  ∧ (userRunning "Ualice" Scenario.five_tasks = 5%nat
     ∧ execute Scenario.spawn_env (JObj []) Scenario.alice "t0000006" Scenario.later
         Scenario.five_tasks
       = (Resolved (error_payload "missing_task" "task is required."),
          Scenario.five_tasks)).
Proof.
  cbv zeta. split; [|split]; [| |split; vm_compute; reflexivity];
    (split; [|split; [|split]]).
  1,5: repeat constructor; vm_compute; by eexists.
  1,4: vm_compute; reflexivity.
  1,3: vm_compute; reflexivity.
  all: vm_compute; by eexists.
Qed.

Lemma combined_task_contains original newMessage :
  contains (combined_task original newMessage) original
  ∧ contains (combined_task original newMessage) newMessage.
Proof.
  unfold combined_task. split.
  - by eexists "Original task: ", _.
  - exists ("Original task: " +:+ original +:+ nl +:+ nl +:+
            "--- UPDATED INSTRUCTIONS ---" +:+ nl), "".
    by rewrite app_empty_r, !app_assoc_str.
Qed.

(** C6 (as amended). Steering a task that has an entry in [runningTasks]
    and its row, with an AI provider configured and a random id that is not
    yet a key of the table: the original row becomes [cancelled] and its
    handle is gone;
    a new row with another id is inserted whose instructions are the original
    instructions and the new ones under the labels "Original task:" and
    "--- UPDATED INSTRUCTIONS ---"; the new row is [running] and has a
    handle. *)
Theorem steer_restarts_with_context (env : Env) (taskId newMessage newId : string)
    (clock : Clock) (s : State) (entry : Running) (row : BackgroundTask) :
  runningTasks s !! taskId = Some entry →
  background_tasks s !! taskId = Some row →
  background_tasks s !! newId = None →
  fst (getActiveProvider env) ≠ "none" →
  ∃ s', steerTask env taskId newMessage newId clock s = (Resolved (Some newId), s')
    ∧ newId ≠ taskId
    ∧ (∃ old, background_tasks s' !! taskId = Some old ∧ status old = cancelled)
    ∧ runningTasks s' !! taskId = None
    ∧ (∃ new, background_tasks s' !! newId = Some new
         ∧ status new = running
         ∧ task new = "Original task: " +:+ task (r_task entry) +:+ nl +:+ nl +:+
                      "--- UPDATED INSTRUCTIONS ---" +:+ nl +:+ newMessage
         ∧ contains (task new) (task (r_task entry))
         ∧ contains (task new) newMessage
         ∧ ∃ handle, runningTasks s' !! newId = Some handle ∧ r_task handle = new).
Proof.
  intros Hrun Hrow Hfresh Hprov.
  assert (newId ≠ taskId) as Hne by congruence.
  unfold steerTask. rewrite Hrun. unfold insert_row. simpl.
  rewrite lookup_alter_ne by done. rewrite Hfresh.
  unfold executeBackgroundTask. simpl.
  rewrite bool_decide_eq_false_2 by set_solver.
  destruct (String.eqb_spec (getActiveProvider env).1 "none") as [|_]; [done|].
  eexists. split; [reflexivity|]. split; [done|]. simpl.
  split; [|split; [|]].
  - rewrite lookup_insert_ne by done. rewrite lookup_alter_eq, Hrow. by eexists.
  - rewrite lookup_insert_ne by done. by rewrite lookup_delete_eq.
  - rewrite !lookup_insert_eq. eexists. split; [reflexivity|]. simpl.
    split; [done|]. split; [done|].
    split; [apply combined_task_contains|]. split; [apply combined_task_contains|].
    by eexists.
Qed.

(** C6, the claim as stated fails in three ways.  A task whose row is
    "running" but which has no entry in [runningTasks] (here after its
    timeout) is not steered: [steerTask] returns null and nothing changes.
    With no AI provider configured the new row is already "failed" when
    [steerTask] returns.  When the random id is already a key of the table
    (here it is the id of the steered task itself, so not distinct) the
    INSERT throws after the original was cancelled, and no new task
    exists. *)
Lemma steer_without_entry_provider_or_fresh_id :
  ((∃ row, background_tasks Scenario.timed_out !! "a1b2c3d4" = Some row
           ∧ status row = running)
   ∧ steerTask Scenario.spawn_env "a1b2c3d4" "only the first chapter" "e5f6a7b8"
       Scenario.later Scenario.timed_out = (Resolved None, Scenario.timed_out))
  ∧ (∃ s', steerTask TaskScript.no_provider "a1b2c3d4" "only the first chapter"
             "e5f6a7b8" Scenario.later Scenario.one_task = (Resolved (Some "e5f6a7b8"), s')
           ∧ ∃ new, background_tasks s' !! "e5f6a7b8" = Some new
                    ∧ status new = failed
                    ∧ result new = Some "Error: No AI provider configured")
  ∧ (∃ s', steerTask Scenario.spawn_env "a1b2c3d4" "only the first chapter" "a1b2c3d4"
             Scenario.later Scenario.one_task = (Rejected PK_ERROR, s')
           ∧ (∃ old, background_tasks s' !! "a1b2c3d4" = Some old
                     ∧ status old = cancelled)
           ∧ runningTasks s' = ∅
           ∧ size (background_tasks s') = 1%nat).
Proof.
  split; [split; [vm_compute; by eexists | vm_compute; reflexivity]|].
  split.
  - eexists. split; [vm_compute; reflexivity|]. vm_compute. by eexists.
  - eexists. split; [vm_compute; reflexivity|]. vm_compute.
    split; [by eexists | done].
Qed.

Lemma steer_restarts_with_context_witness :
  ∃ s', steerTask Scenario.spawn_env "a1b2c3d4" "only the first chapter" "e5f6a7b8"
          Scenario.later Scenario.one_task = (Resolved (Some "e5f6a7b8"), s')
    ∧ (∃ old, background_tasks s' !! "a1b2c3d4" = Some old ∧ status old = cancelled)
    ∧ (∃ new, background_tasks s' !! "e5f6a7b8" = Some new ∧ status new = running).
Proof.
  destruct (steer_restarts_with_context Scenario.spawn_env "a1b2c3d4"
              "only the first chapter" "e5f6a7b8" Scenario.later Scenario.one_task
              {| r_task := {| id := "a1b2c3d4"; label := "summarise the report";
                              task := "summarise the report"; status := running;
                              result := None; model := None; user_id := "Ualice";
                              created_at := "2026-01-01T05:00:00.000Z";
                              completed_at := None |};
                 abortController := 0; startedAt := 1767243600000 |}
              {| id := "a1b2c3d4"; label := "summarise the report";
                 task := "summarise the report"; status := running;
                 result := None; model := None; user_id := "Ualice";
                 created_at := "2026-01-01T05:00:00.000Z"; completed_at := None |})
    as (s' & E & _ & Hold & _ & (new & Hnew & Hst & _)).
  - vm_compute. reflexivity.
  - vm_compute. reflexivity.
  - vm_compute. reflexivity.
  - vm_compute. discriminate.
  - exists s'. split; [exact E|]. split; [exact Hold|]. by exists new.
Defined.

(** C3, where the code departs from the claim: a task is spawned, its timeout
    fires and the aborted model call rejects.  The body leaves through the
    [signal.aborted] branch of its [catch], which writes nothing, and
    [finally] drops the handle: the row stays [running] with no handle, no
    body and no timer left to ever change it.  An explicit [cancelTask] on the
    same task does write [cancelled]. *)
Theorem timeout_leaves_row_running :
  (∃ row, background_tasks Scenario.one_task !! "a1b2c3d4" = Some row
          ∧ status row = running)
  ∧ is_Some (runningTasks Scenario.one_task !! "a1b2c3d4")
  ∧ (∃ row, background_tasks Scenario.timed_out !! "a1b2c3d4" = Some row
            ∧ status row = running ∧ completed_at row = None)
  ∧ runningTasks Scenario.timed_out !! "a1b2c3d4" = None
  ∧ bodies Scenario.timed_out = []
  ∧ timeouts Scenario.timed_out = ∅
  ∧ (let s := snd (cancelTask "a1b2c3d4" Scenario.later Scenario.one_task) in
     (∃ row, background_tasks s !! "a1b2c3d4" = Some row ∧ status row = cancelled)
     ∧ runningTasks s !! "a1b2c3d4" = None).
Proof.
  repeat split; try (vm_compute; eexists; split; [reflexivity|done]);
    try (vm_compute; reflexivity); vm_compute; by eexists.
Qed.

(** ** Scheduled jobs: the handle invariant *)

Import Cron.

(** [consistent] only reads the job table and the handles. *)
Lemma consistent_same_core (s s' : Cron.State) :
  cron_jobs s' = cron_jobs s → activeTasks s' = activeTasks s →
  timers s' = timers s → next_timer s' = next_timer s →
  consistent s → consistent s'.
Proof.
  intros Ej Ea Et En [H1 H2 H3 H4 H5].
  constructor; rewrite ?Ej, ?Ea, ?Et, ?En; assumption.
Qed.

Lemma empty_consistent : consistent Cron.empty.
Proof. constructor; simpl; intros *; by rewrite lookup_empty. Qed.

Lemma with_jobs_id (s : Cron.State) : with_jobs (λ m, m) s = s.
Proof. by destruct s. Qed.

Lemma stop_handle_with_jobs j f (s : Cron.State) :
  stop_handle j (with_jobs f s) = with_jobs f (stop_handle j s).
Proof. unfold stop_handle. simpl. by destruct (activeTasks s !! j). Qed.

Lemma stop_handle_lookup j (s : Cron.State) : activeTasks (stop_handle j s) !! j = None.
Proof.
  unfold stop_handle. destruct (activeTasks s !! j) eqn:E; simpl; [|done].
  apply lookup_delete_eq.
Qed.

Lemma stop_handle_jobs j (s : Cron.State) : cron_jobs (stop_handle j s) = cron_jobs s.
Proof. unfold stop_handle. by destruct (activeTasks s !! j). Qed.

Lemma stop_handle_runs j (s : Cron.State) : cron_runs (stop_handle j s) = cron_runs s.
Proof. unfold stop_handle. by destruct (activeTasks s !! j). Qed.

Lemma stop_handle_firings j (s : Cron.State) : firings (stop_handle j s) = firings s.
Proof. unfold stop_handle. by destruct (activeTasks s !! j). Qed.

Lemma stop_handle_consistent j (s : Cron.State) :
  consistent s → consistent (stop_handle j s).
Proof.
  intros [H1 H2 H3 H4 H5]. unfold stop_handle.
  destruct (activeTasks s !! j) as [t|] eqn:E; [|by constructor].
  constructor; simpl.
  - intros j' t' Hl. apply lookup_delete_Some in Hl as [Hne Hl].
    destruct (H1 _ _ Hl) as (tm & Htm & Hid). exists tm. split; [|done].
    rewrite lookup_delete_ne; [done|]. intros ->.
    destruct (H1 _ _ E) as (tm0 & Htm0 & Hid0). congruence.
  - intros j' t' Hl. apply lookup_delete_Some in Hl as [Hne Hl]. eauto.
  - intros t' tm Hl. apply lookup_delete_Some in Hl as [Hne Hl].
    rewrite lookup_delete_ne; [by apply H3|]. intros Hj.
    apply H3 in Hl. rewrite <- Hj in Hl. congruence.
  - intros t' tm Hl. apply lookup_delete_Some in Hl as [Hne Hl]. eauto.
  - done.
Qed.

Lemma arm_consistent kind job (s : Cron.State) :
  consistent s → activeTasks s !! id job = None →
  (∃ row, cron_jobs s !! id job = Some row ∧ enabled row ≠ 0) →
  consistent (arm kind job s).
Proof.
  intros [H1 H2 H3 H4 H5] Hnone Hrow. constructor; simpl.
  - intros j t Hl. apply lookup_insert_Some in Hl as [[<- <-]|[Hne Hl]].
    + eexists. by rewrite lookup_insert_eq.
    + destruct (H1 _ _ Hl) as (tm & Htm & Hid). exists tm. split; [|done].
      rewrite lookup_insert_ne; [done|]. apply H4 in Htm. lia.
  - intros j t Hl. apply lookup_insert_Some in Hl as [[<- <-]|[Hne Hl]]; eauto.
  - intros t tm Hl. apply lookup_insert_Some in Hl as [[<- <-]|[Hne Hl]]; simpl.
    + apply lookup_insert_eq.
    + rewrite lookup_insert_ne; [by apply H3|]. intros Hj.
      apply H3 in Hl. congruence.
  - intros t tm Hl. apply lookup_insert_Some in Hl as [[<- <-]|[Hne Hl]]; [lia|].
    apply H4 in Hl. lia.
  - done.
Qed.

(** Rows may change as long as they stay under their key and every job
    holding a handle keeps an enabled row. *)
Lemma consistent_with_jobs f (s : Cron.State) :
  consistent s →
  (∀ j t, activeTasks s !! j = Some t →
     ∃ row, f (cron_jobs s) !! j = Some row ∧ enabled row ≠ 0) →
  (∀ k row, f (cron_jobs s) !! k = Some row → id row = k) →
  consistent (with_jobs f s).
Proof. intros [H1 H2 H3 H4 H5] Hf Hk. by constructor. Qed.

Lemma touches_only_keyed j f m :
  touches_only j f m → (∀ k row, m !! k = Some row → id row = k) →
  ∀ k row, f m !! k = Some row → id row = k.
Proof.
  intros [Hother Hj] Hm k row Hl. destruct (decide (k = j)) as [->|Hne]; [auto|].
  rewrite Hother in Hl by done. eauto.
Qed.

Lemma touches_only_alter j g m :
  (∀ row, id (g row) = id row) → (∀ k row, m !! k = Some row → id row = k) →
  touches_only j (alter g j) m.
Proof.
  intros Hg Hm. split.
  - intros j' Hne. by rewrite lookup_alter_ne.
  - intros row. rewrite lookup_alter_eq. destruct (m !! j) as [r|] eqn:E; [|done].
    simpl. intros [= <-]. rewrite Hg. eauto.
Qed.

Lemma touches_only_delete j (m : gmap string CronJob) : touches_only j (delete j) m.
Proof.
  split.
  - intros j' Hne. by rewrite lookup_delete_ne.
  - intros row. by rewrite lookup_delete_eq.
Qed.

Lemma touches_only_insert job (m : gmap string CronJob) :
  touches_only (id job) (<[id job := job]>) m.
Proof.
  split.
  - intros j' Hne. by rewrite lookup_insert_ne.
  - intros row. rewrite lookup_insert_eq. by intros [= <-].
Qed.

Lemma touches_only_same j (m : gmap string CronJob) :
  (∀ k row, m !! k = Some row → id row = k) → touches_only j (λ m, m) m.
Proof. intros Hm. split; eauto. Qed.

(** Once the handle of job [j] is stopped its row can be rewritten at will. *)
Lemma retire_consistent j f (s : Cron.State) :
  consistent s → touches_only j f (cron_jobs s) →
  consistent (stop_handle j (with_jobs f s)).
Proof.
  intros Hs Hf. rewrite stop_handle_with_jobs.
  apply consistent_with_jobs; [by apply stop_handle_consistent| |].
  - intros j' t Hl. assert (j' ≠ j) as Hne.
    { intros ->. by rewrite stop_handle_lookup in Hl. }
    rewrite stop_handle_jobs. rewrite (proj1 Hf) by done.
    rewrite <- (stop_handle_jobs j s).
    apply (handle_enabled _ (stop_handle_consistent j s Hs) _ _ Hl).
  - rewrite stop_handle_jobs. eapply touches_only_keyed; [done|]. apply Hs.
Qed.

Section Invariant.
Variable Date_parse : string → option Z.
Variable cron_validate : string → bool.
Variable timezone_error : string → option Thrown.
Variable foreign_keys : bool.

Lemma scheduleJob_cases job clock (s : Cron.State) :
  snd (scheduleJob Date_parse cron_validate timezone_error job clock s) = stop_handle (id job) s
  ∨ (enabled job ≠ 0 ∧ ∃ kind,
       snd (scheduleJob Date_parse cron_validate timezone_error job clock s)
       = arm kind job (stop_handle (id job) s)).
Proof.
  unfold scheduleJob, truthyZ.
  destruct (Z.eqb_spec (enabled job) 0) as [|Hen]; simpl; [by left|].
  destruct (schedule_type job).
  - destruct (cron_validate (schedule job)); simpl; [|by left].
    destruct (timezone_error _); [by left | right; eauto].
  - destruct (Date_parse (schedule job)) as [d|]; [|right; eauto].
    destruct (d - now_ms clock <=? 0); [by left|right; eauto].
Qed.

(** Rewriting the row of a job and then calling [scheduleJob] on it, as
    [add], [update] and [wake] do. *)
Lemma reschedule_consistent job clock f (s : Cron.State) :
  consistent s → touches_only (id job) f (cron_jobs s) →
  (enabled job ≠ 0 → ∃ row, f (cron_jobs s) !! id job = Some row ∧ enabled row ≠ 0) →
  consistent (snd (scheduleJob Date_parse cron_validate timezone_error job clock (with_jobs f s))).
Proof.
  intros Hs Hf Hrow.
  pose proof (retire_consistent (id job) f s Hs Hf) as Hretired.
  destruct (scheduleJob_cases job clock (with_jobs f s)) as [->|(Hen & kind & ->)];
    [done|].
  apply arm_consistent; [done|apply stop_handle_lookup|].
  rewrite stop_handle_jobs. simpl. auto.
Qed.

Lemma scheduleJob_consistent job clock (s : Cron.State) :
  consistent s →
  (enabled job ≠ 0 → ∃ row, cron_jobs s !! id job = Some row ∧ enabled row ≠ 0) →
  consistent (snd (scheduleJob Date_parse cron_validate timezone_error job clock s)).
Proof.
  intros Hs Hrow. rewrite <- (with_jobs_id s) at 1.
  apply (reschedule_consistent job clock (λ m, m)); [done| |done].
  apply touches_only_same, Hs.
Qed.

Lemma scheduleJob_jobs job clock (s : Cron.State) :
  cron_jobs (snd (scheduleJob Date_parse cron_validate timezone_error job clock s)) = cron_jobs s.
Proof.
  destruct (scheduleJob_cases job clock s) as [->|(_ & kind & ->)]; simpl;
    apply stop_handle_jobs.
Qed.

Lemma initCronJobs_consistent clock (s : Cron.State) :
  consistent s →
  consistent (snd (initCronJobs Date_parse cron_validate timezone_error clock s)).
Proof.
  unfold initCronJobs.
  assert (∀ l acc, consistent acc → cron_jobs acc = cron_jobs s →
                   Forall (λ j, cron_jobs s !! id j = Some j ∧ enabled j = 1) l →
                   consistent (snd (schedule_all Date_parse cron_validate timezone_error
                                      l clock acc))) as Hfold.
  { induction l as [|j l IH]; intros acc Hacc Hjobs Hl; simpl; [done|].
    inversion Hl as [|?? [Hrow Hen] Hl']; subst.
    assert (consistent (snd (scheduleJob Date_parse cron_validate timezone_error
                               j clock acc))) as Hstep.
    { apply scheduleJob_consistent; [done|]. intros _. rewrite Hjobs.
      exists j. split; [done|]. lia. }
    pose proof (scheduleJob_jobs j clock acc) as Hsame.
    destruct (scheduleJob Date_parse cron_validate timezone_error j clock acc)
      as [[scheduled|err] s1]; simpl in *; [|done].
    apply IH; [done| |done]. by rewrite Hsame. }
  intros Hs. apply Hfold; [done|done|].
  apply Forall_forall. intros j Hj. apply list_elem_of_filter in Hj as [Hen Hj].
  apply list_elem_of_fmap in Hj as ([k j'] & -> & Hj).
  apply elem_of_map_to_list in Hj. simpl in *.
  split; [|done]. by rewrite (rows_keyed _ Hs _ _ Hj).
Qed.

Lemma boot_consistent (s : Cron.State) :
  consistent s → consistent (boot (cron_jobs s) (cron_runs s)).
Proof.
  intros Hs. constructor; simpl; try (intros *; by rewrite lookup_empty).
  apply Hs.
Qed.


Lemma update_job_consistent j g (s : Cron.State) :
  consistent s →
  (∀ row, id (g row) = id row ∧ (enabled row ≠ 0 → enabled (g row) ≠ 0)) →
  consistent (update_job j g s).
Proof.
  intros Hs Hg. apply consistent_with_jobs; [done| |].
  - intros j' t Hl. destruct (handle_enabled _ Hs _ _ Hl) as (row & Hrow & Hen).
    destruct (decide (j' = j)) as [->|Hne].
    + exists (g row). rewrite lookup_alter_eq, Hrow. split; [done|]. by apply Hg.
    + exists row. by rewrite lookup_alter_ne.
  - eapply touches_only_keyed; [|apply Hs].
    apply touches_only_alter; [apply Hg|apply Hs].
Qed.

Lemma insert_run_consistent r (s s' : Cron.State) :
  insert_run foreign_keys r s = Some s' → consistent s → consistent s'.
Proof.
  unfold insert_run. case_match; [done|]. intros [= <-].
  by apply consistent_same_core.
Qed.

Lemma delete_job_retire j (s : Cron.State) :
  consistent s → consistent (stop_handle j (delete_job foreign_keys j s)).
Proof.
  intros Hs.
  pose proof (retire_consistent j (delete j) s Hs (touches_only_delete j _)) as H.
  revert H. unfold delete_job, stop_handle.
  destruct foreign_keys; simpl; destruct (activeTasks s !! j);
    by apply consistent_same_core.
Qed.

Lemma executeJob_catch_consistent job startedAt err clock (s : Cron.State) :
  consistent s →
  consistent (snd (executeJob_catch foreign_keys job startedAt err clock s)).
Proof.
  intros Hs. unfold executeJob_catch.
  set (s1 := update_job _ _ s).
  assert (consistent s1) as Hs1 by (by apply update_job_consistent).
  destruct (insert_run _ _ s1) as [s2|] eqn:E; simpl; [|done].
  by eapply insert_run_consistent.
Qed.

Lemma executeJob_try_consistent job startedAt clock (s : Cron.State) :
  consistent s →
  consistent (snd (executeJob_try foreign_keys job startedAt clock s)).
Proof.
  intros Hs. unfold executeJob_try.
  set (s1 := update_job _ _ s).
  assert (consistent s1) as Hs1 by (by apply update_job_consistent).
  destruct (insert_run _ _ s1) as [s2|] eqn:E;
    [|by apply executeJob_catch_consistent].
  assert (consistent s2) as Hs2 by (by eapply insert_run_consistent).
  destruct (bool_decide (schedule_type job = once) || truthyZ (delete_after_run job));
    simpl; [|done].
  destruct (truthyZ (delete_after_run job)); [by apply delete_job_retire|].
  apply retire_consistent; [done|]. apply touches_only_alter; [done|apply Hs2].
Qed.

Lemma executeJob_resume_consistent job startedAt failure clock (s : Cron.State) :
  consistent s →
  consistent (snd (executeJob_resume foreign_keys job startedAt failure clock s)).
Proof.
  intros Hs. destruct failure; simpl;
    [by apply executeJob_catch_consistent | by apply executeJob_try_consistent].
Qed.

Lemma executeJob_start_consistent job clock (s : Cron.State) :
  consistent s → consistent (executeJob_start job clock s).
Proof. by apply consistent_same_core. Qed.

Lemma patch_of_id input newSchedule patch :
  patch_of input newSchedule = Some patch → ∀ row, id (patch row) = id row.
Proof. unfold patch_of. case_match; [done|]. by intros [= <-]. Qed.

Lemma insert_then_schedule_consistent job clock (s : Cron.State) :
  consistent s → enabled job = 1 →
  consistent (snd (scheduleJob Date_parse cron_validate timezone_error job clock
                     (with_jobs (<[id job := job]>) s))).
Proof.
  intros Hs Hen. apply reschedule_consistent; [done|apply touches_only_insert|].
  intros _. exists job. rewrite lookup_insert_eq. split; [done|lia].
Qed.

Lemma add_consistent input ctx newId clock (s : Cron.State) :
  consistent s → consistent (snd (add Date_parse cron_validate timezone_error input ctx newId clock s)).
Proof.
  intros Hs. unfold add.
  destruct (String.eqb _ ""); [done|]. destruct (String.eqb _ ""); [done|].
  destruct (String.eqb _ ""); [done|]. destruct (negb _); [done|].
  destruct (validate_for_add _ _ _ _) as [err|scheduleType]; [done|].
  destruct (cron_jobs s !! newId); [done|].
  match goal with
  | |- context [scheduleJob _ _ _ ?job _ _] =>
      pose proof (insert_then_schedule_consistent job clock s Hs eq_refl) as Hadd
  end.
  simpl in Hadd. by destruct (scheduleJob _ _ _ _ _ _) as [[?|?] ?].
Qed.

Lemma patch_then_schedule_consistent jobId existing patch clock (s : Cron.State) :
  consistent s → cron_jobs s !! jobId = Some existing →
  (∀ row, id (patch row) = id row) →
  consistent (snd (scheduleJob Date_parse cron_validate timezone_error (patch existing) clock
                     (update_job jobId patch s))).
Proof.
  intros Hs Hrow Hid.
  pose proof (rows_keyed _ Hs _ _ Hrow) as Hkey.
  assert (id (patch existing) = jobId) as Hupd by (by rewrite Hid).
  unfold update_job. apply reschedule_consistent; [done| |].
  - rewrite Hupd. apply touches_only_alter; [done|apply Hs].
  - intros Hen. rewrite Hupd, lookup_alter_eq, Hrow. by eexists.
Qed.

Lemma update_consistent input clock (s : Cron.State) :
  consistent s → consistent (snd (update Date_parse cron_validate timezone_error input clock s)).
Proof.
  intros Hs. unfold update.
  destruct (String.eqb _ ""); [done|].
  destruct (cron_jobs s !! _) as [existing|] eqn:Hrow; [|done].
  assert (∀ newSchedule,
    consistent (snd (match patch_of input newSchedule with
                     | None => (error_payload "no_changes"
                                  "No fields to update. Provide name, schedule, message, timezone, enabled, or deleteAfterRun.", s)
                     | Some patch =>
                         match scheduleJob Date_parse cron_validate timezone_error
                                 (patch existing) clock
                                 (update_job (trimmed_string_field input "jobId")
                                    patch s) with
                         | (Resolved _, s2) =>
                             (stringify (JObj [("success", JBool true);
                                               ("action", JStr "update");
                                               ("job", formatJob (patch existing) s2)]), s2)
                         | (Rejected err, s2) => (action_failed "update" err, s2)
                         end
                     end))) as Htail.
  { intros newSchedule.
    destruct (patch_of input newSchedule) as [patch|] eqn:Hpatch; [|done].
    pose proof (patch_then_schedule_consistent _ _ patch clock s Hs Hrow
                  (patch_of_id _ _ _ Hpatch)) as H.
    by destruct (scheduleJob _ _ _ _ _ _) as [[?|?] ?]. }
  destruct (optional_nonempty input "schedule") as [ns|]; [|apply Htail].
  destruct (validate_for_update _ _ ns); [done|apply Htail].
Qed.

Lemma remove_consistent input (s : Cron.State) :
  consistent s → consistent (snd (remove foreign_keys input s)).
Proof.
  intros Hs. unfold remove.
  destruct (String.eqb _ ""); [done|].
  destruct (cron_jobs s !! _) as [job|] eqn:Hrow; [|done]. simpl.
  set (jobId := trimmed_string_field input "jobId").
  pose proof (delete_job_retire jobId s Hs) as H. revert H.
  unfold delete_job, stop_handle.
  destruct foreign_keys; simpl; destruct (activeTasks s !! jobId);
    by apply consistent_same_core.
Qed.

Lemma run_start_consistent input clock (s : Cron.State) :
  consistent s → consistent (snd (run_start input clock s)).
Proof.
  intros Hs. unfold run_start.
  destruct (String.eqb _ ""); [done|].
  destruct (cron_jobs s !! _); [|done]. by apply executeJob_start_consistent.
Qed.

Lemma wake_consistent input clock (s : Cron.State) :
  consistent s → consistent (snd (wake Date_parse cron_validate timezone_error input clock s)).
Proof.
  intros Hs. unfold wake.
  destruct (String.eqb _ ""); [done|].
  destruct (cron_jobs s !! _) as [job|] eqn:Hrow; [|done].
  pose proof (rows_keyed _ Hs _ _ Hrow) as Hkey.
  unfold truthyZ. destruct (Z.eqb_spec (enabled job) 0) as [Hz|Hnz]; simpl.
  - pose proof (patch_then_schedule_consistent _ _ (set_enabled 1 true) clock s Hs Hrow
                  (λ _, eq_refl)) as H.
    by destruct (scheduleJob _ _ _ _ _ _) as [[?|?] ?].
  - pose proof (scheduleJob_consistent job clock s Hs) as H.
    destruct (scheduleJob _ _ _ _ _ _) as [[?|?] ?]; apply H; intros _; rewrite Hkey; eauto.
Qed.

Lemma timeout_fires_consistent t clock (s : Cron.State) :
  consistent s → consistent (timeout_fires t clock s).
Proof.
  intros Hs. unfold timeout_fires.
  destruct (timers s !! t) as [[[] job]|] eqn:Ht; [|done..].
  pose proof (armed_registered _ Hs _ _ Ht) as Hreg. simpl in Hreg.
  pose proof (stop_handle_consistent (id job) s Hs) as H. revert H.
  unfold stop_handle. rewrite Hreg. by apply consistent_same_core.
Qed.

Lemma cron_tick_consistent t clock (s : Cron.State) :
  consistent s → consistent (cron_tick t clock s).
Proof.
  intros Hs. unfold cron_tick.
  destruct (timers s !! t) as [[[] job]|]; try done.
  by apply executeJob_start_consistent.
Qed.

Lemma firing_settles_consistent i failure clock (s : Cron.State) :
  consistent s → consistent (snd (firing_settles foreign_keys i failure clock s)).
Proof.
  intros Hs. unfold firing_settles. destruct (firings s !! i); [|done].
  apply executeJob_resume_consistent. by apply consistent_same_core with s.
Qed.

Lemma step_consistent op (s : Cron.State) :
  consistent s → consistent (step Date_parse cron_validate timezone_error foreign_keys s op).
Proof.
  intros Hs. destruct op; simpl.
  - by apply initCronJobs_consistent, boot_consistent.
  - by apply add_consistent.
  - by apply update_consistent.
  - by apply remove_consistent.
  - by apply run_start_consistent.
  - by apply wake_consistent.
  - by apply timeout_fires_consistent.
  - by apply cron_tick_consistent.
  - by apply firing_settles_consistent.
Qed.

Lemma after_consistent ops :
  consistent (after Date_parse cron_validate timezone_error foreign_keys ops).
Proof.
  unfold after. induction ops as [|op ops IH] using rev_ind; [apply empty_consistent|].
  rewrite foldl_app. simpl. by apply step_consistent.
Qed.

End Invariant.

(** *** What the invariant gives *)

Lemma elem_of_armed_for jobId (s : Cron.State) t tm :
  (t, tm) ∈ armed_for jobId s ↔ id (t_job tm) = jobId ∧ timers s !! t = Some tm.
Proof.
  unfold armed_for. rewrite list_elem_of_filter, elem_of_map_to_list. naive_solver.
Qed.

Lemma armed_for_count jobId (s : Cron.State) :
  consistent s →
  List.length (armed_for jobId s) = if activeTasks s !! jobId is Some _ then 1%nat else 0%nat.
Proof.
  intros Hs.
  assert (∀ x, x ∈ armed_for jobId s → activeTasks s !! jobId = Some x.1
                                       ∧ timers s !! x.1 = Some x.2) as Hin.
  { intros [t tm] [Hid Ht]%elem_of_armed_for. simpl. split; [|done].
    rewrite <- Hid. by apply (armed_registered _ Hs). }
  assert (NoDup (armed_for jobId s)) as Hnd
    by apply NoDup_filter, NoDup_map_to_list.
  destruct (activeTasks s !! jobId) as [t|] eqn:E.
  - destruct (handle_armed _ Hs _ _ E) as (tm & Htm & Hid).
    assert ((t, tm) ∈ armed_for jobId s) as Hmem by (by apply elem_of_armed_for).
    destruct (armed_for jobId s) as [|x [|y l]]; [by apply not_elem_of_nil in Hmem|done|].
    exfalso. apply NoDup_cons in Hnd as [Hx _]. apply Hx.
    destruct (Hin x) as [Hx1 Hx2]; [left|]. destruct (Hin y) as [Hy1 Hy2]; [right; left|].
    destruct x as [tx mx], y as [ty my]. simpl in *.
    assert (tx = ty) as -> by congruence. assert (mx = my) as -> by congruence. left.
  - apply (f_equal List.length (y := [])). apply elem_of_nil_inv. intros x Hx.
    apply Hin in Hx as [Hx _]. congruence.
Qed.

Section Handles.
Variable Date_parse : string → option Z.
Variable cron_validate : string → bool.
Variable timezone_error : string → option Thrown.
Variable foreign_keys : bool.

Lemma wake_rearms_recurring input clock row (s : Cron.State) :
  cron_jobs s !! trimmed_string_field input "jobId" = Some row →
  id row = trimmed_string_field input "jobId" →
  trimmed_string_field input "jobId" ≠ "" →
  enabled row ≠ 0 → schedule_type row = cron → cron_validate (schedule row) = true →
  timezone_error (or_str (timezone row) "Asia/Bangkok") = None →
  is_Some (activeTasks (snd (wake Date_parse cron_validate timezone_error input clock s))
             !! trimmed_string_field input "jobId").
Proof.
  intros Hrow Hid Hne Hen Hty Hok Htz. unfold wake.
  destruct (String.eqb_spec (trimmed_string_field input "jobId") ""); [done|].
  rewrite Hrow. unfold truthyZ.
  destruct (Z.eqb_spec (enabled row) 0); [done|]. simpl.
  unfold scheduleJob, truthyZ.
  destruct (Z.eqb_spec (enabled row) 0); [done|]. simpl.
  rewrite Hty, Hok, Htz. simpl. rewrite Hid. rewrite lookup_insert_eq. by eexists.
Qed.

(** C9 (as amended). After any history of operations on the scheduler
    (process starts, tool actions, timers going off, pushes settling): a job
    id has a firing handle only if its row exists with [enabled] true; the
    runtime has exactly one armed handle for a job id that has an entry in
    [activeTasks] and none for any other, so never two; and [wake] on an
    already-enabled job leaves at most one armed handle for it, exactly one
    when the job is recurring with a valid expression and a time zone that
    [cron.schedule] accepts. *)
Theorem handles_only_for_enabled_jobs (ops : list Op) :
  let s := after Date_parse cron_validate timezone_error foreign_keys ops in
  (∀ jobId, is_Some (activeTasks s !! jobId) →
     ∃ row, cron_jobs s !! jobId = Some row ∧ enabled row ≠ 0)
  ∧ (∀ jobId,
       List.length (armed_for jobId s)
       = if activeTasks s !! jobId is Some _ then 1%nat else 0%nat)
  ∧ (∀ jobId, (List.length (armed_for jobId s) ≤ 1)%nat)
  ∧ (∀ input clock row,
       let jobId := trimmed_string_field input "jobId" in
       jobId ≠ "" → cron_jobs s !! jobId = Some row → enabled row ≠ 0 →
       let s' := snd (wake Date_parse cron_validate timezone_error input clock s) in
       (List.length (armed_for jobId s') ≤ 1)%nat
       ∧ (schedule_type row = cron → cron_validate (schedule row) = true →
          timezone_error (or_str (timezone row) "Asia/Bangkok") = None →
          List.length (armed_for jobId s') = 1%nat)).
Proof.
  intros s.
  pose proof (after_consistent Date_parse cron_validate timezone_error foreign_keys ops) as Hs.
  fold s in Hs.
  split; [|split; [|split]].
  - intros jobId [t Ht]. by apply (handle_enabled _ Hs _ t).
  - intros jobId. by apply armed_for_count.
  - intros jobId. rewrite armed_for_count by done. case_match; lia.
  - intros input clock row jobId Hne Hrow Hen s'.
    assert (consistent s') as Hs' by (by apply wake_consistent).
    split.
    + rewrite armed_for_count by done. case_match; lia.
    + intros Hty Hok Htz. rewrite armed_for_count by done.
      destruct (wake_rearms_recurring input clock row s Hrow) as [t Ht]; try done.
      * apply (rows_keyed _ Hs _ _ Hrow).
      * subst s'. fold jobId in Ht. by rewrite Ht.
Qed.

End Handles.

(** C9, the claim as stated fails: the one-shot job of
    [Scenario.woken_too_late] has fired and is woken after its date.  [wake]
    sets [enabled = 1] and [scheduleJob] skips a date in the past, so the job
    is enabled and has no handle.  Likewise a recurring job added with a time
    zone that [cron.schedule] does not know: the row is inserted enabled, the
    call throws, [add] answers [action_failed], and a later [wake] throws
    again; the job is enabled and never has a handle. *)
Lemma enabled_job_without_handle :
  let s := after Scenario.Date_parse Scenario.cron_validate Scenario.timezone_error false
             Scenario.woken_too_late in
  let s' := after Scenario.Date_parse Scenario.cron_validate Scenario.timezone_error false
              CronScript.added_on_mars_then_woken in
  ((∃ row, cron_jobs s !! "j0000001" = Some row ∧ enabled row = 1)
   ∧ activeTasks s !! "j0000001" = None
   ∧ armed_for "j0000001" s = [])
  ∧ ((∃ row, cron_jobs s' !! "j0000004" = Some row ∧ enabled row = 1)
     ∧ activeTasks s' !! "j0000004" = None
     ∧ armed_for "j0000004" s' = []
     ∧ fst (wake Scenario.Date_parse Scenario.cron_validate Scenario.timezone_error
              (Scenario.job_input "j0000004") Scenario.later s')
       = action_failed "wake"
           (ErrorObj "RangeError" "Invalid time zone specified: Mars/Olympus")).
Proof. vm_compute. split; (split; [by eexists|done]). Qed.

Lemma handles_only_for_enabled_jobs_witness :
  let s := after Scenario.Date_parse Scenario.cron_validate Scenario.timezone_error false
             [OpAdd (Scenario.add_input "daily" "0 8 * * *" false) Scenario.alice
                "j0000002" Scenario.noon] in
  (∃ row, cron_jobs s !! "j0000002" = Some row ∧ enabled row ≠ 0)
  ∧ List.length
      (armed_for "j0000002"
         (snd (wake Scenario.Date_parse Scenario.cron_validate Scenario.timezone_error
                 (Scenario.job_input "j0000002") Scenario.later s))) = 1%nat.
Proof.
  intros s.
  pose proof (handles_only_for_enabled_jobs Scenario.Date_parse Scenario.cron_validate Scenario.timezone_error
                false [OpAdd (Scenario.add_input "daily" "0 8 * * *" false) Scenario.alice
                         "j0000002" Scenario.noon]) as (H1 & _ & _ & H4).
  split.
  - apply H1. vm_compute. by eexists.
  - destruct (cron_jobs s !! "j0000002") as [row|] eqn:Hrow; [|by vm_compute in Hrow].
    apply (H4 (Scenario.job_input "j0000002") Scenario.later row).
    + vm_compute. discriminate.
    + exact Hrow.
    + vm_compute in Hrow. injection Hrow as <-. vm_compute. discriminate.
    + vm_compute in Hrow. injection Hrow as <-. reflexivity.
    + vm_compute in Hrow. injection Hrow as <-. reflexivity.
    + vm_compute in Hrow. injection Hrow as <-. reflexivity.
Defined.

(** ** Scheduled jobs: what a firing records *)

Section Firing.
Variable foreign_keys : bool.

Lemma insert_run_row_present r row (s : Cron.State) :
  cron_jobs s !! job_id r = Some row →
  insert_run foreign_keys r s = Some (with_runs (λ rs, rs ++ [r]) s).
Proof.
  intros Hrow. unfold insert_run. rewrite Hrow.
  rewrite bool_decide_eq_false_2 by done. by rewrite andb_false_r.
Qed.

(** What [executeJob] does once its push has settled, for a job whose row
    exists at that moment. *)
Lemma resume_recorded (job row : CronJob) (startedAt : string) (finished : Clock)
    (failure : option Thrown) (s : Cron.State) :
  cron_jobs s !! id job = Some row →
  let out := executeJob_resume foreign_keys job startedAt failure finished s in
  let s' := snd out in
  let run st err :=
    {| job_id := id job; job_name := name job; run_status := st; error := err;
       started_at := startedAt; completed_at := Some (now_iso finished) |} in
  match failure with
  | Some err =>
      let msg := message_or_string err in
      fst out = Resolved (false, Some msg)
      ∧ cron_runs s' = cron_runs s ++ [run "error" (Some (take_str 500 msg))]
      ∧ activeTasks s' = activeTasks s ∧ timers s' = timers s
      ∧ ∃ row', cron_jobs s' !! id job = Some row'
          ∧ run_count row' = run_count row + 1
          ∧ last_status row' = Some "error"
          ∧ last_error row' = Some (take_str 500 msg)
          ∧ enabled row' = enabled row
  | None =>
      fst out = Resolved (true, None)
      ∧ if truthyZ (delete_after_run job) then
          cron_jobs s' !! id job = None
          ∧ cron_runs s' = if foreign_keys
                           then filter (λ r, job_id r ≠ id job) (cron_runs s)
                           else cron_runs s ++ [run "success" None]
        else
          cron_runs s' = cron_runs s ++ [run "success" None]
          ∧ ∃ row', cron_jobs s' !! id job = Some row'
              ∧ run_count row' = run_count row + 1
              ∧ last_status row' = Some "success"
              ∧ last_error row' = None
              ∧ enabled row' = if bool_decide (schedule_type job = once) then 0
                               else enabled row
  end.
Proof.
  intros Hrow. unfold executeJob_resume.
  destruct failure as [err|].
  - unfold executeJob_catch.
    erewrite insert_run_row_present
      by (simpl; rewrite lookup_alter_eq, Hrow; reflexivity).
    simpl. repeat (split; [done|]).
    rewrite lookup_alter_eq, Hrow. by eexists.
  - unfold executeJob_try.
    erewrite insert_run_row_present
      by (simpl; rewrite lookup_alter_eq, Hrow; reflexivity).
    destruct (truthyZ (delete_after_run job)) eqn:Hdel.
    + rewrite orb_true_r. simpl. split; [done|].
      rewrite stop_handle_jobs. unfold delete_job.
      destruct foreign_keys; simpl; rewrite lookup_delete_eq; (split; [done|]);
        rewrite stop_handle_runs; simpl; [|done].
      rewrite filter_app. rewrite filter_cons_False; [|simpl; intros Hsame; by apply Hsame].
      by rewrite filter_nil, app_nil_r.
    + rewrite orb_false_r.
      destruct (bool_decide (schedule_type job = once)); simpl; (split; [done|]).
      * rewrite stop_handle_runs, stop_handle_jobs. simpl. split; [done|].
        rewrite !lookup_alter_eq, Hrow. by eexists.
      * split; [done|]. rewrite lookup_alter_eq, Hrow. by eexists.
Qed.

(** C8 (as amended). Every firing is a start and a settlement.  It starts
    in one of three ways: node-cron runs the callback of a recurring handle,
    the timer of a one-shot handle runs out (its callback also drops the
    handle, before the push has settled), or the [run] action finds the row.
    Each start sends the push, puts exactly one firing in flight and changes
    no table.  When the push of a firing in flight settles and the row of
    its job still exists, the firing leaves the list of firings in flight,
    and: if the push failed, exactly one [cron_runs] row with status "error"
    is appended, [run_count] grows by 1, [last_status] is "error",
    [last_error] is the first 500 characters of the error message, and
    [enabled] is unchanged (the [catch] block touches no handle either); if
    the push succeeded and the job is not flagged [delete_after_run],
    exactly one "success" row is appended and [run_count] grows by 1 (a
    one-shot job is disabled); if the push succeeded and the job is flagged
    [delete_after_run], the job row is deleted, and the run rows of the job
    go with it when foreign keys are enforced (otherwise the one new row is
    appended). *)
Theorem firing_is_recorded (s : Cron.State) :
  (∀ t job clock,
     timers s !! t = Some {| t_kind := Recurring; t_job := job |} →
     let s1 := cron_tick t clock s in
     CronTables.started job clock s s1
     ∧ activeTasks s1 = activeTasks s ∧ timers s1 = timers s)
  ∧ (∀ t job clock,
       timers s !! t = Some {| t_kind := Timeout; t_job := job |} →
       let s1 := timeout_fires t clock s in
       CronTables.started job clock s s1
       ∧ activeTasks s1 = delete (id job) (activeTasks s)
       ∧ timers s1 = delete t (timers s))
  ∧ (∀ input clock job,
       trimmed_string_field input "jobId" ≠ "" →
       cron_jobs s !! trimmed_string_field input "jobId" = Some job →
       let out := run_start input clock s in
       fst out = inr job
       ∧ CronTables.started job clock s (snd out)
       ∧ activeTasks (snd out) = activeTasks s ∧ timers (snd out) = timers s)
  ∧ (∀ i f row failure finished,
       firings s !! i = Some f →
       cron_jobs s !! id (f_job f) = Some row →
       let job := f_job f in
       let out := firing_settles foreign_keys i failure finished s in
       let s' := snd out in
       let run st err :=
         {| job_id := id job; job_name := name job; run_status := st; error := err;
            started_at := f_startedAt f; completed_at := Some (now_iso finished) |} in
       firings s' = delete i (firings s)
       ∧ match failure with
         | Some err =>
             let msg := message_or_string err in
             fst out = Resolved (false, Some msg)
             ∧ cron_runs s' = cron_runs s ++ [run "error" (Some (take_str 500 msg))]
             ∧ activeTasks s' = activeTasks s ∧ timers s' = timers s
             ∧ ∃ row', cron_jobs s' !! id job = Some row'
                 ∧ run_count row' = run_count row + 1
                 ∧ last_status row' = Some "error"
                 ∧ last_error row' = Some (take_str 500 msg)
                 ∧ enabled row' = enabled row
         | None =>
             fst out = Resolved (true, None)
             ∧ if truthyZ (delete_after_run job) then
                 cron_jobs s' !! id job = None
                 ∧ cron_runs s' = if foreign_keys
                                  then filter (λ r, job_id r ≠ id job) (cron_runs s)
                                  else cron_runs s ++ [run "success" None]
               else
                 cron_runs s' = cron_runs s ++ [run "success" None]
                 ∧ ∃ row', cron_jobs s' !! id job = Some row'
                     ∧ run_count row' = run_count row + 1
                     ∧ last_status row' = Some "success"
                     ∧ last_error row' = None
                     ∧ enabled row' = if bool_decide (schedule_type job = once) then 0
                                      else enabled row
         end).
Proof.
  split; [|split; [|split]].
  - intros t job clock Ht. unfold cron_tick. rewrite Ht. by cbv zeta.
  - intros t job clock Ht. unfold timeout_fires. rewrite Ht. by cbv zeta.
  - intros input clock job Hid Hrow. unfold run_start.
    destruct (String.eqb_spec (trimmed_string_field input "jobId") ""); [done|].
    rewrite Hrow. by cbv zeta.
  - intros i f row failure finished Hf Hrow job out s'.
    assert (firings s' = delete i (firings s)) as Hflight.
    { subst s' out. unfold firing_settles. rewrite Hf.
      unfold executeJob_resume, executeJob_try, executeJob_catch, insert_run,
        delete_job.
      repeat case_match; simplify_eq; cbn [snd]; rewrite ?stop_handle_firings;
        reflexivity. }
    split; [exact Hflight|].
    pose proof (resume_recorded (f_job f) row (f_startedAt f) finished failure
                  (with_firings (delete i) s) Hrow) as H.
    subst s' out job. unfold firing_settles. rewrite Hf. exact H.
Qed.

End Firing.

(** C8, the claim as stated fails in three ways.  A recurring job flagged
    [deleteAfterRun] fires and its push succeeds: the row is deleted, so no
    [run_count] is left to have grown, and with foreign keys enforced the run
    row just written is deleted with it.  A job is removed while the push of
    its firing is in flight: no row is left to count the run; without
    foreign keys a run row is still appended, with them the INSERT throws
    and no run row is written.  A push fails with a message of 600
    characters: [last_error] holds 500 characters, not the message. *)
Lemma firings_that_keep_no_count :
  let history fk ops :=
    after Scenario.Date_parse Scenario.cron_validate Scenario.timezone_error fk ops in
  ((let s' := history false CronScript.self_deleting_fires in
    cron_jobs s' !! "j0000003" = None ∧ List.length (cron_runs s') = 1%nat)
   ∧ (let s' := history true CronScript.self_deleting_fires in
      cron_jobs s' !! "j0000003" = None ∧ cron_runs s' = []))
  ∧ ((let out := firing_settles false 0 None Scenario.much_later
                   (history false CronScript.removed_in_flight) in
      fst out = Resolved (true, None)
      ∧ cron_jobs (snd out) !! "j0000002" = None
      ∧ List.length (cron_runs (snd out)) = 1%nat)
     ∧ (let out := firing_settles true 0 None Scenario.much_later
                     (history true CronScript.removed_in_flight) in
        fst out = Rejected FK_ERROR
        ∧ cron_jobs (snd out) !! "j0000002" = None
        ∧ cron_runs (snd out) = []))
  ∧ (let out := firing_settles false 0 (Some (Error CronScript.long_message))
                  Scenario.much_later (history false CronScript.daily_in_flight) in
     String.length CronScript.long_message = 600%nat
     ∧ ∃ row' kept, cron_jobs (snd out) !! "j0000002" = Some row'
         ∧ last_status row' = Some "error"
         ∧ last_error row' = Some kept
         ∧ String.length kept = 500%nat).
Proof.
  cbv zeta. split; [vm_compute; done|]. split; [vm_compute; done|].
  split; [vm_compute; reflexivity|]. eexists _, _. vm_compute. done.
Qed.

Lemma firing_is_recorded_witness :
  let s := after Scenario.Date_parse Scenario.cron_validate Scenario.timezone_error
             false CronScript.daily_in_flight in
  let s' := snd (firing_settles false 0 (Some (Error "429 Too Many Requests"))
                   Scenario.much_later s) in
  firings s = [{| f_job := CronScript.daily_row;
                  f_startedAt := "2026-01-01T05:01:00.000Z" |}]
  ∧ firings s' = []
  ∧ List.length (cron_runs s') = 1%nat
  ∧ ∃ row', cron_jobs s' !! "j0000002" = Some row'
      ∧ run_count row' = 1 ∧ last_status row' = Some "error"
      ∧ last_error row' = Some "429 Too Many Requests" ∧ enabled row' = 1.
Proof.
  intros s s'.
  assert (firings s !! 0%nat
          = Some {| f_job := CronScript.daily_row;
                    f_startedAt := "2026-01-01T05:01:00.000Z" |}) as Hf
    by (vm_compute; reflexivity).
  assert (cron_jobs s !! "j0000002" = Some CronScript.daily_row) as Hrow0
    by (vm_compute; reflexivity).
  destruct (firing_is_recorded false s) as (_ & _ & _ & H).
  specialize (H 0%nat _ CronScript.daily_row (Some (Error "429 Too Many Requests"))
                Scenario.much_later Hf Hrow0).
  cbv zeta in H. fold s' in H.
  destruct H as (Hflight & _ & Hruns & _ & _ & row' & Hrow & Hcount & Hst & Herr & Hen).
  split; [vm_compute; reflexivity|]. split; [by rewrite Hflight|].
  split; [by rewrite Hruns|].
  exists row'. split; [exact Hrow|]. split; [exact Hcount|]. split; [exact Hst|].
  split; [exact Herr|exact Hen].
Defined.

(** ** Scheduled jobs: validation of the schedule *)

Section Validation.
Variable Date_parse : string → option Z.
Variable cron_validate : string → bool.
Variable timezone_error : string → option Thrown.

(** A one-shot date that is not in the future: [add] refuses it, [update]
    takes it. *)
Lemma past_date_add_and_update sched d clock :
  iso_date_like sched = true → Date_parse sched = Some d → d ≤ now_ms clock →
  validate_for_add Date_parse cron_validate sched clock
    = inl (error_payload "past_date" "Cannot schedule in the past.")
  ∧ validate_for_update Date_parse cron_validate sched = inr once.
Proof.
  intros Hiso Hd Hpast. unfold validate_for_add, validate_for_update.
  rewrite Hiso, Hd. by rewrite (proj2 (Z.leb_le _ _) Hpast).
Qed.

Lemma add_validation_error_persists_nothing input ctx newId clock (s : Cron.State) err :
  validate_for_add Date_parse cron_validate (trimmed_string_field input "schedule") clock
    = inl err →
  ∃ out, add Date_parse cron_validate timezone_error input ctx newId clock s = (out, s).
Proof.
  intros Hv. unfold add. rewrite Hv. repeat case_match; by eexists.
Qed.

Lemma invalid_expression_rejected sched clock :
  iso_date_like sched = false → cron_validate sched = false →
  (∃ err, validate_for_add Date_parse cron_validate sched clock = inl err)
  ∧ (∃ err, validate_for_update Date_parse cron_validate sched = inl err).
Proof.
  intros Hiso Hbad. unfold validate_for_add, validate_for_update.
  rewrite Hiso, Hbad. simpl. split; by eexists.
Qed.

End Validation.

(** C7, where the code departs from the claim.  With a recurring job in the
    table and the clock at 2026-01-01: [add] with the schedule
    ["2020-01-01T00:00"] answers [past_date] and [add] with ["every day"]
    answers [invalid_schedule], both leaving the state as it was; [update] of
    the existing job to ["2020-01-01T00:00"] succeeds: the row now holds the
    past date as a one-shot schedule, still enabled, and no handle is armed
    for it. *)
Theorem update_skips_the_past_date_check :
  add Scenario.Date_parse Scenario.cron_validate Scenario.timezone_error
    (Scenario.add_input "old" "2020-01-01T00:00" false) Scenario.alice "j0000009"
    Scenario.noon Scenario.daily_job
  = (error_payload "past_date" "Cannot schedule in the past.", Scenario.daily_job)
  ∧ add Scenario.Date_parse Scenario.cron_validate Scenario.timezone_error
      (Scenario.add_input "bad" "every day" false) Scenario.alice "j0000009"
      Scenario.noon Scenario.daily_job
    = (error_payload "invalid_schedule"
         ("Invalid cron expression: " +:+ dq +:+ "every day" +:+ dq +:+
          ". Examples: " +:+ dq +:+ "0 8 * * *" +:+ dq +:+ " (daily 8am), " +:+
          dq +:+ "*/30 * * * *" +:+ dq +:+ " (every 30min)."), Scenario.daily_job)
  ∧ update Scenario.Date_parse Scenario.cron_validate Scenario.timezone_error
      (Scenario.reschedule_input "j0000002" "every day") Scenario.noon Scenario.daily_job
    = (error_payload "invalid_schedule"
         ("Invalid cron expression: " +:+ dq +:+ "every day" +:+ dq +:+ "."),
       Scenario.daily_job)
  ∧ (let answer := update Scenario.Date_parse Scenario.cron_validate Scenario.timezone_error
                     (Scenario.reschedule_input "j0000002" "2020-01-01T00:00")
                     Scenario.noon Scenario.daily_job in
     let s' := snd answer in
     ∃ row,
       cron_jobs s' !! "j0000002" = Some row
       ∧ fst answer = stringify (JObj [("success", JBool true); ("action", JStr "update");
                                       ("job", formatJob row s')])
       ∧ schedule row = "2020-01-01T00:00" ∧ schedule_type row = once
       ∧ enabled row = 1
       ∧ activeTasks s' !! "j0000002" = None).
Proof.
  split; [by vm_compute|]. split; [by vm_compute|]. split; [by vm_compute|].
  vm_compute. eexists. split; [reflexivity|]. done.
Qed.

(* ================================================================== *)
(** * Further properties of the agent loop *)

Section RequestBounds.
Context {W : Type}.
Variable allTools : list (ToolDefinition W).
Variable JSON_parse : string → option Json.
Variable match_tool_call : string → option (string * string).
Variable Date_now : nat → Z.
Variable gemini_api : nat → GeminiRequest → GeminiReply.
Variable ollama_api : nat → OllamaRequest → OllamaReply.
Variable anthropic_api : nat → AnthropicRequest → AnthropicReply.

Lemma quiet_silent {A} (m : M (St W) A) : quiet m → Exchange.silent m.
Proof. intros Hq st. destruct (Hq st) as (a & st' & -> & C). exact C. Qed.

Lemma silent_ret {A} (a : A) : Exchange.silent (W:=W) (ret a).
Proof. by intros st. Qed.

Lemma silent_throw {A} e : Exchange.silent (W:=W) (A:=A) (throw e).
Proof. by intros st. Qed.

Lemma silent_bind {A B} (m : M (St W) A) (k : A → M (St W) B) :
  Exchange.silent m → (∀ a, Exchange.silent (k a)) → Exchange.silent (bind m k).
Proof.
  intros Hm Hk st. unfold bind. specialize (Hm st).
  destruct (m st) as [[a|e] st1]; simpl in *; [|done].
  rewrite <- Hm. apply Hk.
Qed.

Lemma silent_ollama_run_calls ctx tcs messages :
  Exchange.silent (ollama_run_calls allTools JSON_parse ctx tcs messages).
Proof.
  revert messages. induction tcs as [|tc tcs IH]; intros messages; simpl;
    [apply silent_ret|].
  destruct (JSON_parse (tc_arguments tc)); [|apply silent_throw].
  apply silent_bind; [apply quiet_silent, quiet_executeTool|intros result].
  apply silent_bind; [apply quiet_silent, quiet_checkToolResultForMedia|intros _].
  apply IH.
Qed.

Lemma bind_inv {S A B} (m : M S A) (k : A → M S B) s r s' :
  bind m k s = (r, s') →
  (∃ a s1, m s = (Resolved a, s1) ∧ k a s1 = (r, s'))
  ∨ (∃ e, m s = (Rejected e, s') ∧ r = Rejected e).
Proof.
  unfold bind. destruct (m s) as [[a|e] s1]; intros H.
  - left. by exists a, s1.
  - right. exists e. by inversion H.
Qed.

Lemma bind_resolved {S A B} (m : M S A) (k : A → M S B) s a s1 :
  m s = (Resolved a, s1) → bind m k s = k a s1.
Proof. intros E. unfold bind. by rewrite E. Qed.

Lemma bind_rejected {S A B} (m : M S A) (k : A → M S B) s e s1 :
  m s = (Rejected e, s1) → bind m k s = (Rejected e, s1).
Proof. intros E. unfold bind. by rewrite E. Qed.

Lemma silent_bind_loop {A B} (m : M (St W) A) (k : A → M (St W) B) (lo hi : nat)
    (st st' : St W) r :
  Exchange.silent m →
  (∀ a st1 r' st2, calls st1 = calls st → k a st1 = (r', st2) →
                   (lo ≤ calls st2 ≤ hi)%nat) →
  (lo ≤ calls st ≤ hi)%nat →
  bind m k st = (r, st') → (lo ≤ calls st' ≤ hi)%nat.
Proof.
  intros Hm Hk Hst H. specialize (Hm st).
  apply bind_inv in H as [(a & st1 & E & H)|(e & E & ->)]; rewrite E in Hm; simpl in Hm.
  - by eapply Hk.
  - by rewrite Hm.
Qed.

Lemma gemini_loop_requests maxLoops systemPrompt tools ctx contents (st st' : St W) r :
  gemini_loop allTools JSON_parse gemini_api maxLoops systemPrompt tools ctx contents st
    = (r, st') →
  (calls st + Nat.min 1 maxLoops ≤ calls st' ≤ calls st + maxLoops)%nat.
Proof.
  revert contents st st' r.
  induction maxLoops as [|n IH]; intros contents st st' r; simpl.
  { intros [= _ <-]. lia. }
  unfold bind at 1, tick. simpl.
  set (st1 := Build_St _ _ _ _).
  assert (calls st1 = S (calls st)) as Hst1 by done. clearbody st1.
  destruct (gemini_api _ _) as [e|status body|[parts|]];
    try (intros [= _ <-]; lia).
  destruct (0 <? _)%nat; [|intros [= _ <-]; lia].
  intros H.
  eapply (silent_bind_loop _ _ (calls st + 1) (calls st + S n) st1);
    [apply quiet_silent, quiet_gemini_run_calls| |lia|exact H].
  intros rs st2 r' st3 C Hk. simpl in Hk. apply IH in Hk. lia.
Qed.

Lemma ollama_loop_requests maxLoops tools ctx messages (st st' : St W) r :
  ollama_loop allTools JSON_parse match_tool_call Date_now ollama_api
    maxLoops tools ctx messages st = (r, st') →
  (calls st + Nat.min 1 maxLoops ≤ calls st' ≤ calls st + maxLoops)%nat.
Proof.
  revert messages st st' r.
  induction maxLoops as [|n IH]; intros messages st st' r; simpl.
  { intros [= _ <-]. lia. }
  unfold bind at 1, tick. simpl.
  set (st1 := Build_St _ _ _ _).
  assert (calls st1 = S (calls st)) as Hst1 by done. clearbody st1.
  destruct (ollama_api _ _) as [e|status body|[msg|]];
    try (intros [= _ <-]; lia).
  assert (∀ ms (st2 st3 : St W) r', calls st2 = calls st1 →
            ollama_loop allTools JSON_parse match_tool_call Date_now ollama_api n tools
              ctx ms st2 = (r', st3) →
            (calls st + 1 ≤ calls st3 ≤ calls st + S n)%nat) as Hnext.
  { intros ms st2 st3 r' C Hrun. apply IH in Hrun. lia. }
  assert (∀ nm args,
            (await result := Agent.executeTool allTools nm args ctx in
             checkToolResultForMedia JSON_parse result ;;;
             ollama_loop allTools JSON_parse match_tool_call Date_now ollama_api n tools
               ctx ((messages ++ [msg]) ++
                    [tool_message result ("fallback-" +:+ pretty (Date_now (calls st)))]))
              st1 = (r, st') →
            (calls st + 1 ≤ calls st' ≤ calls st + S n)%nat) as Hfallback.
  { intros nm args H.
    eapply (silent_bind_loop _ _ (calls st + 1) (calls st + S n) st1);
      [apply quiet_silent, (quiet_executeTool allTools nm args ctx)| |lia|exact H].
    intros result st2 r' st3 C Hrun. simpl in Hrun.
    eapply (silent_bind_loop _ _ (calls st + 1) (calls st + S n) st2);
      [apply quiet_silent, (quiet_checkToolResultForMedia JSON_parse result)| |lia
      |exact Hrun].
    intros [] st4 r'' st5 C' Hloop. eapply Hnext; [|exact Hloop]. congruence. }
  destruct (o_tool_calls msg) as [[|tc tcs]|].
  - destruct (parseToolCallFromText _ _ _ _) as [[nm args]|];
      [apply Hfallback|intros [= _ <-]; lia].
  - intros H.
    eapply (silent_bind_loop
              (ollama_run_calls allTools JSON_parse ctx (tc :: tcs) (messages ++ [msg]))
              _ (calls st + 1) (calls st + S n) st1);
      [apply silent_ollama_run_calls| |lia|exact H].
    intros ms st2 r' st3 C Hrun. by eapply Hnext.
  - destruct (parseToolCallFromText _ _ _ _) as [[nm args]|];
      [apply Hfallback|intros [= _ <-]; lia].
Qed.

(** X1. Whatever the Gemini back end answers (tool requests, text, errors,
    malformed replies) and whatever the tools do, one call of [chatGemini]
    sends at least one and at most ten requests. *)
Theorem chatGemini_sends_at_most_ten message dbHistory systemPrompt uid media (st : St W) :
  let st' := snd (chatGemini allTools JSON_parse gemini_api message dbHistory
                    systemPrompt uid media st) in
  (calls st + 1 ≤ calls st' ≤ calls st + 10)%nat.
Proof.
  intros st'. subst st'.
  destruct (chatGemini _ _ _ _ _ _ _ _ st) as [r st'] eqn:H. simpl.
  unfold chatGemini in H.
  apply bind_inv in H as [(t & st1 & E & H)|(e & E & _)].
  - injection H as _ <-. by apply gemini_loop_requests in E.
  - by apply gemini_loop_requests in E.
Qed.

(** X2. The same for Ollama, including the turns spent on tool calls scraped
    from the reply text and the case where the arguments of a call do not
    parse: [chatOllama] sends at least one and at most ten requests. *)
Theorem chatOllama_sends_at_most_ten message dbHistory systemPrompt uid (st : St W) :
  let st' := snd (chatOllama allTools JSON_parse match_tool_call Date_now ollama_api
                    message dbHistory systemPrompt uid st) in
  (calls st + 1 ≤ calls st' ≤ calls st + 10)%nat.
Proof.
  intros st'. subst st'.
  destruct (chatOllama _ _ _ _ _ _ _ _ _ st) as [r st'] eqn:H. simpl.
  unfold chatOllama in H.
  apply bind_inv in H as [(t & st1 & E & H)|(e & E & _)].
  - injection H as _ <-. by apply ollama_loop_requests in E.
  - by apply ollama_loop_requests in E.
Qed.

(** What a tool call leaves of the exchange state: only the world the tools
    act on and the media side channel may differ. *)
Lemma executeTool_frame nm args ctx (st : St W) :
  ∃ result w',
    Tools.executeTool allTools nm args (Some ctx) (world st) = (Resolved result, w')
    ∧ Agent.executeTool allTools nm args ctx st
      = (Resolved result, {| media_out := media_out st; calls := calls st;
                             saved := saved st; world := w' |}).
Proof.
  unfold Agent.executeTool.
  destruct (executeTool_resolves allTools nm args (Some ctx) (world st)) as (s & w' & E).
  exists s, w'. by rewrite E.
Qed.

Lemma checkToolResultForMedia_frame result (st : St W) :
  ∃ mo, checkToolResultForMedia JSON_parse result st
        = (Resolved tt, {| media_out := mo; calls := calls st; saved := saved st;
                           world := world st |}).
Proof.
  destruct st as [mo c sv w]. unfold checkToolResultForMedia.
  destruct (JSON_parse result) as [[]|]; unfold ret, bind, set_media, modify; simpl;
    repeat (destruct (_ && _); simpl); by eexists.
Qed.

Lemma results_in_order_cons ctx nm args rest (w w1 : W) result :
  Tools.executeTool allTools nm args (Some ctx) w = (Resolved result, w1) →
  Exchange.results_in_order allTools ctx ((nm, args) :: rest) w
  = (result :: fst (Exchange.results_in_order allTools ctx rest w1),
     snd (Exchange.results_in_order allTools ctx rest w1)).
Proof.
  intros E. cbn [Exchange.results_in_order]. rewrite E.
  by destruct (Exchange.results_in_order allTools ctx rest w1).
Qed.

(** X3. Every tool call of a model turn gets its own result back, in the
    order the calls were requested.  The calls are executed one after the
    other, each on the world the calls before it left.  The function
    responses of a Gemini turn pair the name of each requested call with the
    result of that call; the tool results of an Anthropic turn pair the id of
    each [tool_use] block with the result of that block's call; and, when
    the arguments of every call of an Ollama turn parse, the tool messages
    appended to the conversation carry, call by call, the id of the call and
    the result of that call as content.  Model requests and saved messages
    are untouched, and the world is the one the last call left. *)
Theorem tool_results_keep_request_order ctx (st : St W) :
  (∀ ps,
     let fcs := omap functionCall ps in
     let out := Exchange.results_in_order allTools ctx
                  ((λ fc, (fc_name fc, fc_args fc)) <$> fcs) (world st) in
     List.length (fst out) = List.length fcs
     ∧ ∃ st', gemini_run_calls allTools JSON_parse ctx ps st
              = (Resolved (zip_with (λ fc result, PFunctionResponse (fc_name fc) result)
                             fcs (fst out)), st')
              ∧ world st' = snd out ∧ calls st' = calls st ∧ saved st' = saved st)
  ∧ (∀ blocks,
       let uses := Exchange.tool_uses blocks in
       let out := Exchange.results_in_order allTools ctx
                    ((λ u, (u.1.2, u.2)) <$> uses) (world st) in
       List.length (fst out) = List.length uses
       ∧ ∃ st', anthropic_run_calls allTools JSON_parse ctx blocks st
                = (Resolved (zip_with (λ u result, BToolResult u.1.1 result)
                               uses (fst out)), st')
                ∧ world st' = snd out ∧ calls st' = calls st ∧ saved st' = saved st)
  ∧ (∀ tcs messages,
       Forall (λ tc, is_Some (JSON_parse (tc_arguments tc))) tcs →
       let out := Exchange.results_in_order allTools ctx
                    (Exchange.parsed_calls JSON_parse tcs) (world st) in
       List.length (fst out) = List.length tcs
       ∧ ∃ st', ollama_run_calls allTools JSON_parse ctx tcs messages st
                = (Resolved (messages
                             ++ zip_with (λ tc result, tool_message result (tc_id tc))
                                  tcs (fst out)), st')
                ∧ world st' = snd out ∧ calls st' = calls st ∧ saved st' = saved st).
Proof.
  split; [|split].
  - intros ps. revert st. induction ps as [|p ps IH]; intros st; cbv zeta.
    { simpl. split; [done|]. by eexists. }
    cbn [omap list_omap gemini_run_calls].
    destruct (functionCall p) as [fc|]; [|apply IH]. cbn [fmap list_fmap].
    destruct (executeTool_frame (fc_name fc) (fc_args fc) ctx st) as (result & w' & Ht & E).
    rewrite (results_in_order_cons _ _ _ _ _ _ _ Ht). cbn [fst snd].
    erewrite bind_resolved by exact E.
    match goal with |- context [bind (checkToolResultForMedia _ _) _ ?s] =>
      destruct (checkToolResultForMedia_frame result s) as (mo & E2) end.
    erewrite bind_resolved by exact E2.
    match goal with |- context [bind (gemini_run_calls _ _ _ _) _ ?s] =>
      destruct (IH s) as (Hlen & st' & E3 & Hw & Hc & Hs) end.
    cbn [world calls saved] in *.
    erewrite bind_resolved by exact E3.
    split; [simpl; by rewrite Hlen|]. by exists st'.
  - intros blocks. revert st. induction blocks as [|b blocks IH]; intros st; cbv zeta.
    { simpl. split; [done|]. by eexists. }
    unfold Exchange.tool_uses in *. cbn [omap list_omap anthropic_run_calls].
    destruct b as [t|id nm input|mt d|tid c]; try apply IH. cbn [fmap list_fmap fst snd].
    destruct (executeTool_frame nm input ctx st) as (result & w' & Ht & E).
    rewrite (results_in_order_cons _ _ _ _ _ _ _ Ht). cbn [fst snd].
    erewrite bind_resolved by exact E.
    match goal with |- context [bind (checkToolResultForMedia _ _) _ ?s] =>
      destruct (checkToolResultForMedia_frame result s) as (mo & E2) end.
    erewrite bind_resolved by exact E2.
    match goal with |- context [bind (anthropic_run_calls _ _ _ _) _ ?s] =>
      destruct (IH s) as (Hlen & st' & E3 & Hw & Hc & Hs) end.
    cbn [world calls saved] in *.
    erewrite bind_resolved by exact E3.
    split; [simpl; by rewrite Hlen|]. by exists st'.
  - intros tcs. revert st.
    induction tcs as [|tc tcs IH]; intros st messages Hparse; cbv zeta.
    { simpl. split; [done|]. eexists. by rewrite app_nil_r. }
    apply Forall_cons in Hparse as [[args Hargs] Hparse].
    unfold Exchange.parsed_calls in *. cbn [omap list_omap ollama_run_calls].
    rewrite Hargs. cbn [fmap option_fmap option_map].
    destruct (executeTool_frame (tc_name tc) args ctx st) as (result & w' & Ht & E).
    rewrite (results_in_order_cons _ _ _ _ _ _ _ Ht). cbn [fst snd].
    erewrite bind_resolved by exact E.
    match goal with |- context [bind (checkToolResultForMedia _ _) _ ?s] =>
      destruct (checkToolResultForMedia_frame result s) as (mo & E2) end.
    erewrite bind_resolved by exact E2.
    match goal with |- context [ollama_run_calls _ _ _ _ ?ms ?s] =>
      destruct (IH s ms Hparse) as (Hlen & st' & E3 & Hw & Hc & Hs) end.
    cbn [world calls saved] in *.
    split; [simpl; by rewrite Hlen|]. exists st'.
    rewrite E3. cbn [zip_with]. by rewrite <- app_assoc.
Qed.

Lemma gemini_run_one_call ctx fc (st : St W) result w1 :
  Tools.executeTool allTools (fc_name fc) (fc_args fc) (Some ctx) (world st)
    = (Resolved result, w1) →
  ∃ mo, gemini_run_calls allTools JSON_parse ctx [Exchange.call_part fc] st
        = (Resolved [PFunctionResponse (fc_name fc) result],
           {| media_out := mo; calls := calls st; saved := saved st; world := w1 |}).
Proof.
  intros Htool. simpl.
  destruct (executeTool_frame (fc_name fc) (fc_args fc) ctx st) as (r & w' & Ht & E).
  rewrite Htool in Ht. injection Ht as <- <-.
  erewrite bind_resolved by exact E.
  match goal with |- context [bind (checkToolResultForMedia _ _) _ ?s] =>
    destruct (checkToolResultForMedia_frame result s) as (mo & E2) end.
  erewrite bind_resolved by exact E2. by exists mo.
Qed.

(** X4. A two-turn exchange with Gemini.  If the model first asks for one
    tool and, once it is shown the conversation extended by its own turn and
    the tool's result, answers with text, then [chatGemini] returns that text
    after exactly two requests, and the tools' world is what that one tool
    call made it. *)
Theorem chatGemini_one_tool_then_answer message dbHistory systemPrompt uid media
    (st : St W) fc answer result w1 :
  let opening := Exchange.gemini_opening message dbHistory media in
  let tools := gemini_tools allTools media in
  gemini_api (calls st) {| g_systemInstruction := systemPrompt; g_contents := opening;
                           g_tools := tools |}
    = GOk (Some [Exchange.call_part fc]) →
  Tools.executeTool allTools (fc_name fc) (fc_args fc) (Some {| userId := uid |}) (world st)
    = (Resolved result, w1) →
  gemini_api (S (calls st))
    {| g_systemInstruction := systemPrompt;
       g_contents :=
         (opening ++ [{| g_role := "model"; g_parts := [PModel (Exchange.call_part fc)] |}])
         ++ [{| g_role := "user"; g_parts := [PFunctionResponse (fc_name fc) result] |}];
       g_tools := tools |}
    = GOk (Some [Exchange.text_part answer]) →
  answer ≠ "" →
  ∃ st', chatGemini allTools JSON_parse gemini_api message dbHistory systemPrompt uid
           media st = (Resolved answer, st')
         ∧ calls st' = (calls st + 2)%nat ∧ world st' = w1 ∧ saved st' = saved st.
Proof.
  intros opening tools H1 Htool H2 Hans.
  unfold chatGemini. fold (Exchange.gemini_opening message dbHistory media).
  fold opening. fold tools.
  change (gemini_loop allTools JSON_parse gemini_api 10) with
    (gemini_loop allTools JSON_parse gemini_api (S (S 8))).
  generalize 8%nat. intros n.
  unfold bind at 1.
  assert (∀ st0, calls st0 = calls st → world st0 = world st → saved st0 = saved st →
            ∃ st', gemini_loop allTools JSON_parse gemini_api (S (S n)) systemPrompt tools
                     {| userId := uid |} opening st0 = (Resolved answer, st')
                   ∧ calls st' = (calls st + 2)%nat ∧ world st' = w1
                   ∧ saved st' = saved st) as Hloop.
  { intros st0 Hc Hw Hs. simpl gemini_loop.
    erewrite bind_resolved by reflexivity. rewrite Hc, H1. simpl.
    match goal with |- bind _ _ ?s = _ ∧ _ ∨ _ => idtac | |- ∃ _, bind _ _ ?s = _ ∧ _ =>
      destruct (gemini_run_one_call {| userId := uid |} fc s result w1) as (mo & E);
        [by rewrite Hw|];
      erewrite (bind_resolved
                  (gemini_run_calls allTools JSON_parse {| userId := uid |}
                     [Exchange.call_part fc])) by exact E
    end.
    erewrite bind_resolved by reflexivity. simpl. rewrite H2. simpl.
    destruct (String.eqb_spec answer "") as [|_]; [done|]. simpl.
    eexists. split; [reflexivity|]. simpl. split; [lia|]. split; [done|].
    by rewrite Hs. }
  destruct (Hloop st) as (st' & -> & C & Hw & Hs); [done..|].
  exists st'. split; [|done]. unfold ret, or_str.
  by destruct (String.eqb_spec answer "").
Qed.

End RequestBounds.

Lemma tool_results_keep_request_order_witness :
  ∃ st',
    ollama_run_calls Scenario.registry Scenario.JSON_parse {| userId := "Ualice" |}
      [{| tc_id := "call_1"; tc_name := "echo"; tc_arguments := "{}" |};
       {| tc_id := "call_2"; tc_name := "fail"; tc_arguments := "{}" |}]
      [] Scenario.fresh_exchange
    = (Resolved [tool_message EmptyString "call_1";
                 tool_message "Error executing fail: Error: disk unreachable" "call_2"],
       st')
    ∧ world st' = ["echo"; "fail"].
Proof.
  destruct (proj2 (proj2 (tool_results_keep_request_order Scenario.registry
                            Scenario.JSON_parse {| userId := "Ualice" |}
                            Scenario.fresh_exchange))
              [{| tc_id := "call_1"; tc_name := "echo"; tc_arguments := "{}" |};
               {| tc_id := "call_2"; tc_name := "fail"; tc_arguments := "{}" |}] [])
    as (_ & st' & E & Hw & _).
  - repeat constructor; vm_compute; by eexists.
  - exists st'. split; [exact E | exact Hw].
Defined.

Lemma chatGemini_one_tool_then_answer_witness :
  ∃ st', chatGemini Scenario.registry Scenario.JSON_parse Script.gemini_search_then_done
           "look x up" [] SYSTEM_PROMPT "Ualice" None Scenario.fresh_exchange
         = (Resolved "done", st')
       ∧ calls st' = 2%nat ∧ world st' = ["echo"].
Proof.
  destruct (chatGemini_one_tool_then_answer Scenario.registry Scenario.JSON_parse
              Script.gemini_search_then_done "look x up" [] SYSTEM_PROMPT "Ualice" None
              Scenario.fresh_exchange
              {| fc_name := "echo"; fc_args := JObj [("text", JStr "x")] |}
              "done" "x" ["echo"]) as (st' & E & C & Hw & _).
  - reflexivity.
  - reflexivity.
  - reflexivity.
  - discriminate.
  - exists st'. split; [exact E|]. split; [exact C|exact Hw].
Defined.

(** ** What [chat] hands to [saveMessage] *)

Section Saving.
Context {W : Type}.
Variable allTools : list (ToolDefinition W).
Variable JSON_parse : string → option Json.
Variable match_tool_call : string → option (string * string).
Variable Date_now : nat → Z.
Variable gemini_api : nat → GeminiRequest → GeminiReply.
Variable ollama_api : nat → OllamaRequest → OllamaReply.
Variable anthropic_api : nat → AnthropicRequest → AnthropicReply.

Lemma unsaving_ret {A} (a : A) : Exchange.unsaving (W:=W) (ret a).
Proof. by intros st. Qed.

Lemma unsaving_throw {A} e : Exchange.unsaving (W:=W) (A:=A) (throw e).
Proof. by intros st. Qed.

Lemma unsaving_bind {A B} (m : M (St W) A) (k : A → M (St W) B) :
  Exchange.unsaving m → (∀ a, Exchange.unsaving (k a)) → Exchange.unsaving (bind m k).
Proof.
  intros Hm Hk st. unfold bind. specialize (Hm st).
  destruct (m st) as [[a|e] st1]; simpl in *; [|done].
  rewrite <- Hm. apply Hk.
Qed.

Lemma unsaving_try_catch {A} (m : M (St W) A) (h : Thrown → M (St W) A) :
  Exchange.unsaving m → (∀ e, Exchange.unsaving (h e)) →
  Exchange.unsaving (try_catch m h).
Proof.
  intros Hm Hh st. unfold try_catch. specialize (Hm st).
  destruct (m st) as [[a|e] st1]; simpl in *; [done|].
  rewrite <- Hm. apply Hh.
Qed.

Lemma unsaving_tick : Exchange.unsaving (W:=W) tick.
Proof. by intros st. Qed.

Lemma unsaving_executeTool nm args ctx :
  Exchange.unsaving (Agent.executeTool allTools nm args ctx).
Proof.
  intros st. destruct (executeTool_frame allTools nm args ctx st) as (r & w & _ & ->).
  done.
Qed.

Lemma unsaving_checkToolResultForMedia result :
  Exchange.unsaving (W:=W) (checkToolResultForMedia JSON_parse result).
Proof.
  intros st. destruct (checkToolResultForMedia_frame JSON_parse result st) as (mo & ->).
  done.
Qed.

Create HintDb unsaving.
Local Hint Resolve unsaving_ret unsaving_throw unsaving_tick unsaving_executeTool
  unsaving_checkToolResultForMedia : unsaving.

Ltac unsaving_steps :=
  repeat first
    [ apply unsaving_bind; [|intros ?]
    | progress auto with unsaving ].

Lemma unsaving_gemini_run_calls ctx ps :
  Exchange.unsaving (gemini_run_calls allTools JSON_parse ctx ps).
Proof.
  induction ps as [|p ps IH]; simpl; [auto with unsaving|].
  destruct (functionCall p); [|done]. unsaving_steps.
Qed.

Lemma unsaving_ollama_run_calls ctx tcs messages :
  Exchange.unsaving (ollama_run_calls allTools JSON_parse ctx tcs messages).
Proof.
  revert messages. induction tcs as [|tc tcs IH]; intros messages; simpl;
    [auto with unsaving|].
  destruct (JSON_parse (tc_arguments tc)); [|auto with unsaving].
  unsaving_steps.
Qed.

Lemma unsaving_anthropic_run_calls ctx bs :
  Exchange.unsaving (anthropic_run_calls allTools JSON_parse ctx bs).
Proof.
  induction bs as [|b bs IH]; simpl; [auto with unsaving|].
  destruct b; try done. unsaving_steps.
Qed.

Lemma unsaving_gemini_loop n systemPrompt tools ctx contents :
  Exchange.unsaving (gemini_loop allTools JSON_parse gemini_api n systemPrompt tools
                       ctx contents).
Proof.
  revert contents. induction n as [|n IH]; intros contents; simpl; [auto with unsaving|].
  apply unsaving_bind; [auto with unsaving|intros k].
  destruct (gemini_api _ _) as [e|status body|[parts|]]; auto with unsaving.
  destruct (0 <? _)%nat; [|auto with unsaving].
  apply unsaving_bind; [apply unsaving_gemini_run_calls|intros rs]. apply IH.
Qed.

Lemma unsaving_ollama_loop n tools ctx messages :
  Exchange.unsaving (ollama_loop allTools JSON_parse match_tool_call Date_now ollama_api
                       n tools ctx messages).
Proof.
  revert messages. induction n as [|n IH]; intros messages; simpl; [auto with unsaving|].
  apply unsaving_bind; [auto with unsaving|intros k].
  destruct (ollama_api _ _) as [e|status body|[msg|]]; auto with unsaving.
  assert (Exchange.unsaving
            match parseToolCallFromText allTools JSON_parse match_tool_call
                    (or_str (default "" (o_content msg)) "") with
            | Some (nm, args) =>
                await result := Agent.executeTool allTools nm args ctx in
                checkToolResultForMedia JSON_parse result ;;;
                ollama_loop allTools JSON_parse match_tool_call Date_now ollama_api n tools
                  ctx ((messages ++ [msg]) ++
                       [tool_message result ("fallback-" +:+ pretty (Date_now k))])
            | None => ret (or_str (default "" (o_content msg)) "")
            end) as Hfallback.
  { destruct (parseToolCallFromText _ _ _ _) as [[nm args]|]; [|auto with unsaving].
    unsaving_steps. }
  destruct (o_tool_calls msg) as [[|tc tcs]|]; try exact Hfallback.
  apply (unsaving_bind
           (ollama_run_calls allTools JSON_parse ctx (tc :: tcs) (messages ++ [msg])));
    [apply unsaving_ollama_run_calls|intros ms]. apply IH.
Qed.

Lemma unsaving_anthropic_loop fuel systemPrompt ctx history :
  Exchange.unsaving (anthropic_loop allTools JSON_parse anthropic_api fuel systemPrompt
                       ctx history).
Proof.
  revert history. induction fuel as [|n IH]; intros history; simpl;
    [auto with unsaving|].
  apply unsaving_bind; [auto with unsaving|intros k].
  destruct (anthropic_api _ _) as [e|content stop]; auto with unsaving.
  destruct (String.eqb stop "tool_use"); [|auto with unsaving].
  apply unsaving_bind; [apply unsaving_anthropic_run_calls|intros rs]. apply IH.
Qed.

Lemma unsaving_dispatch fuel env message dbHistory systemPrompt uid media :
  Exchange.unsaving (dispatch allTools JSON_parse match_tool_call Date_now gemini_api
                       ollama_api anthropic_api fuel env message dbHistory systemPrompt
                       uid media).
Proof.
  assert (Exchange.unsaving
            (await r := chatOllama allTools JSON_parse match_tool_call Date_now ollama_api
                          message dbHistory systemPrompt uid in ret (Some r))) as Hollama.
  { apply unsaving_bind; [|auto with unsaving].
    apply unsaving_bind; [apply unsaving_ollama_loop|auto with unsaving]. }
  assert (Exchange.unsaving
            (chatAnthropic allTools JSON_parse anthropic_api fuel message dbHistory
               systemPrompt uid media)) as Hanthropic.
  { apply unsaving_bind; [apply unsaving_anthropic_loop|].
    intros [content|]; auto with unsaving. }
  unfold dispatch. destruct (AI_PROVIDER env); try done.
  apply unsaving_try_catch.
  - apply unsaving_bind; [|auto with unsaving].
    apply unsaving_bind; [apply unsaving_gemini_loop|auto with unsaving].
  - intros e. destruct (env_set _); [done|auto with unsaving].
Qed.

(** X5. What one call of [chat] hands to [saveMessage] ([saved] is the list
    of these calls; what a tool writes to the session table on its own, as
    [sessions_send] does, is not among them).  With no provider configured
    [chat] saves nothing.  Otherwise it saves a text turn before the model is
    asked, and the assistant's reply only if the exchange produced one; for
    a turn with media it saves the user's entry after the reply, as
    ["[Image: ...]"], ["[Video: ...]"] or ["[Audio: ...]"] around the reply
    (its first 200 characters for an image), and it saves nothing at all
    when the exchange fails. *)
Theorem chat_stores_the_exchange fuel env dbHistory memory uid message media (st : St W) :
  let out := chat allTools JSON_parse match_tool_call Date_now gemini_api ollama_api
               anthropic_api fuel env dbHistory memory uid message media st in
  saved (snd out) =
  saved st ++
  match AI_PROVIDER env with
  | none => []
  | _ =>
      (if media is Some _ then [] else [("user", message)]) ++
      match fst out with
      | Resolved (Some cr) =>
          match media with
          | Some m =>
              [("user",
                "[" +:+ media_label m +:+ ": " +:+
                (if startsWith (mimeType m) "audio/" || startsWith (mimeType m) "video/"
                 then newlines_to_spaces (cr_text cr)
                 else newlines_to_spaces (take_str 200 (cr_text cr))) +:+ "]")]
          | None => []
          end ++ [("assistant", cr_text cr)]
      | _ => []
      end
  end.
Proof.
  assert (∀ prompt (s2 : St W) extra,
            saved s2 = saved st ++ extra →
            let out := (await reply := dispatch allTools JSON_parse match_tool_call Date_now
                                         gemini_api ollama_api anthropic_api fuel env
                                         message dbHistory prompt uid media in
                        match reply with
                        | None => ret None
                        | Some reply =>
                            match media with
                            | Some m =>
                                saveMessage "user"
                                  ("[" +:+ media_label m +:+ ": " +:+
                                   (if startsWith (mimeType m) "audio/"
                                       || startsWith (mimeType m) "video/"
                                    then newlines_to_spaces reply
                                    else newlines_to_spaces (take_str 200 reply)) +:+ "]")
                            | None => ret tt
                            end ;;;
                            saveMessage "assistant" reply ;;;
                            await out := gets media_out in
                            ret (Some {| cr_text := reply;
                                         cr_audio := lastAudioResult out;
                                         cr_imageUrl := if truthy (lastImageUrl out)
                                                        then lastImageUrl out else None |})
                        end) s2 in
            saved (snd out) = saved st ++ extra ++
              match fst out with
              | Resolved (Some cr) =>
                  match media with
                  | Some m =>
                      [("user",
                        "[" +:+ media_label m +:+ ": " +:+
                        (if startsWith (mimeType m) "audio/"
                            || startsWith (mimeType m) "video/"
                         then newlines_to_spaces (cr_text cr)
                         else newlines_to_spaces (take_str 200 (cr_text cr))) +:+ "]")]
                  | None => []
                  end ++ [("assistant", cr_text cr)]
              | _ => []
              end) as Hrest.
  { intros prompt s2 extra Hs2. cbv zeta.
    pose proof (unsaving_dispatch fuel env message dbHistory prompt uid media s2) as Hd.
    destruct (dispatch _ _ _ _ _ _ _ _ _ _ _ _ _ _ s2) as [[[reply|]|e] s3] eqn:E;
      cbn [fst snd] in Hd.
    - rewrite !(bind_resolved _ _ _ _ _ E).
      destruct media as [m|]; unfold bind, saveMessage, modify, gets, ret;
        cbn [fst snd saved cr_text]; rewrite Hd, Hs2; by rewrite <- !app_assoc.
    - rewrite !(bind_resolved _ _ _ _ _ E). unfold ret. cbn [fst snd].
      by rewrite Hd, Hs2, app_nil_r.
    - rewrite !(bind_rejected _ _ _ _ _ E). cbn [fst snd].
      by rewrite Hd, Hs2, app_nil_r. }
  cbv zeta. unfold chat.
  destruct (AI_PROVIDER env); try (unfold ret; cbn [fst snd]; by rewrite app_nil_r);
    (destruct media as [m|];
     erewrite bind_resolved by reflexivity;
     erewrite bind_resolved by reflexivity;
     match goal with
     | |- context [bind _ _ ?s2] => apply (Hrest _ s2)
     end; cbn [saved]; by rewrite ?app_nil_r).
Qed.

End Saving.

(* ================================================================== *)
(** * Further properties of the background tasks *)

Section TaskRegistry.
Import Spawn.

Lemma userRunning_count uid (s : Spawn.State) :
  userRunning uid s = Tasks.count_user uid (runningTasks s).
Proof. reflexivity. Qed.

Lemma count_user_insert uid k e (m : gmap string Running) :
  m !! k = None →
  Tasks.count_user uid (<[k := e]> m)
  = ((if decide (user_id (r_task e) = uid) then 1 else 0) + Tasks.count_user uid m)%nat.
Proof.
  intros Hk. unfold Tasks.count_user.
  rewrite (Permutation_length
             (filter_Permutation _ _ _ (map_to_list_insert m k e Hk))).
  rewrite filter_cons. simpl. by destruct (decide _).
Qed.

Lemma count_user_delete uid k e (m : gmap string Running) :
  m !! k = Some e →
  Tasks.count_user uid m
  = ((if decide (user_id (r_task e) = uid) then 1 else 0)
     + Tasks.count_user uid (delete k m))%nat.
Proof.
  intros Hk. rewrite <- (insert_delete_id m k e Hk) at 1.
  apply count_user_insert, lookup_delete_eq.
Qed.

Lemma count_user_delete_le uid k (m : gmap string Running) :
  (Tasks.count_user uid (delete k m) ≤ Tasks.count_user uid m)%nat.
Proof.
  destruct (m !! k) as [e|] eqn:Hk.
  - rewrite (count_user_delete uid k e m Hk). lia.
  - by rewrite delete_id.
Qed.

End TaskRegistry.

Section TaskRows.
Import Spawn.

Lemma same_task_refl t : Tasks.same_task t t.
Proof. by repeat split. Qed.

Lemma same_task_trans a b c :
  Tasks.same_task a b → Tasks.same_task b c → Tasks.same_task a c.
Proof. unfold Tasks.same_task. intuition congruence. Qed.

Lemma keeps_rows_refl s : Tasks.keeps_rows s s.
Proof. intros k row H. exists row. split; [done | apply same_task_refl]. Qed.

Lemma keeps_rows_trans s1 s2 s3 :
  Tasks.keeps_rows s1 s2 → Tasks.keeps_rows s2 s3 → Tasks.keeps_rows s1 s3.
Proof.
  intros H12 H23 k row H.
  destruct (H12 k row H) as (row2 & H2 & S2).
  destruct (H23 k row2 H2) as (row3 & H3 & S3).
  exists row3. split; [done | by eapply same_task_trans].
Qed.

Lemma keeps_rows_table s s' :
  background_tasks s' = background_tasks s → Tasks.keeps_rows s s'.
Proof.
  intros E k row H. exists row. rewrite E. split; [done | apply same_task_refl].
Qed.

Lemma keeps_rows_alter f k s :
  (∀ t, Tasks.same_task t (f t)) → Tasks.keeps_rows s (with_table (alter f k) s).
Proof.
  intros Hf j row Hj. simpl. destruct (decide (j = k)) as [->|Hne].
  - rewrite lookup_alter_eq, Hj. simpl. eexists; split; [done | apply Hf].
  - rewrite lookup_alter_ne by done. eexists; split; [done | apply same_task_refl].
Qed.

Lemma keeps_rows_update_row k st res at_ s :
  Tasks.keeps_rows s (update_row k st res at_ s).
Proof. apply keeps_rows_alter. intros t. by repeat split. Qed.

Lemma insert_row_Some t s s' :
  insert_row t s = Some s' →
  background_tasks s !! id t = None ∧ s' = with_table (<[id t := t]>) s.
Proof.
  unfold insert_row. destruct (background_tasks s !! id t); [done|].
  intros [= <-]. done.
Qed.

Lemma keeps_rows_insert_row t s s' :
  insert_row t s = Some s' → Tasks.keeps_rows s s'.
Proof.
  intros [Hnone ->]%insert_row_Some k row H. simpl.
  exists row. split; [|apply same_task_refl].
  rewrite lookup_insert_ne; [done|]. intros E. congruence.
Qed.

Lemma keeps_rows_body_catch taskId uid signal err clock s :
  Tasks.keeps_rows s (snd (body_catch taskId uid signal err clock s)).
Proof.
  unfold body_catch. destruct (bool_decide _); simpl.
  - by apply keeps_rows_table.
  - eapply keeps_rows_trans; [apply keeps_rows_update_row|].
    by apply keeps_rows_table.
Qed.

Lemma keeps_rows_executeBackgroundTask env taskId uid signal clock s :
  Tasks.keeps_rows s (executeBackgroundTask env taskId uid signal clock s).
Proof.
  unfold executeBackgroundTask.
  repeat match goal with
  | |- context [body_catch ?a ?b ?c ?d ?e ?f] =>
      let H := fresh "H" in
      pose proof (keeps_rows_body_catch a b c d e f) as H;
      destruct (body_catch a b c d e f) as [[] ?]; simpl in H
  end;
  repeat case_match; try done;
  try (eapply keeps_rows_trans; [eassumption|]; by apply keeps_rows_table);
  by apply keeps_rows_table.
Qed.

Lemma keeps_rows_cancelTask taskId clock s :
  Tasks.keeps_rows s (snd (cancelTask taskId clock s)).
Proof.
  unfold cancelTask. destruct (runningTasks s !! taskId); simpl;
    [|apply keeps_rows_refl].
  eapply keeps_rows_trans; [|apply keeps_rows_alter; intros t; by repeat split].
  by apply keeps_rows_table.
Qed.

Lemma keeps_rows_steerTask env taskId newMessage newId clock s :
  Tasks.keeps_rows s (snd (steerTask env taskId newMessage newId clock s)).
Proof.
  unfold steerTask. destruct (runningTasks s !! taskId) as [entry|]; simpl;
    [|apply keeps_rows_refl].
  match goal with |- context [insert_row ?t ?s3] =>
    assert (Tasks.keeps_rows s s3) as H3
      by (eapply keeps_rows_trans; [|apply keeps_rows_update_row];
          by apply keeps_rows_table);
    destruct (insert_row t s3) as [s4|] eqn:E
  end; simpl; [|done].
  eapply keeps_rows_trans; [exact H3|].
  eapply keeps_rows_trans; [by eapply keeps_rows_insert_row|].
  eapply keeps_rows_trans; [|apply keeps_rows_executeBackgroundTask].
  by apply keeps_rows_table.
Qed.

Lemma keeps_rows_execute env input ctx newId clock s :
  Tasks.keeps_rows s (snd (execute env input ctx newId clock s)).
Proof.
  unfold execute.
  destruct (String.eqb _ ""); [apply keeps_rows_refl|].
  destruct (negb _); [apply keeps_rows_refl|].
  destruct (_ <=? _)%nat; [apply keeps_rows_refl|].
  match goal with |- context [insert_row ?t ?s0] =>
    destruct (insert_row t s0) as [s1|] eqn:E
  end; [|apply keeps_rows_refl].
  cbn [new_controller]. destruct (getActiveProvider env) as [provider defaultModel].
  cbn [snd].
  eapply keeps_rows_trans; [by eapply keeps_rows_insert_row|].
  eapply keeps_rows_trans; [|apply keeps_rows_executeBackgroundTask].
  by apply keeps_rows_table.
Qed.

Lemma keeps_rows_model_settles i outcome clock s :
  Tasks.keeps_rows s (model_settles i outcome clock s).
Proof.
  unfold model_settles.
  destruct (bodies s !! i) as [b|]; [|apply keeps_rows_refl].
  destruct (b_phase b); [|apply keeps_rows_refl].
  assert (∀ err, Tasks.keeps_rows s
            (let '(waits, s') := body_catch (b_taskId b) (b_userId b) (b_signal b) err
                                   clock (with_bodies (delete i) s) in
             if waits
             then with_bodies (λ bs, bs ++ [{| b_taskId := b_taskId b; b_userId := b_userId b;
                                               b_signal := b_signal b; b_phase := AwaitPush |}]) s'
             else s')) as Hfail.
  { intros err.
    pose proof (keeps_rows_body_catch (b_taskId b) (b_userId b) (b_signal b) err
                  clock (with_bodies (delete i) s)) as H.
    destruct (body_catch _ _ _ _ _ _) as [[] s']; simpl in H.
    - eapply keeps_rows_trans; [by apply (keeps_rows_table s (with_bodies (delete i) s))|].
      eapply keeps_rows_trans; [exact H|]. by apply keeps_rows_table.
    - eapply keeps_rows_trans; [by apply (keeps_rows_table s (with_bodies (delete i) s))|].
      exact H. }
  destruct outcome as [res|err]; [|apply Hfail].
  destruct (bool_decide _); [apply Hfail|].
  eapply keeps_rows_trans; [by apply (keeps_rows_table s (with_bodies (delete i) s))|].
  eapply keeps_rows_trans; [apply keeps_rows_update_row|].
  by apply keeps_rows_table.
Qed.

Lemma keeps_rows_step env s op : Tasks.keeps_rows s (Tasks.step env s op).
Proof.
  destruct op; simpl.
  - by apply keeps_rows_table.
  - apply keeps_rows_execute.
  - apply keeps_rows_cancelTask.
  - apply keeps_rows_steerTask.
  - unfold timeout_fires. destruct (bool_decide _); by apply keeps_rows_table.
  - apply keeps_rows_model_settles.
  - unfold push_settles. destruct (bodies s !! i) as [b|]; [|apply keeps_rows_refl].
    destruct (b_phase b); by apply keeps_rows_table.
Qed.

(** X6. Nothing the task manager does removes a row of [background_tasks]
    or rewrites who it belongs to: after any further operations (spawns,
    cancellations, steers, timeouts, settling model calls and pushes, process
    restarts) every row is still stored under its key with the same id,
    label, task text, model, owner and creation time. *)
Theorem task_rows_are_kept env s ops :
  Tasks.keeps_rows s (foldl (Tasks.step env) s ops).
Proof.
  induction ops as [|op ops IH] using rev_ind; [apply keeps_rows_refl|].
  rewrite foldl_app. simpl.
  eapply keeps_rows_trans; [exact IH | apply keeps_rows_step].
Qed.

End TaskRows.

Section TaskInvariant.
Import Spawn.

Lemma wf_core s s' :
  background_tasks s' = background_tasks s → runningTasks s' = runningTasks s →
  Tasks.well_formed s → Tasks.well_formed s'.
Proof. intros Ht Hr [H1 H2 H3]. split; rewrite ?Ht, ?Hr; done. Qed.

Lemma count_user_empty uid : Tasks.count_user uid ∅ = 0%nat.
Proof. unfold Tasks.count_user. by rewrite map_to_list_empty. Qed.

Lemma wf_empty : Tasks.well_formed empty.
Proof.
  split.
  - intros k row. cbn [background_tasks empty]. by rewrite lookup_empty.
  - intros k e. cbn [runningTasks empty]. by rewrite lookup_empty.
  - intros uid. cbn [runningTasks empty]. rewrite count_user_empty.
    unfold MAX_CHILDREN. lia.
Qed.

Lemma wf_restart s : Tasks.well_formed s → Tasks.well_formed (Tasks.restart s).
Proof.
  intros [H1 H2 H3]. split.
  - exact H1.
  - intros k e. cbn [runningTasks Tasks.restart]. by rewrite lookup_empty.
  - intros uid. cbn [runningTasks Tasks.restart]. rewrite count_user_empty.
    unfold MAX_CHILDREN. lia.
Qed.

Lemma wf_alter f k s :
  (∀ t, Tasks.same_task t (f t)) →
  Tasks.well_formed s → Tasks.well_formed (with_table (alter f k) s).
Proof.
  intros Hf [H1 H2 H3]. split; simpl; [| |done].
  - intros j row. destruct (decide (j = k)) as [->|Hne].
    + rewrite lookup_alter_eq. destruct (background_tasks s !! k) as [t|] eqn:E; [|done].
      simpl. intros [= <-]. destruct (Hf t) as (-> & _). by apply H1.
    + rewrite lookup_alter_ne by done. apply H1.
  - intros j e Hj. destruct (H2 j e Hj) as (row & Hrow & Hsame).
    destruct (decide (j = k)) as [->|Hne].
    + rewrite lookup_alter_eq, Hrow. simpl. eexists; split; [done|].
      eapply same_task_trans; [exact Hsame | apply Hf].
    + rewrite lookup_alter_ne by done. by exists row.
Qed.

Lemma wf_update_row k st res at_ s :
  Tasks.well_formed s → Tasks.well_formed (update_row k st res at_ s).
Proof. apply wf_alter. intros t. by repeat split. Qed.

Lemma wf_delete k s :
  Tasks.well_formed s → Tasks.well_formed (with_running (delete k) s).
Proof.
  intros [H1 H2 H3]. split; simpl; [done | |].
  - intros j e [_ Hj]%lookup_delete_Some. by apply H2.
  - intros uid. etrans; [apply count_user_delete_le | apply H3].
Qed.

Lemma wf_finish_body k c s :
  Tasks.well_formed s → Tasks.well_formed (finish_body k c s).
Proof. intros H. eapply wf_core; [..|apply (wf_delete k s H)]; done. Qed.

Lemma wf_body_catch taskId uid signal err clock s :
  Tasks.well_formed s →
  Tasks.well_formed (snd (body_catch taskId uid signal err clock s)).
Proof.
  intros H. unfold body_catch. destruct (bool_decide _); simpl.
  - by apply wf_finish_body.
  - eapply wf_core; [..|apply wf_update_row, H]; done.
Qed.

Lemma wf_with_bodies f s :
  Tasks.well_formed s → Tasks.well_formed (with_bodies f s).
Proof. by apply wf_core. Qed.

Lemma wf_executeBackgroundTask env taskId uid signal clock s :
  Tasks.well_formed s →
  Tasks.well_formed (executeBackgroundTask env taskId uid signal clock s).
Proof.
  intros H. unfold executeBackgroundTask.
  repeat match goal with
  | |- context [body_catch ?a ?b ?c ?d ?e ?f] =>
      let H' := fresh "H" in
      pose proof (wf_body_catch a b c d e f H) as H';
      destruct (body_catch a b c d e f) as [[] ?]; simpl in H'
  end;
  repeat case_match; try done; by apply wf_with_bodies.
Qed.

(** Registering a handle for a row just inserted. *)
Lemma wf_register t c ms s s1 :
  Tasks.well_formed s → insert_row t s = Some s1 →
  (Tasks.count_user (user_id t) (runningTasks s) < MAX_CHILDREN)%nat →
  Tasks.well_formed
    (with_running (<[id t := {| r_task := t; abortController := c; startedAt := ms |}]>)
       (snd (new_controller s1))).
Proof.
  intros [H1 H2 H3] [Hnone ->]%insert_row_Some Hlt.
  assert (runningTasks s !! id t = None) as Hfree.
  { destruct (runningTasks s !! id t) as [e|] eqn:E; [|done].
    destruct (H2 _ _ E) as (row & Hrow & _). congruence. }
  split; simpl.
  - intros j row [[<- <-]|[Hne Hj]]%lookup_insert_Some; [done | by apply H1].
  - intros j e [[<- <-]|[Hne Hj]]%lookup_insert_Some.
    + rewrite lookup_insert_eq. eexists; split; [done | apply same_task_refl].
    + rewrite lookup_insert_ne by done. by apply H2.
  - intros uid. rewrite count_user_insert by done. simpl.
    destruct (decide (user_id t = uid)) as [<-|]; [lia | apply H3].
Qed.

Lemma wf_cancelTask taskId clock s :
  Tasks.well_formed s → Tasks.well_formed (snd (cancelTask taskId clock s)).
Proof.
  intros H. unfold cancelTask. destruct (runningTasks s !! taskId); simpl; [|done].
  apply wf_alter; [intros t; by repeat split|].
  eapply wf_core; [..|apply (wf_delete taskId s H)]; done.
Qed.

Lemma wf_steerTask env taskId newMessage newId clock s :
  Tasks.well_formed s →
  Tasks.well_formed (snd (steerTask env taskId newMessage newId clock s)).
Proof.
  intros H. unfold steerTask.
  destruct (runningTasks s !! taskId) as [entry|] eqn:Hentry; simpl; [|done].
  match goal with |- context [insert_row ?t ?s3] =>
    assert (Tasks.well_formed s3) as H3
      by (apply wf_update_row;
          eapply wf_core; [..|apply (wf_delete taskId s H)]; done);
    assert (runningTasks s3 = delete taskId (runningTasks s)) as Hr by done;
    destruct (insert_row t s3) as [s4|] eqn:E
  end; simpl; [|done].
  apply wf_executeBackgroundTask.
  eapply (wf_register _ _ _ _ _ H3 E). rewrite Hr. cbn [user_id].
  pose proof (count_user_delete (user_id (r_task entry)) _ _ _ Hentry) as Hc.
  rewrite decide_True in Hc by done.
  pose proof (Tasks.within_cap _ H (user_id (r_task entry))). lia.
Qed.

Lemma wf_execute env input ctx newId clock s :
  Tasks.well_formed s →
  Tasks.well_formed (snd (execute env input ctx newId clock s)).
Proof.
  intros H. unfold execute.
  destruct (String.eqb _ ""); [done|].
  destruct (negb _); [done|].
  destruct (_ <=? _)%nat eqn:Hcap; [done|].
  apply Nat.leb_gt in Hcap.
  match goal with |- context [insert_row ?t ?s0] =>
    destruct (insert_row t s0) as [s1|] eqn:E
  end; [|done].
  cbn [new_controller]. destruct (getActiveProvider env) as [provider defaultModel].
  cbn [snd].
  apply wf_executeBackgroundTask.
  apply (wf_register _ _ _ _ _ H E). exact Hcap.
Qed.

Lemma wf_model_settles i outcome clock s :
  Tasks.well_formed s → Tasks.well_formed (model_settles i outcome clock s).
Proof.
  intros H. unfold model_settles.
  destruct (bodies s !! i) as [b|]; [|done].
  destruct (b_phase b); [|done].
  assert (∀ err, Tasks.well_formed
            (let '(waits, s') := body_catch (b_taskId b) (b_userId b) (b_signal b) err
                                   clock (with_bodies (delete i) s) in
             if waits
             then with_bodies (λ bs, bs ++ [{| b_taskId := b_taskId b; b_userId := b_userId b;
                                               b_signal := b_signal b; b_phase := AwaitPush |}]) s'
             else s')) as Hfail.
  { intros err.
    pose proof (wf_body_catch (b_taskId b) (b_userId b) (b_signal b) err
                  clock _ (wf_with_bodies (delete i) s H)) as H'.
    destruct (body_catch _ _ _ _ _ _) as [[] s']; simpl in H'; [|done].
    by apply wf_with_bodies. }
  destruct outcome as [res|err]; [|apply Hfail].
  destruct (bool_decide _); [apply Hfail|].
  apply wf_with_bodies.
  eapply wf_core; [..|apply wf_update_row, (wf_with_bodies (delete i) s H)]; done.
Qed.

Lemma wf_step env s op :
  Tasks.well_formed s → Tasks.well_formed (Tasks.step env s op).
Proof.
  intros H. destruct op; simpl.
  - by apply wf_restart.
  - by apply wf_execute.
  - by apply wf_cancelTask.
  - by apply wf_steerTask.
  - unfold timeout_fires. destruct (bool_decide _); [|done].
    eapply wf_core; [..|exact H]; done.
  - by apply wf_model_settles.
  - unfold push_settles. destruct (bodies s !! i) as [b|]; [|done].
    destruct (b_phase b); [done|]. by apply wf_finish_body, wf_with_bodies.
Qed.

Lemma wf_after env ops : Tasks.well_formed (Tasks.after env ops).
Proof.
  unfold Tasks.after.
  induction ops as [|op ops IH] using rev_ind; [apply wf_empty|].
  rewrite foldl_app. simpl. by apply wf_step.
Qed.

(** X7. No user ever has more than five entries in [runningTasks], whatever
    the history: the spawn tool checks the count, and the one path that
    registers a task without checking ([steerTask]) removes an entry of the
    same user first. *)
Theorem never_more_than_five_per_user env ops uid :
  (userRunning uid (Tasks.after env ops) ≤ 5)%nat.
Proof. apply (Tasks.within_cap _ (wf_after env ops) uid). Qed.

(** X8. Every entry of [runningTasks] has its row in [background_tasks]
    under the same key, and the record held in memory agrees with the row on
    id, label, task text, model, owner and creation time. *)
Theorem running_entry_has_its_row env ops k e :
  runningTasks (Tasks.after env ops) !! k = Some e →
  ∃ row, background_tasks (Tasks.after env ops) !! k = Some row
         ∧ id row = k ∧ id (r_task e) = k
         ∧ label row = label (r_task e) ∧ task row = task (r_task e)
         ∧ model row = model (r_task e) ∧ user_id row = user_id (r_task e)
         ∧ created_at row = created_at (r_task e).
Proof.
  intros He. pose proof (wf_after env ops) as [H1 H2 _].
  destruct (H2 k e He) as (row & Hrow & Hid & Hl & Ht & Hm & Hu & Hc).
  exists row. pose proof (H1 k row Hrow). repeat split; congruence.
Qed.

End TaskInvariant.

Section TaskBodies.
Import Spawn.

Lemma linked_mono s s' :
  background_tasks s' = background_tasks s → runningTasks s' = runningTasks s →
  bodies s' = bodies s → aborted s ⊆ aborted s' →
  (next_controller s ≤ next_controller s')%nat →
  Tasks.linked s → Tasks.linked s'.
Proof.
  intros Ht Hr Hb Ha Hn [H1 H2 H3 H4 H5 H6].
  split; rewrite ?Ht, ?Hr, ?Hb; try done.
  - intros b Hb' Hph. destruct (H4 b Hb' Hph) as [?|?]; [by left | right; set_solver].
  - intros b Hb'. specialize (H5 b Hb'). lia.
Qed.

Lemma linked_empty : Tasks.linked empty.
Proof.
  split; cbn [bodies runningTasks background_tasks empty];
    try (intros ? Hb; by apply elem_of_nil in Hb);
    try (intros ?? Hb; by apply elem_of_nil in Hb).
  - constructor.
  - intros k row. by rewrite lookup_empty.
Qed.

Lemma linked_restart s : Tasks.linked s → Tasks.linked (Tasks.restart s).
Proof.
  intros H. split; cbn [bodies runningTasks background_tasks Tasks.restart];
    try (intros ? Hb; by apply elem_of_nil in Hb);
    try (intros ?? Hb; by apply elem_of_nil in Hb).
  - constructor.
  - intros k row _ _. by rewrite lookup_empty.
Qed.

Lemma linked_new_controller s :
  Tasks.linked s → Tasks.linked (snd (new_controller s)).
Proof.
  intros [H1 H2 H3 H4 H5 H6]. split; simpl; try done.
  - intros b Hb Hph. destruct (H4 b Hb Hph) as [?|Ha]; [by left | right].
    apply elem_of_difference. split; [done|].
    rewrite elem_of_singleton. specialize (H5 b Hb). lia.
  - intros b Hb. specialize (H5 b Hb). lia.
Qed.

Lemma linked_alter f k s :
  (∀ t, status (f t) = cancelled → runningTasks s !! k = None) →
  Tasks.linked s → Tasks.linked (with_table (alter f k) s).
Proof.
  intros Hf [H1 H2 H3 H4 H5 H6]. split; simpl; try done.
  - intros b Hb. destruct (H1 b Hb) as [row Hrow].
    destruct (decide (b_taskId b = k)) as [<-|Hne].
    + rewrite lookup_alter_eq, Hrow. by eexists.
    + rewrite lookup_alter_ne by done. by eexists.
  - intros j row. destruct (decide (j = k)) as [->|Hne].
    + rewrite lookup_alter_eq. destruct (background_tasks s !! k) as [t|]; [|done].
      simpl. intros [= <-]. apply Hf.
    + rewrite lookup_alter_ne by done. apply H6.
Qed.

Lemma linked_update_row k st res at_ s :
  st ≠ cancelled → Tasks.linked s → Tasks.linked (update_row k st res at_ s).
Proof. intros Hst. apply linked_alter. intros t Hc. simpl in Hc. done. Qed.

Lemma linked_delete_entry k s :
  (∀ b, b ∈ bodies s → b_taskId b = k → b_phase b = AwaitModel →
        b_signal b ∈ aborted s) →
  Tasks.linked s → Tasks.linked (with_running (delete k) s).
Proof.
  intros Hk [H1 H2 H3 H4 H5 H6]. split; simpl; try done.
  - intros b e Hb [_ He]%lookup_delete_Some. by apply H3.
  - intros b Hb Hph. destruct (decide (b_taskId b = k)) as [Heq|Hne].
    + right. by apply Hk.
    + rewrite lookup_delete_ne by done. by apply H4.
  - intros j row Hrow Hst. destruct (decide (j = k)) as [->|Hne].
    + apply lookup_delete_eq.
    + rewrite lookup_delete_ne by done. by eapply H6.
Qed.

Lemma other_bodies_differ i b (l : list Body) x :
  l !! i = Some b → NoDup (b_taskId <$> l) → x ∈ delete i l →
  x ∈ l ∧ b_taskId x ≠ b_taskId b.
Proof.
  intros Hi Hnd Hx. split.
  - by apply (sublist_subseteq _ _ (sublist_delete l i)).
  - rewrite (delete_Permutation l i b Hi) in Hnd.
    rewrite fmap_cons in Hnd. apply NoDup_cons in Hnd as [Hnot _].
    intros E. apply Hnot. rewrite <- E. by apply list_elem_of_fmap_2.
Qed.

Lemma linked_remove_body i s :
  Tasks.linked s → Tasks.linked (with_bodies (delete i) s).
Proof.
  intros [H1 H2 H3 H4 H5 H6].
  assert (∀ x, x ∈ delete i (bodies s) → x ∈ bodies s) as Hsub
    by (intros x; apply (sublist_subseteq _ _ (sublist_delete (bodies s) i))).
  split; simpl; try done; try (intros; eauto).
  eapply sublist_NoDup; [exact H2 | apply fmap_sublist, sublist_delete].
Qed.

Lemma linked_add_body b s :
  is_Some (background_tasks s !! b_taskId b) →
  (∀ x, x ∈ bodies s → b_taskId x ≠ b_taskId b) →
  (∀ e, runningTasks s !! b_taskId b = Some e → abortController e = b_signal b) →
  (b_phase b = AwaitModel →
     is_Some (runningTasks s !! b_taskId b) ∨ b_signal b ∈ aborted s) →
  (b_signal b < next_controller s)%nat →
  Tasks.linked s → Tasks.linked (with_bodies (λ bs, bs ++ [b]) s).
Proof.
  intros Hrow Hnew Hsig Hlive Hlt [H1 H2 H3 H4 H5 H6].
  assert (∀ x, x ∈ bodies s ++ [b] → x ∈ bodies s ∨ x = b) as Hin.
  { intros x [?|Hx%list_elem_of_singleton]%elem_of_app; auto. }
  split; simpl; try done.
  - intros x [Hx| ->]%Hin; auto.
  - rewrite fmap_app. apply NoDup_app. split; [done|]. split.
    + intros k Hk Hk'. apply list_elem_of_singleton in Hk' as ->.
      apply list_elem_of_fmap in Hk as (x & Hx & Hxin). by apply (Hnew x Hxin).
    + simpl. apply NoDup_singleton.
  - intros x e [Hx| ->]%Hin; auto.
  - intros x [Hx| ->]%Hin; auto.
  - intros x [Hx| ->]%Hin; auto.
Qed.

Lemma linked_insert_row t s s' :
  insert_row t s = Some s' → status t ≠ cancelled →
  Tasks.linked s → Tasks.linked s'.
Proof.
  intros [Hnone ->]%insert_row_Some Hst [H1 H2 H3 H4 H5 H6].
  split; simpl; try done.
  - intros b Hb. destruct (decide (b_taskId b = id t)) as [->|Hne].
    + rewrite lookup_insert_eq. by eexists.
    + rewrite lookup_insert_ne by done. by apply H1.
  - intros j row [[<- <-]|[Hne Hj]]%lookup_insert_Some; [done | by eapply H6].
Qed.

Lemma linked_insert_entry k e s :
  (∀ b, b ∈ bodies s → b_taskId b ≠ k) →
  (∀ row, background_tasks s !! k = Some row → status row ≠ cancelled) →
  Tasks.linked s → Tasks.linked (with_running (<[k := e]>) s).
Proof.
  intros Hk Hrow [H1 H2 H3 H4 H5 H6]. split; simpl; try done.
  - intros b e' Hb. rewrite lookup_insert_ne by (intros E; by apply (Hk b Hb)).
    by apply H3.
  - intros b Hb Hph. rewrite lookup_insert_ne by (intros E; by apply (Hk b Hb)).
    by apply H4.
  - intros j row Hj Hst. destruct (decide (j = k)) as [->|Hne].
    + by destruct (Hrow row Hj).
    + rewrite lookup_insert_ne by done. by eapply H6.
Qed.

End TaskBodies.

Section TaskBodiesSteps.
Import Spawn.

Lemma linked_finish_after_body i b s :
  Tasks.linked s → bodies s !! i = Some b →
  Tasks.linked (finish_body (b_taskId b) (b_signal b) (with_bodies (delete i) s)).
Proof.
  intros H Hi. unfold finish_body.
  assert (Tasks.linked (with_running (delete (b_taskId b)) (with_bodies (delete i) s)))
    as L.
  { apply linked_delete_entry; [|by apply linked_remove_body].
    intros x Hx Heq _. exfalso.
    by destruct (other_bodies_differ i b (bodies s) x Hi (Tasks.bodies_distinct _ H) Hx). }
  eapply linked_mono; [..|exact L]; done.
Qed.

Lemma linked_settle_update i b st res at_ text s :
  Tasks.linked s → bodies s !! i = Some b → st ≠ cancelled →
  Tasks.linked
    (with_bodies (λ bs, bs ++ [{| b_taskId := b_taskId b; b_userId := b_userId b;
                                  b_signal := b_signal b; b_phase := AwaitPush |}])
       (push_message (b_userId b) text
          (update_row (b_taskId b) st res at_ (with_bodies (delete i) s)))).
Proof.
  intros H Hi Hst.
  assert (b ∈ bodies s) as Hb by (by eapply list_elem_of_lookup_2).
  apply linked_add_body; cbn [b_taskId b_signal b_phase].
  - simpl. rewrite lookup_alter_eq.
    destruct (Tasks.body_has_row _ H b Hb) as [row ->]. by eexists.
  - intros x Hx. simpl in Hx.
    by destruct (other_bodies_differ i b (bodies s) x Hi (Tasks.bodies_distinct _ H) Hx).
  - intros e He. simpl in He. by apply (Tasks.body_signal _ H).
  - discriminate.
  - simpl. by apply (Tasks.signals_allocated _ H).
  - pose proof (linked_update_row (b_taskId b) st res at_ _ Hst
                  (linked_remove_body i s H)) as L.
    eapply linked_mono; [..|exact L]; done.
Qed.

Lemma linked_model_fail i b err clock s :
  Tasks.linked s → bodies s !! i = Some b →
  Tasks.linked
    (let '(waits, s') := body_catch (b_taskId b) (b_userId b) (b_signal b) err clock
                           (with_bodies (delete i) s) in
     if waits
     then with_bodies (λ bs, bs ++ [{| b_taskId := b_taskId b; b_userId := b_userId b;
                                       b_signal := b_signal b; b_phase := AwaitPush |}]) s'
     else s').
Proof.
  intros H Hi. unfold body_catch. destruct (bool_decide _).
  - by apply linked_finish_after_body.
  - by apply linked_settle_update.
Qed.

Lemma linked_model_settles i outcome clock s :
  Tasks.linked s → Tasks.linked (model_settles i outcome clock s).
Proof.
  intros H. unfold model_settles.
  destruct (bodies s !! i) as [b|] eqn:Hi; [|done].
  destruct (b_phase b); [|done].
  destruct outcome as [res|err]; [|by apply linked_model_fail].
  destruct (bool_decide _); [by apply linked_model_fail|].
  by apply linked_settle_update.
Qed.

Lemma linked_push_settles i s :
  Tasks.linked s → Tasks.linked (push_settles i s).
Proof.
  intros H. unfold push_settles.
  destruct (bodies s !! i) as [b|] eqn:Hi; [|done].
  destruct (b_phase b); [done|]. by apply linked_finish_after_body.
Qed.

Lemma linked_timeout_fires c s :
  Tasks.linked s → Tasks.linked (timeout_fires c s).
Proof.
  intros H. unfold timeout_fires. destruct (bool_decide _); [|done].
  eapply linked_mono; [..|exact H]; try done. simpl. set_solver.
Qed.

(** Aborting the controller of a running entry and dropping the entry. *)
Lemma linked_abort_entry k entry s :
  Tasks.linked s → runningTasks s !! k = Some entry →
  Tasks.linked (with_running (delete k)
                  (with_aborted (λ a, {[abortController entry]} ∪ a) s)).
Proof.
  intros H He. apply linked_delete_entry.
  - intros b Hb Heq _. simpl. subst k.
    rewrite <- (Tasks.body_signal _ H b entry Hb He). set_solver.
  - eapply linked_mono; [..|exact H]; try done. simpl. set_solver.
Qed.

Lemma linked_cancelTask taskId clock s :
  Tasks.linked s → Tasks.linked (snd (cancelTask taskId clock s)).
Proof.
  intros H. unfold cancelTask.
  destruct (runningTasks s !! taskId) as [entry|] eqn:He; simpl; [|done].
  apply linked_alter.
  - intros t _. simpl. apply lookup_delete_eq.
  - by apply (linked_abort_entry taskId entry s H He).
Qed.

Lemma linked_register env t uid clock ms s s1 :
  Tasks.linked s → insert_row t s = Some s1 → status t = running →
  Tasks.linked
    (executeBackgroundTask env (id t) uid (next_controller s1) clock
       (with_running (<[id t := {| r_task := t; abortController := next_controller s1;
                                   startedAt := ms |}]>)
          (snd (new_controller s1)))).
Proof.
  intros H E Hst.
  pose proof (linked_insert_row t s s1 E ltac:(congruence) H) as L1.
  destruct (insert_row_Some _ _ _ E) as [Hnone Hs1].
  set (c := next_controller s1).
  set (e := {| r_task := t; abortController := c; startedAt := ms |}).
  set (s3 := with_running (<[id t := e]>) (snd (new_controller s1))).
  assert (∀ b, b ∈ bodies s3 → b_taskId b ≠ id t) as Hfresh.
  { intros b Hb Heq. subst s1. simpl in Hb.
    destruct (Tasks.body_has_row _ H b Hb) as [row Hrow]. congruence. }
  assert (Tasks.linked s3) as L3.
  { apply linked_insert_entry; [exact Hfresh | | by apply linked_new_controller].
    intros row. subst s1. simpl. rewrite lookup_insert_eq. intros [= <-]. congruence. }
  assert (c ∉ aborted s3) as Hc by (subst s3; simpl; set_solver).
  assert (is_Some (background_tasks s3 !! id t)) as Hrow
    by (subst s3 s1; simpl; rewrite lookup_insert_eq; by eexists).
  assert (runningTasks s3 !! id t = Some e) as He
    by (subst s3; simpl; apply lookup_insert_eq).
  assert (c < next_controller s3)%nat as Hlt by (subst s3 c; simpl; lia).
  clearbody s3.
  unfold executeBackgroundTask, body_catch.
  rewrite !(bool_decide_false _ Hc).
  destruct (String.eqb _ "none").
  - apply linked_add_body; cbn [b_taskId b_signal b_phase]; try done.
    + simpl. rewrite lookup_alter_eq. destruct Hrow as [row ->]. by eexists.
    + simpl. intros e'. rewrite He. by intros [= <-].
    + match goal with |- context [update_row (id t) failed ?r ?a s3] =>
        pose proof (linked_update_row (id t) failed r a s3 ltac:(done) L3) as L
      end.
      eapply linked_mono; [..|exact L]; done.
  - apply linked_add_body; cbn [b_taskId b_signal b_phase]; try done.
    + intros e'. rewrite He. by intros [= <-].
    + intros _. left. by eexists.
Qed.

Lemma linked_steerTask env taskId newMessage newId clock s :
  Tasks.linked s →
  Tasks.linked (snd (steerTask env taskId newMessage newId clock s)).
Proof.
  intros H. unfold steerTask.
  destruct (runningTasks s !! taskId) as [entry|] eqn:He; simpl; [|done].
  match goal with |- context [insert_row ?t ?s3] =>
    assert (Tasks.linked s3) as H3
      by exact (linked_alter _ taskId _
                  (λ _ _, lookup_delete_eq (runningTasks s) taskId)
                  (linked_abort_entry taskId entry s H He));
    destruct (insert_row t s3) as [s4|] eqn:E
  end; simpl; [|done].
  by apply (linked_register env _ _ clock _ _ s4 H3 E).
Qed.

Lemma linked_execute env input ctx newId clock s :
  Tasks.linked s →
  Tasks.linked (snd (execute env input ctx newId clock s)).
Proof.
  intros H. unfold execute.
  destruct (String.eqb _ ""); [done|].
  destruct (negb _); [done|].
  destruct (_ <=? _)%nat; [done|].
  match goal with |- context [insert_row ?t ?s0] =>
    destruct (insert_row t s0) as [s1|] eqn:E
  end; [|done].
  cbn [new_controller]. destruct (getActiveProvider env) as [provider defaultModel] eqn:Hp.
  cbn [snd].
  by apply (linked_register env _ _ clock _ _ s1 H E).
Qed.

Lemma linked_step env s op :
  Tasks.linked s → Tasks.linked (Tasks.step env s op).
Proof.
  intros H. destruct op; simpl.
  - by apply linked_restart.
  - by apply linked_execute.
  - by apply linked_cancelTask.
  - by apply linked_steerTask.
  - by apply linked_timeout_fires.
  - by apply linked_model_settles.
  - by apply linked_push_settles.
Qed.

Lemma linked_after env ops : Tasks.linked (Tasks.after env ops).
Proof.
  unfold Tasks.after.
  induction ops as [|op ops IH] using rev_ind; [apply linked_empty|].
  rewrite foldl_app. simpl. by apply linked_step.
Qed.

End TaskBodiesSteps.

Section CancelledIsFinal.
Import Spawn.

Lemma update_row_other k taskId st res at_ s :
  k ≠ taskId →
  background_tasks (update_row taskId st res at_ s) !! k = background_tasks s !! k.
Proof. intros Hne. simpl. by rewrite lookup_alter_ne. Qed.

Lemma body_catch_table taskId uid signal err clock s k :
  k ≠ taskId ∨ signal ∈ aborted s →
  background_tasks (snd (body_catch taskId uid signal err clock s)) !! k
  = background_tasks s !! k.
Proof.
  intros Hk. unfold body_catch. destruct (bool_decide _) eqn:Ha; [done|].
  apply bool_decide_eq_false in Ha. destruct Hk as [Hne|?]; [|done].
  simpl. by rewrite lookup_alter_ne.
Qed.

Lemma executeBackgroundTask_table env taskId uid signal clock s k :
  k ≠ taskId →
  background_tasks (executeBackgroundTask env taskId uid signal clock s) !! k
  = background_tasks s !! k.
Proof.
  intros Hne. unfold executeBackgroundTask.
  repeat match goal with
  | |- context [body_catch ?a ?b ?c ?d ?e ?f] =>
      let H' := fresh "H" in
      pose proof (body_catch_table a b c d e f k (or_introl Hne)) as H';
      destruct (body_catch a b c d e f) as [[] ?]; simpl in H'
  end;
  repeat case_match; done.
Qed.

Lemma register_table env t uid c clock e s s1 k row :
  insert_row t s = Some s1 → background_tasks s !! k = Some row →
  background_tasks
    (executeBackgroundTask env (id t) uid c clock
       (with_running (<[id t := e]>) (snd (new_controller s1)))) !! k = Some row.
Proof.
  intros [Hnone ->]%insert_row_Some Hk.
  assert (k ≠ id t) as Hne by congruence.
  rewrite executeBackgroundTask_table by done. simpl.
  by rewrite lookup_insert_ne.
Qed.

Lemma cancelled_row_survives_step env s op k row :
  Tasks.linked s →
  background_tasks s !! k = Some row → status row = cancelled →
  background_tasks (Tasks.step env s op) !! k = Some row.
Proof.
  intros L Hk Hst.
  pose proof (Tasks.cancelled_not_running _ L k row Hk Hst) as Hidle.
  destruct op; simpl.
  - done.
  - unfold execute.
    destruct (String.eqb _ ""); [done|].
    destruct (negb _); [done|].
    destruct (_ <=? _)%nat; [done|].
    match goal with |- context [insert_row ?t ?s0] =>
      destruct (insert_row t s0) as [s1|] eqn:E
    end; [|done].
    cbn [new_controller]. destruct (getActiveProvider env) as [provider defaultModel].
    cbn [snd]. by apply (register_table env _ _ _ clock _ s s1 k row E).
  - unfold cancelTask.
    destruct (runningTasks s !! taskId) as [entry|] eqn:He; simpl; [|done].
    rewrite lookup_alter_ne; [done | congruence].
  - unfold steerTask.
    destruct (runningTasks s !! taskId) as [entry|] eqn:He; simpl; [|done].
    assert (k ≠ taskId) as Hne by congruence.
    match goal with |- context [insert_row ?t ?s3] =>
      assert (background_tasks s3 !! k = Some row) as H3
        by (simpl; by rewrite lookup_alter_ne);
      destruct (insert_row t s3) as [s4|] eqn:E
    end; simpl; [|done].
    by apply (register_table env _ _ _ clock _ _ s4 k row E).
  - unfold timeout_fires. by destruct (bool_decide _).
  - unfold model_settles.
    destruct (bodies s !! i) as [b|] eqn:Hi; [|done].
    destruct (b_phase b) eqn:Hph; [|done].
    assert (k ≠ b_taskId b ∨ b_signal b ∈ aborted (with_bodies (delete i) s)) as Hor.
    { destruct (decide (k = b_taskId b)) as [->|]; [right | by left].
      destruct (Tasks.body_live _ L b (list_elem_of_lookup_2 _ _ _ Hi) Hph) as [[e He]|?];
        [congruence | done]. }
    assert (∀ err, background_tasks
              (let '(waits, s') := body_catch (b_taskId b) (b_userId b) (b_signal b) err
                                     clock (with_bodies (delete i) s) in
               if waits
               then with_bodies (λ bs, bs ++ [{| b_taskId := b_taskId b;
                                                 b_userId := b_userId b;
                                                 b_signal := b_signal b;
                                                 b_phase := AwaitPush |}]) s'
               else s') !! k = Some row) as Hfail.
    { intros err.
      pose proof (body_catch_table (b_taskId b) (b_userId b) (b_signal b) err clock
                    (with_bodies (delete i) s) k Hor) as H'.
      destruct (body_catch _ _ _ _ _ _) as [[] s']; simpl in H'; simpl; congruence. }
    destruct outcome as [res|err]; [|apply Hfail].
    destruct (bool_decide _) eqn:Ha; [apply Hfail|].
    apply bool_decide_eq_false in Ha. destruct Hor as [Hne|?]; [|done].
    simpl. by rewrite lookup_alter_ne.
  - unfold push_settles. destruct (bodies s !! i) as [b|]; [|done].
    by destruct (b_phase b).
Qed.

End CancelledIsFinal.

(** X9. Cancellation is final.  Once a row of [background_tasks] says
    [cancelled], nothing that happens afterwards changes that row: not a
    model call that answers or fails late, not the timeout, not a second
    cancel or a steer, not a new spawn. *)
Theorem cancelled_row_is_final env ops more k row :
  Spawn.background_tasks (Tasks.after env ops) !! k = Some row →
  Spawn.status row = Spawn.cancelled →
  Spawn.background_tasks (Tasks.after env (ops ++ more)) !! k = Some row.
Proof.
  intros Hk Hst. induction more as [|op more IH] using rev_ind.
  - by rewrite app_nil_r.
  - rewrite app_assoc. unfold Tasks.after in *. rewrite foldl_app. simpl.
    apply cancelled_row_survives_step; [apply linked_after | exact IH | exact Hst].
Qed.

Lemma running_entry_has_its_row_witness :
  ∃ row, Spawn.background_tasks
           (Tasks.after Scenario.spawn_env
              [Tasks.OpSpawn (Scenario.spawn_input "summarise the report") Scenario.alice
                 "a1b2c3d4" Scenario.noon]) !! "a1b2c3d4" = Some row
         ∧ Spawn.id row = "a1b2c3d4" ∧ Spawn.id (Spawn.r_task TaskScript.alice_entry) = "a1b2c3d4"
         ∧ Spawn.label row = Spawn.label (Spawn.r_task TaskScript.alice_entry)
         ∧ Spawn.task row = Spawn.task (Spawn.r_task TaskScript.alice_entry)
         ∧ Spawn.model row = Spawn.model (Spawn.r_task TaskScript.alice_entry)
         ∧ Spawn.user_id row = Spawn.user_id (Spawn.r_task TaskScript.alice_entry)
         ∧ Spawn.created_at row = Spawn.created_at (Spawn.r_task TaskScript.alice_entry).
Proof.
  apply (running_entry_has_its_row Scenario.spawn_env
           [Tasks.OpSpawn (Scenario.spawn_input "summarise the report") Scenario.alice
              "a1b2c3d4" Scenario.noon] "a1b2c3d4" TaskScript.alice_entry).
  vm_compute. reflexivity.
Defined.

Lemma cancelled_row_is_final_witness :
  Spawn.background_tasks
    (Tasks.after Scenario.spawn_env
       (TaskScript.spawn_then_cancel
        ++ [Tasks.OpModelSettles 0 (Resolved "the summary") Scenario.much_later;
            Tasks.OpPushSettles 0])) !! "a1b2c3d4"
  = Some TaskScript.cancelled_row.
Proof.
  apply (cancelled_row_is_final Scenario.spawn_env TaskScript.spawn_then_cancel
           [Tasks.OpModelSettles 0 (Resolved "the summary") Scenario.much_later;
            Tasks.OpPushSettles 0] "a1b2c3d4" TaskScript.cancelled_row).
  - vm_compute. reflexivity.
  - reflexivity.
Defined.

Section TaskOutcomes.
Import Spawn.

Lemma take_str_length n s : (String.length (take_str n s) ≤ n)%nat.
Proof.
  revert s. induction n as [|n IH]; intros [|c s]; simpl; try lia.
  specialize (IH s). lia.
Qed.

Lemma take_str_short n s : (String.length s ≤ n)%nat → take_str n s = s.
Proof.
  revert s. induction n as [|n IH]; intros [|c s]; simpl; try done; try lia.
  intros H. f_equal. apply IH. lia.
Qed.

Lemma length_cat a b :
  String.length (a +:+ b) = (String.length a + String.length b)%nat.
Proof.
  induction a as [|c a IH]; [done|].
  change (String c a +:+ b) with (String c (a +:+ b)). simpl. by rewrite IH.
Qed.

(** X10. After [cancelTask], the task is no longer running for the tools:
    a second cancel answers [false] and a steer answers [null], and neither
    changes anything (no second status write, no new task). *)
Theorem cancel_is_idempotent env taskId newMessage newId clock clock' s :
  let s1 := snd (cancelTask taskId clock s) in
  cancelTask taskId clock' s1 = (false, s1)
  ∧ steerTask env taskId newMessage newId clock' s1 = (Resolved None, s1).
Proof.
  cbv zeta.
  assert (runningTasks (snd (cancelTask taskId clock s)) !! taskId = None) as Hnone.
  { unfold cancelTask. destruct (runningTasks s !! taskId) eqn:E; simpl; [|done].
    apply lookup_delete_eq. }
  unfold cancelTask at 1, steerTask. by rewrite Hnone.
Qed.

(** X11. When the model call of a task that was not aborted settles, the
    outcome is written to the task's row and the owner is told once.  An
    answer makes the row [completed] with the first 10000 characters of the
    answer as result, and the push is the heading followed by the answer
    itself, or by its first 1500 characters and "..." when it is longer.  A
    failure makes the row [failed] with "Error: " and the first 5000
    characters of the error message ([err.message], or the thrown value as
    text) as result, and the push is the heading followed by the first 200
    characters of that message.  The entry of [runningTasks] is still there
    while the push is in flight. *)
Theorem settled_task_is_recorded i b row outcome clock s :
  bodies s !! i = Some b → b_phase b = AwaitModel → b_signal b ∉ aborted s →
  background_tasks s !! b_taskId b = Some row →
  let s' := model_settles i outcome clock s in
  let res :=
    match outcome with
    | Resolved answer => take_str 10000 answer
    | Rejected err => "Error: " +:+ take_str 5000 (message_or_string err)
    end in
  let text :=
    match outcome with
    | Resolved answer =>
        "✅ Task เสร็จแล้ว!" +:+ nl +:+ nl +:+
        (if (1500 <? String.length answer)%nat then take_str 1500 answer +:+ "..."
         else answer)
    | Rejected err => "❌ Task ล้มเหลว: " +:+ take_str 200 (message_or_string err)
    end in
  background_tasks s' !! b_taskId b
  = Some {| id := id row; label := label row; task := task row;
            status := (if outcome is Resolved _ then completed else failed);
            result := Some res; model := model row; user_id := user_id row;
            created_at := created_at row; completed_at := Some (now_iso clock) |}
  ∧ pushed s' = pushed s ++ [(b_userId b, text)]
  ∧ runningTasks s' = runningTasks s
  ∧ bodies s' = delete i (bodies s)
                ++ [{| b_taskId := b_taskId b; b_userId := b_userId b;
                       b_signal := b_signal b; b_phase := AwaitPush |}]
  ∧ match outcome with
    | Resolved answer =>
        (String.length res ≤ 10000)%nat
        ∧ (String.length text ≤ String.length ("✅ Task เสร็จแล้ว!" +:+ nl +:+ nl) + 1503)%nat
    | Rejected err =>
        (String.length res ≤ String.length "Error: " + 5000)%nat
        ∧ (String.length text ≤ String.length "❌ Task ล้มเหลว: " + 200)%nat
    end.
Proof.
  intros Hi Hph Hlive Hrow. cbv zeta. unfold model_settles. rewrite Hi, Hph.
  unfold body_catch. cbn [aborted with_bodies].
  rewrite !(bool_decide_false _ Hlive).
  destruct outcome as [answer|err].
  - split; [|split; [|split; [|split; [|split]]]]; try reflexivity.
    + cbn [background_tasks with_bodies push_message update_row with_table].
      by rewrite lookup_alter_eq, Hrow.
    + apply take_str_length.
    + destruct (1500 <? String.length answer)%nat eqn:E.
      * rewrite !length_cat. pose proof (take_str_length 1500 answer).
        change (String.length "...") with 3%nat. lia.
      * rewrite !length_cat. apply Nat.ltb_ge in E. lia.
  - split; [|split; [|split; [|split; [|split]]]]; try reflexivity.
    + cbn [background_tasks with_bodies push_message update_row with_table].
      by rewrite lookup_alter_eq, Hrow.
    + rewrite length_cat. apply Nat.add_le_mono_l, take_str_length.
    + rewrite length_cat. apply Nat.add_le_mono_l, take_str_length.
Qed.

Lemma delete_last {A} (l : list A) x : delete (List.length l) (l ++ [x]) = l.
Proof. by rewrite delete_middle, app_nil_r. Qed.

(** X12. Every way through the body of a background task releases it: once
    the model call has settled (answer, failure, or abort) and the
    notification push, if one was sent, has settled too, the task has no
    entry in [runningTasks], its timeout is disarmed and its body is gone. *)
Theorem task_body_releases_its_handle i b outcome clock s :
  bodies s !! i = Some b → b_phase b = AwaitModel →
  let s1 := model_settles i outcome clock s in
  let s2 := push_settles (List.length (bodies s) - 1) s1 in
  runningTasks s2 !! b_taskId b = None
  ∧ (b_signal b ∉ timeouts s2)
  ∧ bodies s2 = delete i (bodies s).
Proof.
  intros Hi Hph. cbv zeta.
  pose proof (length_delete (bodies s) i ltac:(by eexists)) as Hlen.
  assert (∀ s0, bodies s0 = delete i (bodies s) →
            push_settles (List.length (bodies s) - 1) s0 = s0) as Hidle.
  { intros s0 Hs0. unfold push_settles.
    rewrite (lookup_ge_None_2 (bodies s0)); [done|]. rewrite Hs0, Hlen. lia. }
  assert (∀ s0, bodies s0 = delete i (bodies s) →
            let s1 := with_bodies (λ bs, bs ++ [{| b_taskId := b_taskId b;
                                                   b_userId := b_userId b;
                                                   b_signal := b_signal b;
                                                   b_phase := AwaitPush |}]) s0 in
            let s2 := push_settles (List.length (bodies s) - 1) s1 in
            runningTasks s2 !! b_taskId b = None ∧ (b_signal b ∉ timeouts s2)
            ∧ bodies s2 = delete i (bodies s)) as Hpush.
  { intros s0 Hs0. cbv zeta. unfold push_settles. cbn [bodies with_bodies].
    rewrite <- Hlen, <- Hs0.
    rewrite (list_lookup_middle (bodies s0) [] _ _ eq_refl).
    cbn [b_phase b_taskId b_signal finish_body with_timeouts with_running with_bodies
         runningTasks timeouts bodies].
    rewrite delete_last. split; [apply lookup_delete_eq|]. split; [set_solver | done]. }
  assert (runningTasks (finish_body (b_taskId b) (b_signal b) (with_bodies (delete i) s))
            !! b_taskId b = None
          ∧ (b_signal b ∉ timeouts (finish_body (b_taskId b) (b_signal b)
                                      (with_bodies (delete i) s)))
          ∧ bodies (finish_body (b_taskId b) (b_signal b) (with_bodies (delete i) s))
            = delete i (bodies s)) as Hfin.
  { simpl. split; [apply lookup_delete_eq|]. split; [set_solver | done]. }
  unfold model_settles. rewrite Hi, Hph. unfold body_catch.
  cbn [aborted with_bodies].
  destruct (bool_decide (b_signal b ∈ aborted s)).
  - destruct outcome; rewrite Hidle by done; exact Hfin.
  - destruct outcome; apply Hpush; done.
Qed.

(** X13. Cancelling a task whose answer has just been recorded, while its
    notification is still being pushed, succeeds and overwrites the row:
    the status goes from [completed] to [cancelled], the stored answer and
    the success notification stay. *)
Theorem cancel_overwrites_a_completed_task i b entry row answer clock clock' s :
  bodies s !! i = Some b → b_phase b = AwaitModel → b_signal b ∉ aborted s →
  runningTasks s !! b_taskId b = Some entry →
  background_tasks s !! b_taskId b = Some row →
  let s1 := model_settles i (Resolved answer) clock s in
  let out := cancelTask (b_taskId b) clock' s1 in
  (∃ done_, background_tasks s1 !! b_taskId b = Some done_ ∧ status done_ = completed)
  ∧ fst out = true
  ∧ (∃ row', background_tasks (snd out) !! b_taskId b = Some row'
             ∧ status row' = cancelled
             ∧ result row' = Some (take_str 10000 answer)
             ∧ completed_at row' = Some (now_iso clock'))
  ∧ (∃ text, pushed (snd out) = pushed s ++ [(b_userId b, text)]).
Proof.
  intros Hi Hph Hlive He Hrow. cbv zeta. unfold cancelTask, model_settles.
  rewrite Hi, Hph. cbn [aborted with_bodies].
  rewrite !(bool_decide_false _ Hlive).
  cbn [runningTasks with_bodies push_message update_row with_table]. rewrite He.
  cbn [fst snd background_tasks with_table with_running with_aborted with_bodies
       push_message update_row pushed].
  split; [|split; [done|split]].
  - rewrite lookup_alter_eq, Hrow. by eexists.
  - rewrite !lookup_alter_eq, Hrow. by eexists.
  - by eexists.
Qed.

(** X14. The provider the background tasks use is the one the chat uses,
    when both read the same environment, and whenever there is a provider
    the reported default model is not empty. *)
Theorem background_provider_is_chat_provider (env : Env) (chat_env : Agent.Env) :
  Agent.GEMINI_API_KEY chat_env = GEMINI_API_KEY env →
  Agent.OLLAMA_MODEL chat_env = OLLAMA_MODEL env →
  Agent.ANTHROPIC_API_KEY chat_env = ANTHROPIC_API_KEY env →
  fst (getActiveProvider env)
  = match Agent.AI_PROVIDER chat_env with
    | Agent.gemini => "gemini" | Agent.ollama => "ollama"
    | Agent.anthropic => "anthropic" | Agent.none => "none"
    end
  ∧ (Agent.AI_PROVIDER chat_env ≠ Agent.none ↔ snd (getActiveProvider env) ≠ "").
Proof.
  intros Hg Ho Ha. unfold getActiveProvider, Agent.AI_PROVIDER.
  rewrite Hg, Ho, Ha.
  destruct (Agent.env_set (GEMINI_API_KEY env)) eqn:Eg.
  - split; [done|]. cbn [snd]. split; [|done]. intros _. unfold or_str.
    destruct (String.eqb _ "") eqn:E; [done|]. by apply String.eqb_neq in E.
  - destruct (Agent.env_set (OLLAMA_MODEL env)) eqn:Eo.
    + split; [done|]. cbn [snd]. split; [|done]. intros _.
      unfold Agent.env_set in Eo. destruct (OLLAMA_MODEL env) as [m|]; [|done].
      simpl in Eo. apply negb_true_iff, String.eqb_neq in Eo. exact Eo.
    + destruct (Agent.env_set (ANTHROPIC_API_KEY env)); split; done.
Qed.

End TaskOutcomes.

Lemma settled_task_is_recorded_witness :
  Spawn.pushed (Spawn.model_settles 0 (Resolved "the summary") Scenario.later
                  Scenario.one_task)
  = Spawn.pushed Scenario.one_task
    ++ [("Ualice", "✅ Task เสร็จแล้ว!" +:+ nl +:+ nl +:+ "the summary")].
Proof.
  destruct (settled_task_is_recorded 0 TaskScript.alice_body TaskScript.alice_row
              (Resolved "the summary") Scenario.later Scenario.one_task)
    as (_ & Hp & _).
  - vm_compute. reflexivity.
  - reflexivity.
  - vm_compute. discriminate.
  - vm_compute. reflexivity.
  - exact Hp.
Defined.

Lemma task_body_releases_its_handle_witness :
  Spawn.runningTasks
    (Spawn.push_settles (List.length (Spawn.bodies Scenario.one_task) - 1)
       (Spawn.model_settles 0 (Rejected Scenario.AbortError) Scenario.later
          Scenario.one_task)) !! "a1b2c3d4" = None.
Proof.
  destruct (task_body_releases_its_handle 0 TaskScript.alice_body
              (Rejected Scenario.AbortError) Scenario.later Scenario.one_task)
    as (H & _).
  - vm_compute. reflexivity.
  - reflexivity.
  - exact H.
Defined.

Lemma cancel_overwrites_a_completed_task_witness :
  fst (Spawn.cancelTask "a1b2c3d4" Scenario.much_later
         (Spawn.model_settles 0 (Resolved "the summary") Scenario.later
            Scenario.one_task)) = true.
Proof.
  destruct (cancel_overwrites_a_completed_task 0 TaskScript.alice_body
              TaskScript.alice_entry TaskScript.alice_row "the summary"
              Scenario.later Scenario.much_later Scenario.one_task)
    as (_ & H & _).
  - vm_compute. reflexivity.
  - reflexivity.
  - vm_compute. discriminate.
  - vm_compute. reflexivity.
  - vm_compute. reflexivity.
  - exact H.
Defined.

Lemma background_provider_is_chat_provider_witness :
  fst (Spawn.getActiveProvider Scenario.spawn_env) = "gemini".
Proof.
  destruct (background_provider_is_chat_provider Scenario.spawn_env TaskScript.chat_env)
    as (H & _); [reflexivity .. | exact H].
Defined.

(* ================================================================== *)
(** * Further properties of the scheduler *)

Section SchedulerTables.
Import Cron.
Variable Date_parse : string → option Z.
Variable cron_validate : string → bool.
Variable timezone_error : string → option Thrown.
Variable foreign_keys : bool.

Lemma scheduleJob_runs job clock (s : Cron.State) :
  cron_runs (snd (scheduleJob Date_parse cron_validate timezone_error job clock s)) = cron_runs s.
Proof.
  destruct (scheduleJob_cases Date_parse cron_validate timezone_error job clock s)
    as [->|(_ & kind & ->)]; simpl; apply stop_handle_runs.
Qed.

Lemma schedule_all_tables jobs clock (s : Cron.State) :
  cron_jobs (snd (schedule_all Date_parse cron_validate timezone_error jobs clock s))
  = cron_jobs s
  ∧ cron_runs (snd (schedule_all Date_parse cron_validate timezone_error jobs clock s))
    = cron_runs s.
Proof.
  revert s. induction jobs as [|j jobs IH]; intros s; simpl; [done|].
  pose proof (scheduleJob_jobs Date_parse cron_validate timezone_error j clock s) as Hj.
  pose proof (scheduleJob_runs j clock s) as Hr.
  destruct (scheduleJob Date_parse cron_validate timezone_error j clock s)
    as [[scheduled|err] s1]; simpl in *; [|done].
  destruct (IH s1) as [-> ->]. done.
Qed.

Lemma initCronJobs_tables clock (s : Cron.State) :
  cron_jobs (snd (initCronJobs Date_parse cron_validate timezone_error clock s))
  = cron_jobs s
  ∧ cron_runs (snd (initCronJobs Date_parse cron_validate timezone_error clock s))
    = cron_runs s.
Proof. apply schedule_all_tables. Qed.

Lemma executeJob_catch_table job startedAt err clock (s : Cron.State) :
  CronTables.table_shrinks (cron_jobs s)
    (cron_jobs (snd (executeJob_catch foreign_keys job startedAt err clock s))).
Proof.
  unfold executeJob_catch, insert_run.
  destruct (foreign_keys && _); simpl; apply CronTables.ts_alter; constructor.
Qed.

Lemma executeJob_try_table job startedAt clock (s : Cron.State) :
  CronTables.table_shrinks (cron_jobs s)
    (cron_jobs (snd (executeJob_try foreign_keys job startedAt clock s))).
Proof.
  unfold executeJob_try.
  eapply CronTables.ts_trans;
    [apply (CronTables.ts_alter (record_run (now_iso clock) "success" None) (id job));
     constructor|].
  unfold insert_run. destruct (foreign_keys && _).
  - apply (executeJob_catch_table job startedAt FK_ERROR clock
             (update_job (id job) (record_run (now_iso clock) "success" None) s)).
  - destruct (_ || _); [|apply CronTables.ts_refl].
    cbn [snd]. rewrite stop_handle_jobs.
    destruct (truthyZ _).
    + unfold delete_job. destruct foreign_keys; simpl; apply CronTables.ts_delete.
    + simpl. apply CronTables.ts_alter. constructor. by left.
Qed.

(** What one operation does to [cron_jobs]: it rewrites or deletes rows, or
    it is an accepted [add] that inserts one new enabled row with no runs. *)
Lemma step_table (s : Cron.State) op :
  CronTables.table_shrinks (cron_jobs s) (cron_jobs (Cron.step Date_parse cron_validate timezone_error foreign_keys s op))
  ∨ ∃ job, CronTables.adds (id job) op ∧ cron_jobs s !! id job = None
           ∧ enabled job = 1 ∧ run_count job = 0
           ∧ cron_jobs (Cron.step Date_parse cron_validate timezone_error foreign_keys s op) = <[id job := job]> (cron_jobs s).
Proof.
  destruct op; simpl.
  - left. destruct (initCronJobs_tables clock (boot (cron_jobs s) (cron_runs s)))
      as [-> _]. apply CronTables.ts_refl.
  - unfold add.
    destruct (String.eqb _ ""); [left; apply CronTables.ts_refl|].
    destruct (String.eqb _ ""); [left; apply CronTables.ts_refl|].
    destruct (String.eqb _ ""); [left; apply CronTables.ts_refl|].
    destruct (negb _); [left; apply CronTables.ts_refl|].
    destruct (validate_for_add _ _ _ _) as [err|scheduleType];
      [left; apply CronTables.ts_refl|].
    destruct (cron_jobs s !! newId) eqn:Hnew; [left; apply CronTables.ts_refl|].
    right.
    match goal with
    | |- context [scheduleJob _ _ _ ?job _ ?s1] =>
        exists job; pose proof (scheduleJob_jobs Date_parse cron_validate timezone_error job clock s1) as Hj;
        destruct (scheduleJob Date_parse cron_validate timezone_error job clock s1) as [[scheduled|err] s2]
    end; simpl in Hj; simpl; by rewrite Hj.
  - left. unfold update.
    destruct (String.eqb _ ""); [apply CronTables.ts_refl|].
    destruct (cron_jobs s !! _) as [existing|] eqn:Hrow; [|apply CronTables.ts_refl].
    assert (∀ newSchedule,
      CronTables.table_shrinks (cron_jobs s)
        (cron_jobs (snd (match patch_of input newSchedule with
                     | None => (error_payload "no_changes"
                                  "No fields to update. Provide name, schedule, message, timezone, enabled, or deleteAfterRun.", s)
                     | Some patch =>
                         match scheduleJob Date_parse cron_validate timezone_error
                                 (patch existing) clock
                                 (update_job (trimmed_string_field input "jobId")
                                    patch s) with
                         | (Resolved _, s2) =>
                             (stringify (JObj [("success", JBool true);
                                               ("action", JStr "update");
                                               ("job", formatJob (patch existing) s2)]), s2)
                         | (Rejected err, s2) => (action_failed "update" err, s2)
                         end
                     end)))) as Htail.
    { intros newSchedule.
      destruct (patch_of input newSchedule) as [patch|] eqn:Hpatch;
        [|apply CronTables.ts_refl].
      pose proof (scheduleJob_jobs Date_parse cron_validate timezone_error (patch existing) clock
                    (update_job (trimmed_string_field input "jobId") patch s)) as Hj.
      destruct (scheduleJob _ _ _ _ _ _) as [[scheduled|err] s2]; simpl in Hj; simpl;
        rewrite Hj; apply CronTables.ts_alter; by econstructor. }
    destruct (optional_nonempty input "schedule") as [ns|]; [|apply Htail].
    destruct (validate_for_update _ _ ns); [apply CronTables.ts_refl | apply Htail].
  - left. unfold remove.
    destruct (String.eqb _ ""); [apply CronTables.ts_refl|].
    destruct (cron_jobs s !! _); [|apply CronTables.ts_refl].
    cbn [snd]. unfold delete_job.
    destruct foreign_keys; simpl; rewrite stop_handle_jobs; apply CronTables.ts_delete.
  - left. unfold run_start.
    destruct (String.eqb _ ""); [apply CronTables.ts_refl|].
    destruct (cron_jobs s !! _); apply CronTables.ts_refl.
  - left. unfold wake.
    destruct (String.eqb _ ""); [apply CronTables.ts_refl|].
    destruct (cron_jobs s !! _) as [job|]; [|apply CronTables.ts_refl].
    destruct (truthyZ (enabled job)).
    + pose proof (scheduleJob_jobs Date_parse cron_validate timezone_error job clock s) as Hj.
      destruct (scheduleJob _ _ _ _ _ _) as [[scheduled|err] s1]; simpl in Hj; simpl;
        rewrite Hj; apply CronTables.ts_refl.
    + match goal with
      | |- context [scheduleJob _ _ _ ?job' _ ?s1] =>
          pose proof (scheduleJob_jobs Date_parse cron_validate timezone_error job' clock s1) as Hj;
          destruct (scheduleJob Date_parse cron_validate timezone_error job' clock s1) as [[scheduled|err] s2]
      end; simpl in Hj; simpl; rewrite Hj; apply CronTables.ts_alter; constructor;
        by right.
  - left. unfold timeout_fires.
    destruct (timers s !! t) as [[[] job]|]; apply CronTables.ts_refl.
  - left. unfold cron_tick.
    destruct (timers s !! t) as [[[] job]|]; apply CronTables.ts_refl.
  - left. unfold firing_settles.
    destruct (firings s !! i) as [f|]; [|apply CronTables.ts_refl].
    unfold executeJob_resume. destruct failure.
    + apply (executeJob_catch_table _ _ _ _ (with_firings (delete i) s)).
    + apply (executeJob_try_table _ _ _ (with_firings (delete i) s)).
Qed.

Lemma same_job_refl row : CronTables.same_job row row.
Proof. unfold CronTables.same_job. repeat split; lia. Qed.

Lemma same_job_trans a b c :
  CronTables.same_job a b → CronTables.same_job b c → CronTables.same_job a c.
Proof.
  unfold CronTables.same_job. intros (?&?&?&?) (?&?&?&?).
  repeat split; try congruence. lia.
Qed.

Lemma row_change_same_job f row : CronTables.row_change f → CronTables.same_job row (f row).
Proof.
  intros [at_ st err|v c Hv|input ns patch Hp]; unfold CronTables.same_job.
  - simpl. repeat split; lia.
  - simpl. repeat split; lia.
  - unfold patch_of in Hp. case_match; [done|]. injection Hp as <-. simpl.
    repeat split; lia.
Qed.

Lemma table_shrinks_ancestor m m' :
  CronTables.table_shrinks m m' →
  ∀ k row', m' !! k = Some row' → ∃ row, m !! k = Some row ∧ CronTables.same_job row row'.
Proof.
  induction 1 as [m|f j m Hf|j m|m1 m2 m3 _ IH1 _ IH2]; intros k row' Hk.
  - exists row'. split; [done | apply same_job_refl].
  - destruct (decide (k = j)) as [->|Hne].
    + rewrite lookup_alter_eq in Hk. destruct (m !! j) as [row|]; [|done].
      simpl in Hk. injection Hk as <-. exists row. split; [done|].
      by apply row_change_same_job.
    + rewrite lookup_alter_ne in Hk by done. exists row'.
      split; [done | apply same_job_refl].
  - apply lookup_delete_Some in Hk as [_ Hk]. exists row'.
    split; [done | apply same_job_refl].
  - destruct (IH2 k row' Hk) as (row2 & H2 & S2).
    destruct (IH1 k row2 H2) as (row1 & H1 & S1).
    exists row1. split; [done | by eapply same_job_trans].
Qed.

Lemma step_ancestor (s : Cron.State) op k row' :
  ¬ CronTables.adds k op → cron_jobs (Cron.step Date_parse cron_validate timezone_error foreign_keys s op) !! k = Some row' →
  ∃ row, cron_jobs s !! k = Some row ∧ CronTables.same_job row row'.
Proof.
  intros Hop Hk. destruct (step_table s op) as [Hs|(job & Hadd & Hnew & _ & _ & Heq)].
  - by apply (table_shrinks_ancestor _ _ Hs).
  - rewrite Heq in Hk. rewrite lookup_insert_ne in Hk.
    + exists row'. split; [done | apply same_job_refl].
    + intros E. apply Hop. by rewrite <- E.
Qed.

(** X15. A job is the same job for as long as its id is not drawn again by
    an [add]: whatever the tool actions, timers and firings in between, the
    row keeps its id, its recipient ([update] cannot redirect a job to another
    user) and its creation time, and its run count never goes down. *)
Theorem job_keeps_recipient_and_count (s : Cron.State) ops k row' :
  Forall (λ op, ¬ CronTables.adds k op) ops →
  cron_jobs (foldl (Cron.step Date_parse cron_validate timezone_error foreign_keys) s ops) !! k = Some row' →
  ∃ row, cron_jobs s !! k = Some row
         ∧ id row' = id row ∧ target_user_id row' = target_user_id row
         ∧ created_at row' = created_at row ∧ run_count row ≤ run_count row'.
Proof.
  revert row'. induction ops as [|op ops IH] using rev_ind; intros row' Hops Hk.
  - exists row'. simpl in Hk. repeat split; try done; lia.
  - apply Forall_app in Hops as [Hops Hop]. inversion Hop as [|?? Hop' _]; subst.
    rewrite foldl_app in Hk. simpl in Hk.
    destruct (step_ancestor _ _ _ _ Hop' Hk) as (row1 & H1 & S1).
    destruct (IH row1 Hops H1) as (row & H0 & Hid & Hto & Hc & Hn).
    exists row. split; [done|]. destruct S1 as (?&?&?&?).
    repeat split; try congruence. lia.
Qed.

End SchedulerTables.

Section SchedulerRuns.
Import Cron.
Variable Date_parse : string → option Z.
Variable cron_validate : string → bool.
Variable timezone_error : string → option Thrown.

Lemma settled_app ops ops' :
  CronTables.settled (ops ++ ops') = (CronTables.settled ops + CronTables.settled ops')%nat.
Proof.
  unfold CronTables.settled. induction ops as [|op ops IH]; simpl; [done|].
  rewrite IH. by destruct op.
Qed.

Ltac schedule_runs :=
  match goal with
  | |- context [scheduleJob ?dp ?cv ?tz ?job ?clock ?s1] =>
      let Hr := fresh "Hr" in
      pose proof (scheduleJob_runs dp cv tz job clock s1) as Hr;
      destruct (scheduleJob dp cv tz job clock s1) as [[?|?] ?];
      simpl in Hr; simpl; by rewrite Hr
  end.

(** Without cascading deletes, one operation appends at most one run row,
    and only when it is a firing that settles. *)
Lemma step_runs (s : Cron.State) op :
  ∃ l, cron_runs (Cron.step Date_parse cron_validate timezone_error false s op) = cron_runs s ++ l
       ∧ (List.length l ≤ CronTables.settled [op])%nat.
Proof.
  assert (∀ s' : Cron.State, cron_runs s' = cron_runs s →
            ∃ l, cron_runs s' = cron_runs s ++ l ∧ (List.length l ≤ 0)%nat) as Hsame.
  { intros s' ->. exists []. by rewrite app_nil_r. }
  destruct op; simpl.
  - apply Hsame.
    by destruct (initCronJobs_tables Date_parse cron_validate timezone_error clock
                   (boot (cron_jobs s) (cron_runs s))) as [_ ->].
  - apply Hsame. unfold add.
    do 3 (destruct (String.eqb _ ""); [done|]). destruct (negb _); [done|].
    destruct (validate_for_add _ _ _ _) as [err|scheduleType]; [done|].
    destruct (cron_jobs s !! newId); [done|]. schedule_runs.
  - apply Hsame. unfold update.
    destruct (String.eqb _ ""); [done|].
    destruct (cron_jobs s !! _) as [existing|]; [|done].
    assert (∀ newSchedule,
      cron_runs (snd (match patch_of input newSchedule with
                     | None => (error_payload "no_changes"
                                  "No fields to update. Provide name, schedule, message, timezone, enabled, or deleteAfterRun.", s)
                     | Some patch =>
                         match scheduleJob Date_parse cron_validate timezone_error
                                 (patch existing) clock
                                 (update_job (trimmed_string_field input "jobId")
                                    patch s) with
                         | (Resolved _, s2) =>
                             (stringify (JObj [("success", JBool true);
                                               ("action", JStr "update");
                                               ("job", formatJob (patch existing) s2)]), s2)
                         | (Rejected err, s2) => (action_failed "update" err, s2)
                         end
                     end)) = cron_runs s) as Htail.
    { intros newSchedule. destruct (patch_of input newSchedule) as [patch|]; [|done].
      schedule_runs. }
    destruct (optional_nonempty input "schedule") as [ns|]; [|apply Htail].
    destruct (validate_for_update _ _ ns); [done | apply Htail].
  - apply Hsame. unfold remove.
    destruct (String.eqb _ ""); [done|].
    destruct (cron_jobs s !! _); [|done]. simpl. apply stop_handle_runs.
  - apply Hsame. unfold run_start.
    destruct (String.eqb _ ""); [done|]. by destruct (cron_jobs s !! _).
  - apply Hsame. unfold wake.
    destruct (String.eqb _ ""); [done|].
    destruct (cron_jobs s !! _) as [job|]; [|done].
    destruct (truthyZ (enabled job)); schedule_runs.
  - apply Hsame. unfold timeout_fires.
    by destruct (timers s !! t) as [[[] job]|].
  - apply Hsame. unfold cron_tick.
    by destruct (timers s !! t) as [[[] job]|].
  - unfold firing_settles.
    destruct (firings s !! i) as [f|];
      [|exists []; rewrite app_nil_r; split; [done | simpl; lia]].
    unfold executeJob_resume, executeJob_try, executeJob_catch, insert_run.
    cbn [andb].
    destruct failure; [eexists [_]; by split|].
    destruct (_ || _); [|eexists [_]; by split].
    cbn [snd]. rewrite stop_handle_runs.
    destruct (truthyZ _); eexists [_]; by split.
Qed.

(** X16. The run history only grows.  When the database does not cascade
    deletes, [cron_runs] after a longer history is [cron_runs] of the shorter
    one with rows appended, at most one for each firing that settled in
    between: no tool action edits or removes a run row, and scheduling,
    updating or removing jobs writes none. *)
Theorem run_history_only_grows ops more :
  ∃ l, cron_runs (Cron.after Date_parse cron_validate timezone_error false (ops ++ more))
       = cron_runs (Cron.after Date_parse cron_validate timezone_error false ops) ++ l
       ∧ (List.length l ≤ CronTables.settled more)%nat.
Proof.
  induction more as [|op more IH] using rev_ind.
  - exists []. rewrite !app_nil_r. split; [done | simpl; lia].
  - destruct IH as (l & Hl & Hlen).
    rewrite app_assoc. unfold Cron.after in *. rewrite foldl_app. simpl.
    destruct (step_runs (foldl (Cron.step Date_parse cron_validate timezone_error false) Cron.empty
                           (ops ++ more)) op) as (l' & Hl' & Hlen').
    exists (l ++ l'). rewrite Hl', Hl, app_assoc. split; [done|].
    rewrite length_app, settled_app. lia.
Qed.

End SchedulerRuns.

Section SchedulerStatus.
Import Cron.
Variable Date_parse : string → option Z.
Variable cron_validate : string → bool.
Variable timezone_error : string → option Thrown.
Variable foreign_keys : bool.

Lemma row_change_binary f row :
  CronTables.row_change f → enabled row = 0 ∨ enabled row = 1 →
  enabled (f row) = 0 ∨ enabled (f row) = 1.
Proof.
  intros [at_ st err|v c Hv|input ns patch Hp] Hrow; simpl; try done.
  unfold patch_of in Hp. case_match; [done|]. injection Hp as <-. simpl.
  destruct (get input "enabled") as [[|[]| | | |]|]; simpl; auto.
Qed.

Lemma table_shrinks_binary m m' :
  CronTables.table_shrinks m m' →
  (∀ k row, m !! k = Some row → enabled row = 0 ∨ enabled row = 1) →
  ∀ k row, m' !! k = Some row → enabled row = 0 ∨ enabled row = 1.
Proof.
  induction 1 as [m|f j m Hf|j m|m1 m2 m3 _ IH1 _ IH2]; intros Hm k row Hk.
  - by eapply Hm.
  - destruct (decide (k = j)) as [->|Hne].
    + rewrite lookup_alter_eq in Hk. destruct (m !! j) as [row0|] eqn:E; [|done].
      simpl in Hk. injection Hk as <-. apply row_change_binary; [done|]. by eapply Hm.
    + rewrite lookup_alter_ne in Hk by done. by eapply Hm.
  - apply lookup_delete_Some in Hk as [_ Hk]. by eapply Hm.
  - eapply IH2; [|exact Hk]. by apply IH1.
Qed.

Lemma binary_step (s : Cron.State) op :
  CronTables.binary_flags s →
  CronTables.binary_flags (Cron.step Date_parse cron_validate timezone_error foreign_keys s op).
Proof.
  intros Hs k row Hk.
  destruct (step_table Date_parse cron_validate timezone_error foreign_keys s op)
    as [Hsh|(job & _ & _ & Hen & _ & Heq)].
  - by apply (table_shrinks_binary _ _ Hsh Hs k).
  - rewrite Heq in Hk. apply lookup_insert_Some in Hk as [[_ <-]|[_ Hk]]; [by right|].
    by eapply Hs.
Qed.

Lemma binary_after ops :
  CronTables.binary_flags (Cron.after Date_parse cron_validate timezone_error foreign_keys ops).
Proof.
  unfold Cron.after. induction ops as [|op ops IH] using rev_ind.
  - intros k row. simpl. by rewrite lookup_empty.
  - rewrite foldl_app. simpl. by apply binary_step.
Qed.

(** X17. The numbers the [status] action reports are ordered after every
    history: the handles held in memory are at most the rows with
    [enabled = 1], which are at most all rows, and so are the rows whose last
    run failed.  (The flag [enabled] is only ever 0 or 1.) *)
Theorem status_counts_are_ordered ops :
  let s := Cron.after Date_parse cron_validate timezone_error foreign_keys ops in
  (CronTables.scheduledInMemory s ≤ CronTables.activeJobs s)%nat
  ∧ (CronTables.activeJobs s ≤ CronTables.totalJobs s)%nat
  ∧ (CronTables.erroredJobs s ≤ CronTables.totalJobs s)%nat
  ∧ (∀ k row, cron_jobs s !! k = Some row → enabled row = 0 ∨ enabled row = 1).
Proof.
  intros s.
  pose proof (after_consistent Date_parse cron_validate timezone_error foreign_keys ops) as Hc.
  pose proof (binary_after ops) as Hb. fold s in Hc, Hb.
  unfold CronTables.scheduledInMemory, CronTables.activeJobs, CronTables.totalJobs,
    CronTables.erroredJobs.
  split; [|split; [|split]].
  - rewrite <- !(size_dom (D := gset string)). apply subseteq_size.
    intros k [t Ht]%elem_of_dom.
    destruct (handle_enabled _ Hc k t Ht) as (row & Hrow & Hen).
    apply elem_of_dom. exists row. apply map_lookup_filter_Some. split; [done|].
    simpl. destruct (Hb k row Hrow); [done|done].
  - apply map_subseteq_size, map_filter_subseteq.
  - apply map_subseteq_size, map_filter_subseteq.
  - exact Hb.
Qed.

End SchedulerStatus.

Lemma job_keeps_recipient_and_count_witness :
  ∃ row, Cron.cron_jobs Scenario.daily_job !! "j0000002" = Some row
         ∧ Cron.target_user_id row = "Ualice" ∧ Cron.run_count row ≤ 1.
Proof.
  destruct (job_keeps_recipient_and_count Scenario.Date_parse Scenario.cron_validate Scenario.timezone_error
              false Scenario.daily_job CronScript.one_delivery "j0000002"
              CronScript.delivered_row)
    as (row & Hrow & _ & Hto & _ & Hn).
  - repeat (constructor; [simpl; tauto|]). constructor.
  - vm_compute. reflexivity.
  - exists row. split; [done|]. split; [by rewrite <- Hto | exact Hn].
Defined.

Section SchedulerRoundTrip.
Import Cron.
Variable Date_parse : string → option Z.
Variable cron_validate : string → bool.
Variable timezone_error : string → option Thrown.
Variable foreign_keys : bool.

Lemma remove_unknown rm (s : Cron.State) :
  cron_jobs s !! trimmed_string_field rm "jobId" = None →
  snd (remove foreign_keys rm s) = s.
Proof.
  intros Hnone. unfold remove. destruct (String.eqb _ ""); [done|]. by rewrite Hnone.
Qed.

Lemma stop_handle_idle j (s : Cron.State) :
  activeTasks s !! j = None → stop_handle j s = s.
Proof. intros H. unfold stop_handle. by rewrite H. Qed.

Lemma add_then_remove_consistent input rm ctx newId clock (s : Cron.State) :
  consistent s → cron_jobs s !! newId = None → newId ≠ "" →
  trimmed_string_field rm "jobId" = newId →
  let s1 := snd (add Date_parse cron_validate timezone_error input ctx newId clock s) in
  let s2 := snd (remove foreign_keys rm s1) in
  cron_jobs s2 = cron_jobs s ∧ activeTasks s2 = activeTasks s
  ∧ timers s2 = timers s ∧ firings s2 = firings s ∧ pushed s2 = pushed s
  ∧ (foreign_keys = false → cron_runs s2 = cron_runs s).
Proof.
  intros Hs Hnew Hne Hrm. cbv zeta.
  assert (snd (remove foreign_keys rm s) = s) as Hnoop
    by (apply remove_unknown; by rewrite Hrm).
  assert (activeTasks s !! newId = None) as Hidle.
  { destruct (activeTasks s !! newId) as [t|] eqn:E; [|done].
    destruct (handle_enabled _ Hs _ _ E) as (row & Hrow & _). congruence. }
  assert (timers s !! next_timer s = None) as Hfree.
  { destruct (timers s !! next_timer s) as [tm|] eqn:E; [|done].
    pose proof (armed_below_next _ Hs _ _ E). lia. }
  unfold add.
  do 3 (destruct (String.eqb _ ""); [cbn [snd]; by rewrite Hnoop|]).
  destruct (negb _); [cbn [snd]; by rewrite Hnoop|].
  destruct (validate_for_add _ _ _ _) as [err|scheduleType];
    [cbn [snd]; by rewrite Hnoop|].
  rewrite Hnew.
  match goal with
  | |- context [scheduleJob _ _ _ ?job _ ?s1] =>
      pose proof (scheduleJob_cases Date_parse cron_validate timezone_error job clock s1) as Hcases;
      destruct (scheduleJob Date_parse cron_validate timezone_error job clock s1)
        as [[scheduled|err] s2]
  end;
  (cbn [snd id] in Hcases; cbn [snd];
   rewrite (stop_handle_idle newId (with_jobs _ s) Hidle) in Hcases;
   assert (String.eqb newId "" = false) as Hne' by (by apply String.eqb_neq);
   unfold remove; rewrite Hrm, Hne';
   destruct Hcases as [->|(_ & kind & ->)];
   [ cbn [cron_jobs with_jobs]; rewrite lookup_insert_eq; cbn [snd];
     rewrite (stop_handle_idle newId (with_jobs _ s) Hidle);
     unfold delete_job; destruct foreign_keys; simpl;
       rewrite delete_insert_id by done; repeat split; done
   | cbn [cron_jobs with_jobs arm]; rewrite lookup_insert_eq; cbn [snd];
     unfold stop_handle; cbn [activeTasks arm with_jobs id];
     rewrite lookup_insert_eq;
     unfold delete_job; destruct foreign_keys; simpl;
       rewrite !delete_insert_id by done; repeat split; done ]).
Qed.

(** X18. Adding a job under an unused id and removing it again leaves the
    scheduler as it was, after any history: the same rows, the same handles
    in [activeTasks], the same armed timers, nothing pushed; the handle [add]
    armed is disarmed by [remove].  This holds whether or not [add] accepted
    the input. *)
Theorem add_then_remove_restores ops input rm ctx newId clock :
  let s := Cron.after Date_parse cron_validate timezone_error foreign_keys ops in
  cron_jobs s !! newId = None → newId ≠ "" →
  trimmed_string_field rm "jobId" = newId →
  let s1 := snd (add Date_parse cron_validate timezone_error input ctx newId clock s) in
  let s2 := snd (remove foreign_keys rm s1) in
  cron_jobs s2 = cron_jobs s ∧ activeTasks s2 = activeTasks s
  ∧ timers s2 = timers s ∧ firings s2 = firings s ∧ pushed s2 = pushed s
  ∧ (foreign_keys = false → cron_runs s2 = cron_runs s).
Proof.
  intros s. apply add_then_remove_consistent.
  apply (after_consistent Date_parse cron_validate timezone_error foreign_keys).
Qed.

End SchedulerRoundTrip.

Lemma add_then_remove_restores_witness :
  Cron.timers
    (snd (Cron.remove false (Scenario.job_input "j0000009")
            (snd (Cron.add Scenario.Date_parse Scenario.cron_validate Scenario.timezone_error
                    (Scenario.add_input "weekly" "0 8 * * *" false) Scenario.alice
                    "j0000009" Scenario.later
                    (Cron.after Scenario.Date_parse Scenario.cron_validate Scenario.timezone_error false
                       CronScript.one_daily_job)))))
  = Cron.timers (Cron.after Scenario.Date_parse Scenario.cron_validate Scenario.timezone_error false
                   CronScript.one_daily_job).
Proof.
  destruct (add_then_remove_restores Scenario.Date_parse Scenario.cron_validate Scenario.timezone_error false
              CronScript.one_daily_job (Scenario.add_input "weekly" "0 8 * * *" false)
              (Scenario.job_input "j0000009") Scenario.alice "j0000009" Scenario.later)
    as (_ & _ & H & _).
  - vm_compute. reflexivity.
  - discriminate.
  - vm_compute. reflexivity.
  - exact H.
Defined.

(* ================================================================== *)
(** * Properties of the gateway tool *)

Section GatewayLogs.
Import GatewayTool.

Lemma slice_last_short {A} n (l : list A) :
  (List.length l ≤ n)%nat → slice_last n l = l.
Proof. intros H. unfold slice_last. by replace (List.length l - n)%nat with 0%nat by lia. Qed.

Lemma slice_last_length {A} n (l : list A) :
  List.length (slice_last n l) = Nat.min n (List.length l).
Proof. unfold slice_last. rewrite length_drop. lia. Qed.

Lemma slice_last_suffix {A} n (l : list A) : slice_last n l `suffix_of` l.
Proof. apply suffix_drop. Qed.

Lemma slice_last_push {A} n (l : list A) e :
  (1 ≤ n)%nat → slice_last n (slice_last n l ++ [e]) = slice_last n (l ++ [e]).
Proof.
  intros Hn. destruct (decide (List.length l ≤ n)%nat) as [Hle|Hgt].
  - by rewrite (slice_last_short n l).
  - unfold slice_last at 1 3. rewrite !length_app, slice_last_length. simpl.
    replace (Nat.min n (List.length l) + 1 - n)%nat with 1%nat by lia.
    unfold slice_last.
    rewrite drop_app_le by (rewrite length_drop; lia).
    rewrite drop_drop.
    rewrite (drop_app_le l) by lia.
    do 2 f_equal. lia.
Qed.

Lemma console_print_buffer lvl clock m s :
  (List.length (logBuffer s) ≤ LOG_BUFFER_SIZE)%nat →
  logBuffer (console_print lvl clock m s)
  = slice_last LOG_BUFFER_SIZE
      (logBuffer s ++ [{| ts := now_iso clock; level := lvl; msg := m |}]).
Proof.
  intros Hlen. unfold console_print. cbn [logBuffer].
  set (buf := logBuffer s ++ _).
  assert (List.length buf = S (List.length (logBuffer s))) as Hbuf
    by (subst buf; rewrite length_app; simpl; lia).
  destruct (Nat.ltb_spec LOG_BUFFER_SIZE (List.length buf)).
  - unfold slice_last. replace (List.length buf - LOG_BUFFER_SIZE)%nat with 1%nat by lia.
    by destruct buf.
  - by rewrite slice_last_short by lia.
Qed.

(** X19. The log buffer is a window on the last 500 prints: after any
    number of [console.log] and [console.error] calls it holds the most
    recent 500 entries (all of them if there were fewer), oldest first, and
    never more. *)
Theorem log_buffer_keeps_the_latest (prints : list (string * Clock * string)) s :
  (List.length (logBuffer s) ≤ 500)%nat →
  let s' := foldl (λ acc p, console_print p.1.1 p.1.2 p.2 acc) s prints in
  logBuffer s'
  = slice_last 500
      (logBuffer s
       ++ ((λ p, {| ts := now_iso p.1.2; level := p.1.1; msg := p.2 |}) <$> prints))
  ∧ (List.length (logBuffer s') ≤ 500)%nat
  ∧ env s' = env s ∧ configOverrides s' = configOverrides s.
Proof.
  intros Hlen. cbv zeta.
  induction prints as [|p prints IH] using rev_ind.
  - simpl. rewrite app_nil_r. by rewrite slice_last_short.
  - rewrite foldl_app, fmap_app. cbn [foldl fmap list_fmap].
    set (s1 := foldl _ s prints) in *.
    destruct IH as (IHb & IHl & IHe & IHc).
    rewrite console_print_buffer by exact IHl.
    rewrite IHb. change LOG_BUFFER_SIZE with 500%nat.
    rewrite slice_last_push by lia. rewrite app_assoc.
    split; [done|]. split; [rewrite slice_last_length; lia|]. done.
Qed.

(** X20. The [logs] action shows the newest entries of the requested level:
    the lines it returns are the last [n] of the buffer filtered by level, in
    the buffer's order, where [n] is the requested number clamped to 1..500
    (50 by default); [returned] is their count and [totalBuffered] the size
    of the whole buffer. *)
Theorem logs_shows_the_newest input s :
  let n := lines_of input in
  let pool := filtered (level_of input) s in
  ∃ ls,
    logs input s
    = JObj [("totalBuffered", JNum (Z.of_nat (List.length (logBuffer s))));
            ("returned", JNum (Z.of_nat (List.length ls)));
            ("level", JStr (level_of input));
            ("logs", JArr ((λ l, JStr (log_line l)) <$> ls))]
    ∧ ls `suffix_of` pool
    ∧ List.length ls = Nat.min n (List.length pool)
    ∧ (1 ≤ n ≤ 500)%nat
    ∧ (∀ l, l ∈ ls → l ∈ logBuffer s)
    ∧ (level_of input = "info" ∨ level_of input = "error" →
       ∀ l, l ∈ ls → level l = level_of input).
Proof.
  cbv zeta. exists (shown input s). unfold shown.
  assert (∀ l, l ∈ slice_last (lines_of input) (filtered (level_of input) s) →
               l ∈ filtered (level_of input) s) as Hin.
  { intros l Hl. destruct (slice_last_suffix (lines_of input)
                             (filtered (level_of input) s)) as [pre Hpre].
    rewrite Hpre. apply elem_of_app. by right. }
  split; [done|]. split; [apply slice_last_suffix|].
  split; [apply slice_last_length|]. split.
  - unfold lines_of. destruct (get input "lines") as [[| |n| | |]|]; lia.
  - split.
    + intros l Hl%Hin. unfold filtered in Hl.
      destruct (String.eqb _ "info"); [by apply list_elem_of_filter in Hl as [_ ?]|].
      destruct (String.eqb _ "error"); [by apply list_elem_of_filter in Hl as [_ ?]|].
      done.
    + intros Hlevel l Hl%Hin. unfold filtered in Hl.
      destruct (String.eqb_spec (level_of input) "info") as [E|Hne0].
      * apply list_elem_of_filter in Hl as [-> _]. by rewrite E.
      * destruct (String.eqb_spec (level_of input) "error") as [E|Hne].
        -- apply list_elem_of_filter in Hl as [-> _]. by rewrite E.
        -- destruct Hlevel; congruence.
Qed.

End GatewayLogs.

Section GatewayConfig.
Import GatewayTool.
Variable status : State → string.

Lemma map_get_set_eq k v m : map_get k (map_set k v m) = Some v.
Proof.
  induction m as [|[k' v'] m IH]; simpl; [by rewrite String.eqb_refl|].
  destruct (String.eqb_spec k' k); simpl; [by rewrite String.eqb_refl|].
  by destruct (String.eqb_spec k' k).
Qed.

Lemma map_get_set_ne k k' v m : k' ≠ k → map_get k' (map_set k v m) = map_get k' m.
Proof.
  intros Hne. induction m as [|[k0 v0] m IH]; simpl.
  - by destruct (String.eqb_spec k k').
  - destruct (String.eqb_spec k0 k) as [->|]; simpl.
    + destruct (String.eqb_spec k k'); [congruence|done].
    + by destruct (String.eqb_spec k0 k').
Qed.

Lemma map_set_elem_of k v m : (k, v) ∈ map_set k v m.
Proof.
  induction m as [|[k' v'] m IH]; simpl; [by left|].
  destruct (String.eqb k' k); [by left | by right].
Qed.

Lemma elem_of_insert_by_index {A} (x y : N * A) l :
  y ∈ insert_by_index x l ↔ y = x ∨ y ∈ l.
Proof.
  induction l as [|z l IH]; simpl.
  - rewrite list_elem_of_singleton. set_solver.
  - destruct (_ <=? _)%N; [set_solver|]. rewrite !elem_of_cons, IH. tauto.
Qed.

Lemma elem_of_sorted_by_index {A} (y : N * A) l :
  y ∈ foldr insert_by_index [] l ↔ y ∈ l.
Proof.
  induction l as [|z l IH]; simpl; [done|].
  rewrite elem_of_insert_by_index, IH, elem_of_cons. tauto.
Qed.

(** Listing the keys in the object's order loses and invents nothing. *)
Lemma elem_of_own_property_order {A} (x : string * A) l :
  x ∈ own_property_order l ↔ x ∈ l.
Proof.
  unfold own_property_order. rewrite elem_of_app, list_elem_of_fmap, list_elem_of_filter.
  split.
  - intros [([n kv] & -> & Hin)|[_ ?]]; [|done].
    apply elem_of_sorted_by_index, list_elem_of_omap in Hin as (kv' & Hkv & Heq).
    destruct (array_index kv'.1); simpl in Heq; [|done]. by injection Heq as _ <-.
  - intros Hx. destruct (array_index x.1) as [n|] eqn:E; [left|by right].
    exists (n, x). split; [done|].
    apply elem_of_sorted_by_index, list_elem_of_omap. exists x. by rewrite E.
Qed.

Lemma console_log_overrides clock m s :
  configOverrides (console_log clock m s) = configOverrides s.
Proof. reflexivity. Qed.

Lemma console_log_env clock m s : env (console_log clock m s) = env s.
Proof. reflexivity. Qed.

(** X21. What [config.set] does for a key that is not blocked: the value is
    stored under that key both in the override map and in [process.env],
    every other key is untouched, and if the key is one of those [config.get]
    lists and the value is not empty, [config.get] now shows the value marked
    "(override)" whatever the environment held before. *)
Theorem config_set_takes_effect input clock s :
  let key := trimmed_string_field input "key" in
  let value := if get input "value" is Some (JStr v) then v else "" in
  key ≠ "" → includes BLOCKED key = false →
  let s' := snd (config_set input clock s) in
  env s' !! key = Some value
  ∧ map_get key (configOverrides s') = Some value
  ∧ (∀ k, k ≠ key → env s' !! k = env s !! k
                   ∧ map_get k (configOverrides s') = map_get k (configOverrides s))
  ∧ (key ∈ envKeys → value ≠ "" →
     (key, JStr (value +:+ " (override)")) ∈ config_members s').
Proof.
  intros key value Hkey Hblocked. cbv zeta. unfold config_set. fold key value.
  destruct (String.eqb_spec key ""); [done|]. rewrite Hblocked.
  clearbody key value.
  cbn [snd console_log console_print env configOverrides].
  split; [apply lookup_insert_eq|]. split; [apply map_get_set_eq|]. split.
  - intros k Hk. rewrite lookup_insert_ne by done. by rewrite map_get_set_ne.
  - intros Hlisted Hvalue. unfold config_members. apply elem_of_app. left.
    apply list_elem_of_omap. exists key. split; [done|].
    rewrite !console_log_overrides. cbn [configOverrides].
    rewrite map_get_set_eq. simpl.
    by destruct (String.eqb_spec value "").
Qed.

Lemma actions_blocked clock action input ctx s k :
  k ∈ BLOCKED →
  env (snd (actions status clock action input ctx s)) !! k = env s !! k
  ∧ map_get k (configOverrides (snd (actions status clock action input ctx s)))
    = map_get k (configOverrides s).
Proof.
  intros Hk. unfold actions.
  destruct (String.eqb action "status"); [done|].
  destruct (String.eqb action "config.get"); [done|].
  destruct (String.eqb action "config.set").
  - unfold config_set.
    destruct (String.eqb _ ""); [done|].
    destruct (includes BLOCKED _) eqn:Hb; [done|].
    assert (k ≠ trimmed_string_field input "key") as Hne.
    { intros ->. apply includes_elem_of in Hk. congruence. }
    cbn [snd console_log console_print env configOverrides].
    rewrite lookup_insert_ne by done. by rewrite map_get_set_ne.
  - destruct (String.eqb action "restart"); [done|].
    by destruct (String.eqb action "logs").
Qed.

(** X22. The gateway never overrides the LINE credentials: after any number
    of calls of the tool, by anyone and with any input, [LINE_CHANNEL_SECRET]
    and [LINE_CHANNEL_ACCESS_TOKEN] are in [process.env] as they were and
    have no entry in the override map unless they had one before. *)
Theorem line_credentials_are_never_overridden calls s k :
  k ∈ BLOCKED →
  env (run status calls s) !! k = env s !! k
  ∧ map_get k (configOverrides (run status calls s)) = map_get k (configOverrides s).
Proof.
  intros Hk. unfold run. induction calls as [|c calls IH] using rev_ind; [done|].
  rewrite foldl_app. cbn [foldl]. set (s1 := foldl _ s calls) in *.
  destruct IH as [<- <-]. unfold execute, Gateway.execute.
  destruct (negb _); [done|]. by apply actions_blocked.
Qed.

(** X23. [config.get] never prints the value of a sensitive variable in its
    [config] object: for each of the eight sensitive names the entry, if
    there is one, is the marker "***set***", and there is one exactly when
    the variable is set to something other than white space.  The
    [overrides] object has no such mask: it lists every override with its
    value, under any key. *)
Theorem sensitive_values_are_masked s key :
  key ∈ SENSITIVE →
  (∀ v, (key, v) ∈ config_members s → v = JStr "***set***")
  ∧ ((key, JStr "***set***") ∈ config_members s ↔ truthy_str (env_trimmed s key) = true)
  ∧ (∀ k v, (k, JStr v) ∈ (if overrides_object s is JObj members then members else [])
            ↔ (k, v) ∈ configOverrides s).
Proof.
  intros Hkey.
  assert (key ∉ envKeys) as Hnot.
  { intros Hin. unfold SENSITIVE, envKeys in *.
    repeat (apply elem_of_cons in Hkey as [->|Hkey];
            [repeat (apply elem_of_cons in Hin as [Hin|Hin]; [discriminate|]);
             by apply elem_of_nil in Hin|]).
    by apply elem_of_nil in Hkey. }
  assert (∀ v, (key, v) ∈ config_members s →
               v = JStr "***set***" ∧ truthy_str (env_trimmed s key) = true) as Hshape.
  { intros v [Hin|Hin]%elem_of_app.
    - apply list_elem_of_omap in Hin as (k & Hk & Heq).
      repeat case_match; try done; injection Heq as -> _; done.
    - apply list_elem_of_omap in Hin as (k & Hk & Heq).
      destruct (truthy_str (env_trimmed s k)) eqn:E; [|done].
      by injection Heq as -> <-. }
  split; [intros v Hv; by destruct (Hshape v Hv)|]. split.
  - split; [intros Hv; by destruct (Hshape _ Hv)|].
    intros Hset. unfold config_members. apply elem_of_app. right.
    apply list_elem_of_omap. exists key. by rewrite Hset.
  - intros k v. unfold overrides_object.
    rewrite elem_of_own_property_order, list_elem_of_fmap. split.
    + intros ([k' v'] & [= -> ->] & Hin). done.
    + intros Hin. by exists (k, v).
Qed.

(** X24. The owner list can be changed through the tool itself, and the
    change is in force at the next call: after an owner sets
    [OWNER_USER_ID], the owner check answers as [isOwner] does for the new
    value.
    Setting it to an empty or blank value therefore opens the tool (and
    [sessions_send]) to every caller. *)
Theorem owner_list_can_be_replaced clock input ctx v s :
  Gateway.isOwner (env s !! "OWNER_USER_ID") (ctx_userId ctx) = true →
  trimmed_string_field input "action" = "config.set" →
  trimmed_string_field input "key" = "OWNER_USER_ID" →
  get input "value" = Some (JStr v) →
  let s' := snd (execute status clock input ctx s) in
  (∀ uid, Gateway.isOwner (env s' !! "OWNER_USER_ID") uid = Gateway.isOwner (Some v) uid)
  ∧ (trim v = "" →
     ∀ uid, Gateway.isOwner (env s' !! "OWNER_USER_ID") uid = true
            ∧ SessionsSend.isOwner (env s' !! "OWNER_USER_ID") uid = true).
Proof.
  intros Howner Haction Hkey Hvalue. cbv zeta.
  assert (env (snd (execute status clock input ctx s)) !! "OWNER_USER_ID" = Some v) as Henv.
  { unfold execute, Gateway.execute. rewrite Howner, Haction. cbn [negb].
    unfold actions. cbn [String.eqb Ascii.eqb Bool.eqb].
    pose proof (config_set_takes_effect input clock s) as H. cbv zeta in H.
    rewrite Hkey, Hvalue in H. destruct H as (H & _); [done|done|].
    by destruct (config_set input clock s). }
  rewrite Henv. split; [done|].
  intros Hblank uid.
  split; apply (isOwner_unrestricted (Some v) uid); right; by exists v.
Qed.

End GatewayConfig.

Lemma log_buffer_keeps_the_latest_witness :
  (List.length
     (GatewayTool.logBuffer
        (foldl (λ acc p, GatewayTool.console_print p.1.1 p.1.2 p.2 acc)
           GatewayScript.boot GatewayScript.two_prints)) ≤ 500)%nat.
Proof.
  destruct (log_buffer_keeps_the_latest GatewayScript.two_prints GatewayScript.boot)
    as (_ & H & _).
  - simpl. lia.
  - exact H.
Defined.

Lemma config_set_takes_effect_witness :
  GatewayTool.env
    (snd (GatewayTool.config_set
            (GatewayScript.set_input "GEMINI_MODEL" "gemini-2.5-pro") Scenario.noon
            GatewayScript.boot)) !! "GEMINI_MODEL" = Some "gemini-2.5-pro".
Proof.
  destruct (config_set_takes_effect
              (GatewayScript.set_input "GEMINI_MODEL" "gemini-2.5-pro") Scenario.noon
              GatewayScript.boot) as (H & _).
  - vm_compute. discriminate.
  - reflexivity.
  - exact H.
Defined.

Lemma line_credentials_are_never_overridden_witness :
  GatewayTool.env
    (GatewayTool.run GatewayScript.status
       [(Scenario.noon, GatewayScript.set_input "LINE_CHANNEL_SECRET" "mine",
         GatewayScript.owner)] GatewayScript.boot) !! "LINE_CHANNEL_SECRET"
  = GatewayTool.env GatewayScript.boot !! "LINE_CHANNEL_SECRET".
Proof.
  destruct (line_credentials_are_never_overridden GatewayScript.status
              [(Scenario.noon, GatewayScript.set_input "LINE_CHANNEL_SECRET" "mine",
                GatewayScript.owner)] GatewayScript.boot "LINE_CHANNEL_SECRET")
    as (H & _).
  - apply includes_elem_of. reflexivity.
  - exact H.
Defined.

Lemma sensitive_values_are_masked_witness :
  ("GEMINI_API_KEY", JStr "***set***") ∈ GatewayTool.config_members GatewayScript.boot.
Proof.
  destruct (sensitive_values_are_masked GatewayScript.boot "GEMINI_API_KEY")
    as (_ & H & _).
  - apply includes_elem_of. reflexivity.
  - apply H. reflexivity.
Defined.

Lemma owner_list_can_be_replaced_witness :
  Gateway.isOwner
    (GatewayTool.env
       (snd (GatewayTool.execute GatewayScript.status Scenario.noon
               (GatewayScript.set_input "OWNER_USER_ID" "") GatewayScript.owner
               GatewayScript.boot)) !! "OWNER_USER_ID") (Some "Umallory") = true.
Proof.
  destruct (owner_list_can_be_replaced GatewayScript.status Scenario.noon
              (GatewayScript.set_input "OWNER_USER_ID" "") GatewayScript.owner ""
              GatewayScript.boot) as (_ & H).
  - vm_compute. reflexivity.
  - vm_compute. reflexivity.
  - vm_compute. reflexivity.
  - reflexivity.
  - by destruct (H eq_refl (Some "Umallory")).
Defined.

(* ================================================================== *)
(** * Properties of the LINE reply *)

Section ReplySplitting.
Import Line.

Lemma lastIndexOf_from_bounds p s i best :
  lastIndexOf_from p s i best = best
  ∨ i ≤ lastIndexOf_from p s i best < i + Z.of_nat (String.length s).
Proof.
  revert i best. induction s as [|c s IH]; intros i best; [by left|].
  cbn [lastIndexOf_from String.length].
  destruct (IH (i + 1) (if String.prefix p (String c s) then i else best)) as [->|H].
  - destruct (String.prefix p (String c s)); [right; lia | by left].
  - right. lia.
Qed.

Lemma lastIndexOf_bounds s p :
  -1 ≤ lastIndexOf s p < Z.of_nat (String.length s) ∨ lastIndexOf s p = -1.
Proof.
  unfold lastIndexOf. destruct (lastIndexOf_from_bounds p s 0 (-1)) as [->|H]; [by right|].
  left. lia.
Qed.

Lemma cut_point_bounds window :
  (String.length window ≤ maxChars)%nat → 1500 ≤ cut_point window ≤ 5000.
Proof.
  intros Hlen. unfold maxChars in Hlen. unfold cut_point.
  pose proof (lastIndexOf_bounds window nl) as H1.
  pose proof (lastIndexOf_bounds window (nl +:+ nl)) as H2.
  change (Z.of_nat maxChars) with 5000.
  repeat match goal with
  | |- context [if ?b then _ else _] => let E := fresh "E" in destruct b eqn:E
  end;
  repeat match goal with
  | H : (_ <? _) = true |- _ => apply Z.ltb_lt in H
  | H : (_ <? _) = false |- _ => apply Z.ltb_ge in H
  end; lia.
Qed.

Lemma length_trimStart s : (String.length (trimStart s) ≤ String.length s)%nat.
Proof.
  induction s as [|c s IH]; simpl; [lia|]. destruct (Ascii.is_space c); simpl; lia.
Qed.

Lemma length_rev_app s1 s2 :
  String.length (String.rev_app s1 s2) = (String.length s1 + String.length s2)%nat.
Proof.
  revert s2. induction s1 as [|c s1 IH]; intros s2; simpl; [done|].
  rewrite IH. simpl. lia.
Qed.

Lemma length_trimEnd s : (String.length (trimEnd s) ≤ String.length s)%nat.
Proof.
  unfold trimEnd, String.rev. rewrite length_rev_app.
  pose proof (length_trimStart (String.rev_app s "")) as H.
  rewrite length_rev_app in H. simpl in *. lia.
Qed.

Lemma split_loop_bounds room remaining :
  (List.length (split_loop room remaining) ≤ room)%nat
  ∧ Forall (λ c, (String.length c ≤ maxChars)%nat) (split_loop room remaining)
  ∧ (remaining ≠ "" → (1 ≤ room)%nat → (1 ≤ List.length (split_loop room remaining))%nat).
Proof.
  revert remaining. induction room as [|room IH]; intros remaining.
  - simpl. split; [lia|]. split; [constructor | lia].
  - cbn [split_loop].
    destruct (String.eqb_spec remaining "") as [->|Hne].
    { simpl. split; [lia|]. split; [constructor | done]. }
    destruct (Nat.leb_spec (String.length remaining) maxChars) as [Hshort|Hlong].
    { simpl. split; [lia|]. split; [constructor; [done | constructor] | lia]. }
    set (cutAt := Z.to_nat (cut_point (take_str maxChars remaining))).
    assert (cutAt ≤ maxChars)%nat as Hcut.
    { subst cutAt. pose proof (cut_point_bounds (take_str maxChars remaining)
                                (take_str_length _ _)). unfold maxChars in *. lia. }
    destruct (IH (trimStart (drop_str cutAt remaining))) as (Hn & Hall & _).
    cbn [List.length]. split; [lia|]. split; [|lia].
    constructor; [|done].
    pose proof (length_trimEnd (take_str cutAt remaining)).
    pose proof (take_str_length cutAt remaining). lia.
Qed.

(** X25. [splitReply] with its default limits returns between one and five
    chunks, none longer than 5000 characters; a text of at most 5000
    characters comes back as the single chunk it is; and since the loop stops
    at five chunks, a text longer than 25000 characters is returned only in
    part. *)
Theorem splitReply_bounds text :
  let chunks := splitReply text in
  (1 ≤ List.length chunks ≤ 5)%nat
  ∧ Forall (λ c, (String.length c ≤ 5000)%nat) chunks
  ∧ ((String.length text ≤ 5000)%nat → chunks = [text])
  ∧ ((5 * 5000 < String.length text)%nat →
     (sum_list (String.length <$> chunks) < String.length text)%nat).
Proof.
  cbv zeta. unfold splitReply.
  destruct (Nat.leb_spec (String.length text) maxChars) as [Hshort|Hlong].
  - unfold maxChars in Hshort.
    split; [simpl; lia|]. split; [constructor; [done | constructor]|].
    split; [done|]. intros Hbig. exfalso. lia.
  - destruct (split_loop_bounds maxMessages text) as (Hn & Hall & Hone).
    unfold maxChars in Hlong.
    assert (text ≠ "") as Hne by (intros ->; simpl in Hlong; lia).
    specialize (Hone Hne ltac:(unfold maxMessages; lia)).
    split; [unfold maxMessages in Hn at 2; lia|]. split; [exact Hall|].
    split; [lia|]. intros Hbig. unfold maxMessages in Hn at 2.
    assert (∀ l : list string, Forall (λ c, (String.length c ≤ maxChars)%nat) l →
              (sum_list (String.length <$> l) ≤ List.length l * 5000)%nat) as Hsum.
    { induction 1 as [|c l Hc _ IHl]; [simpl; lia|].
      assert (sum_list (String.length <$> c :: l)
              = (String.length c + sum_list (String.length <$> l))%nat) as ->
        by reflexivity.
      cbn [List.length]. unfold maxChars in Hc. lia. }
    specialize (Hsum _ Hall). nia.
Qed.

Section Reply.
Variable stripMarkdown : string → string.

(** X26. One reply to LINE carries between one and five messages.  The
    image the tools produced, if there is one, is the first message; the
    audio clip, if there is one, is the message right after it (the first
    when there is no image), with the duration the tool gave, or 5000 when
    it gave none; all the messages after these are the chunks of the text,
    in the order [splitReply] returns them, each at most 5000 characters;
    the chunks that do not fit in the five messages are left out, so at
    least the first three chunks are always sent. *)
Theorem reply_fits_line_limits (result : Agent.ChatResult) :
  let ms := reply_messages stripMarkdown result in
  let chunks := splitReply (stripMarkdown (Agent.cr_text result)) in
  let has_image := truthy (Agent.cr_imageUrl result) in
  let has_audio := truthy (fst <$> Agent.cr_audio result) in
  let media := ((if has_image then 1 else 0) + (if has_audio then 1 else 0))%nat in
  (1 ≤ List.length ms ≤ 5)%nat
  ∧ (∀ t, TextMessage t ∈ ms → (String.length t ≤ 5000)%nat)
  ∧ (∀ url, Agent.cr_imageUrl result = Some url → truthy (Some url) = true →
       ms !! 0%nat = Some (ImageMessage url))
  ∧ (∀ i url d, ms !! i = Some (AudioMessage url d) →
       (i ≤ 1)%nat ∧ ∃ d0, Agent.cr_audio result = Some (url, d0)
                           ∧ d = if truthy (Some d0) then d0 else JNum 5000)
  ∧ (has_image = true →
       ∃ url, Agent.cr_imageUrl result = Some url ∧ ms !! 0%nat = Some (ImageMessage url))
  ∧ (has_audio = true →
       ∃ url d0, Agent.cr_audio result = Some (url, d0)
         ∧ ms !! (if has_image then 1 else 0)%nat
           = Some (AudioMessage url (if truthy (Some d0) then d0 else JNum 5000)))
  ∧ (media ≤ List.length ms)%nat
  ∧ drop media ms = TextMessage <$> take (5 - media) chunks.
Proof.
  cbv zeta. unfold reply_messages.
  destruct (splitReply_bounds (stripMarkdown (Agent.cr_text result)))
    as ((Hlo & Hhi) & Hall & _).
  set (chunks := splitReply _) in *.
  set (image := match Agent.cr_imageUrl result with Some _ => _ | None => _ end).
  set (audio := match Agent.cr_audio result with Some _ => _ | None => _ end).
  assert (List.length image ≤ 1)%nat as Himg
    by (subst image; repeat case_match; simpl; lia).
  assert (List.length audio ≤ 1)%nat as Haud
    by (subst audio; repeat case_match; simpl; lia).
  split; [|split; [|split; [|split]]].
  - rewrite length_take, !length_app, length_fmap. lia.
  - intros t (i & Ht%list_elem_of_lookup_2 & _)%elem_of_take.
    apply elem_of_app in Ht as [Ht|Ht];
      [subst image; repeat case_match; set_solver|].
    apply elem_of_app in Ht as [Ht|Ht];
      [subst audio; repeat case_match; set_solver|].
    apply list_elem_of_fmap in Ht as (c & [= ->] & Hc).
    by apply (proj1 (Forall_forall _ _) Hall).
  - intros url Hurl Htruthy. subst image. rewrite Hurl, Htruthy. done.
  - intros i url d Hi. apply lookup_take_Some in Hi as [Hi _].
    destruct (decide (i < List.length image)%nat) as [Hlt|Hge].
    { rewrite lookup_app_l in Hi by done.
      subst image. repeat case_match; simpl in *;
        destruct i; simpl in *; try done; lia. }
    rewrite lookup_app_r in Hi by lia.
    destruct (decide (i - List.length image < List.length audio)%nat) as [Hlt|Hge'].
    + rewrite lookup_app_l in Hi by done. split; [lia|].
      subst audio. destruct (Agent.cr_audio result) as [[u d0]|]; [|done].
      destruct (truthy (Some u)); [|done].
      destruct (i - List.length image)%nat; simpl in Hi; [|done].
      injection Hi as -> <-. by exists d0.
    + rewrite lookup_app_r in Hi by lia.
      apply list_lookup_fmap_Some in Hi as (c & ? & _). done.
  - clear Himg Haud. subst image audio.
    destruct (Agent.cr_imageUrl result) as [iu|] eqn:Ei;
      [destruct (truthy (Some iu)) eqn:Ti|];
      (destruct (Agent.cr_audio result) as [[au d0]|] eqn:Ea;
       [cbn [fmap option_fmap option_map fst]; destruct (truthy (Some au)) eqn:Ta|]);
      cbn [fmap option_fmap option_map]; rewrite ?Ti;
      change (truthy None) with false;
      cbn [app take Nat.add Nat.sub drop];
      rewrite ?fmap_take;
      (split; [intros; try done; by eexists|]);
      (split; [intros; try done; by eexists _, _|]);
      (split; [simpl; lia | reflexivity]).
Qed.

End Reply.
End ReplySplitting.

(* ================================================================== *)
(** * Properties of the subagents tool *)

Section SubagentsTool.
Import Spawn Subagents.
Variable list_action : Json → State → string.
Variable status_action : Json → State → string.

Lemma cancelTask_running k clock s :
  runningTasks (snd (cancelTask k clock s)) = delete k (runningTasks s).
Proof.
  unfold cancelTask. destruct (runningTasks s !! k) eqn:E; simpl; [done|].
  by rewrite delete_id.
Qed.

Lemma cancelTask_table_other k k' clock s :
  k' ≠ k →
  background_tasks (snd (cancelTask k clock s)) !! k' = background_tasks s !! k'.
Proof.
  intros Hne. unfold cancelTask. destruct (runningTasks s !! k); simpl; [|done].
  by rewrite lookup_alter_ne.
Qed.

(** X27. [kill] with a task id never looks at who is calling: whoever the
    caller is (the task's owner, another user, or no context at all), [kill]
    of a running task answers success, aborts its controller, removes its
    entry and marks its row cancelled, and the answer and the new state are
    the same for every caller. *)
Theorem kill_does_not_check_the_owner env order clock_at newId clock input ctx entry s :
  let target := trimmed_string_field input "target" in
  action_of input = "kill" →
  target ≠ "" → target ≠ "all" → target ≠ "*" →
  runningTasks s !! target = Some entry →
  let out := execute list_action status_action env order clock_at newId clock input ctx s in
  fst out = stringify (JObj [("success", JBool true); ("action", JStr "kill");
                             ("killedTask", JObj [("id", JStr target);
                                                  ("label", JStr (label (r_task entry)))])])
  ∧ runningTasks (snd out) !! target = None
  ∧ abortController entry ∈ aborted (snd out)
  ∧ (∀ row, background_tasks s !! target = Some row →
       ∃ row', background_tasks (snd out) !! target = Some row'
               ∧ status row' = cancelled ∧ user_id row' = user_id row)
  ∧ (∀ ctx', execute list_action status_action env order clock_at newId clock input ctx' s
             = out).
Proof.
  intros target Haction Hne Hall Hstar Hentry. cbv zeta.
  assert (∀ c, execute list_action status_action env order clock_at newId clock input c s
               = (stringify (JObj [("success", JBool true); ("action", JStr "kill");
                                   ("killedTask",
                                    JObj [("id", JStr target);
                                          ("label", JStr (label (r_task entry)))])]),
                  snd (cancelTask target clock s))) as Hexec.
  { intros c. unfold execute. rewrite Haction. cbn [String.eqb Ascii.eqb Bool.eqb].
    fold target.
    destruct (String.eqb_spec target ""); [done|].
    destruct (String.eqb_spec target "all"); [done|].
    destruct (String.eqb_spec target "*"); [done|].
    cbn [orb]. by rewrite Hentry. }
  rewrite Hexec. cbn [fst snd]. split; [done|].
  split; [rewrite cancelTask_running; apply lookup_delete_eq|].
  unfold cancelTask. rewrite Hentry. cbn [snd aborted background_tasks with_table
    with_running with_aborted].
  split; [set_solver|]. split.
  - intros row Hrow. rewrite lookup_alter_eq, Hrow. by eexists.
  - intros ctx'. rewrite Hexec. unfold cancelTask. by rewrite Hentry.
Qed.

(** X28. [kill] with target "all" is scoped to the caller: with a user id in
    the context, entries and rows of other users' tasks (and of tasks that
    are not running) are left exactly as they were, every task of the caller
    that the loop visits is gone from [runningTasks], and nothing is added.
    Without a user id every visited task is cancelled. *)
Theorem kill_all_is_scoped_to_the_caller order clock_at ctx s :
  let out := kill_all order clock_at ctx s in
  (∀ k, (∀ e, runningTasks s !! k = Some e →
              truthy_str (ctx_userId ctx) = true
              ∧ user_id (r_task e) ≠ default "" (ctx_userId ctx)) →
        runningTasks (snd out) !! k = runningTasks s !! k
        ∧ background_tasks (snd out) !! k = background_tasks s !! k)
  ∧ (∀ k e, runningTasks (snd out) !! k = Some e →
            runningTasks s !! k = Some e
            ∧ (k ∈ order → truthy_str (ctx_userId ctx) = true
                           ∧ user_id (r_task e) ≠ default "" (ctx_userId ctx)))
  ∧ (List.length (fst out) ≤ List.length order)%nat.
Proof.
  cbv zeta. unfold kill_all.
  induction order as [|taskId order IH] using rev_ind.
  - simpl. split; [done|]. split; [|lia]. intros k e He. split; [done|].
    intros Hk. by apply elem_of_nil in Hk.
  - rewrite foldl_app. cbn [foldl]. set (acc := foldl _ _ order) in *.
    destruct IH as (Hkeep & Hgone & Hlen).
    rewrite length_app. cbn [List.length].
    destruct (runningTasks acc.2 !! taskId) as [entry|] eqn:Hentry.
    + destruct (Hgone _ _ Hentry) as [Hentry0 _].
      destruct (negb (truthy_str (ctx_userId ctx))
                || String.eqb (user_id (r_task entry)) (default "" (ctx_userId ctx)))
        eqn:Hmine.
      * cbn [fst snd]. split; [|split].
        -- intros k Hk.
           assert (k ≠ taskId) as Hne.
           { intros ->. destruct (Hk _ Hentry0) as [Ht Hu].
             rewrite Ht in Hmine. simpl in Hmine.
             by apply String.eqb_eq in Hmine. }
           rewrite cancelTask_running, lookup_delete_ne by done.
           rewrite cancelTask_table_other by done. by apply Hkeep.
        -- intros k e. rewrite cancelTask_running.
           intros [Hne He]%lookup_delete_Some.
           destruct (Hgone _ _ He) as [He0 Hin]. split; [done|].
           intros [Hk|Hk%list_elem_of_singleton]%elem_of_app; [by apply Hin | done].
        -- rewrite length_app. simpl. lia.
      * split; [exact Hkeep|]. split; [|lia].
        intros k e He. destruct (Hgone _ _ He) as [He0 Hin]. split; [done|].
        intros [Hk|Hk%list_elem_of_singleton]%elem_of_app; [by apply Hin|].
        subst k. assert (e = entry) as -> by congruence.
        apply orb_false_iff in Hmine as [Ht Hu].
        apply negb_false_iff in Ht. apply String.eqb_neq in Hu. done.
    + split; [exact Hkeep|]. split; [|lia].
      intros k e He. destruct (Hgone _ _ He) as [He0 Hin]. split; [done|].
      intros [Hk|Hk%list_elem_of_singleton]%elem_of_app; [by apply Hin|].
      subst k. congruence.
Qed.

End SubagentsTool.

Lemma kill_does_not_check_the_owner_witness :
  Spawn.runningTasks
    (snd (Subagents.execute TaskScript.no_report TaskScript.no_report Scenario.spawn_env
            ["a1b2c3d4"] (λ _, Scenario.later) "e5f6a7b8" Scenario.later
            TaskScript.kill_input TaskScript.mallory Scenario.one_task)) !! "a1b2c3d4"
  = None.
Proof.
  destruct (kill_does_not_check_the_owner TaskScript.no_report TaskScript.no_report
              Scenario.spawn_env ["a1b2c3d4"] (λ _, Scenario.later) "e5f6a7b8"
              Scenario.later TaskScript.kill_input TaskScript.mallory
              TaskScript.alice_entry Scenario.one_task) as (_ & H & _).
  - vm_compute. reflexivity.
  - vm_compute. discriminate.
  - vm_compute. discriminate.
  - vm_compute. discriminate.
  - vm_compute. reflexivity.
  - exact H.
Defined.

(* ================================================================== *)
(** * The scheduler after a restart *)

Section SchedulerRestart.
Import Cron.
Variable Date_parse : string → option Z.
Variable cron_validate : string → bool.
Variable timezone_error : string → option Thrown.
Variable foreign_keys : bool.

Lemma stop_handle_other j k (s : Cron.State) :
  k ≠ j → activeTasks (stop_handle j s) !! k = activeTasks s !! k.
Proof.
  intros Hne. unfold stop_handle. destruct (activeTasks s !! j); simpl; [|done].
  by rewrite lookup_delete_ne.
Qed.

Lemma scheduleJob_handle job clock (s : Cron.State) k :
  enabled job ≠ 0 →
  is_Some (activeTasks (snd (scheduleJob Date_parse cron_validate timezone_error
                               job clock s)) !! k)
  ↔ if decide (k = id job)
    then CronTables.arms Date_parse cron_validate timezone_error job clock = true
    else is_Some (activeTasks s !! k).
Proof.
  intros Hen. unfold scheduleJob, truthyZ, CronTables.arms.
  destruct (Z.eqb_spec (enabled job) 0); [done|]. cbn [negb].
  assert (∀ kind, is_Some (activeTasks (arm kind job (stop_handle (id job) s)) !! k)
                  ↔ if decide (k = id job) then True else is_Some (activeTasks s !! k))
    as Harm.
  { intros kind. simpl. destruct (decide (k = id job)) as [->|Hne].
    - rewrite lookup_insert_eq. split; [done | by eexists].
    - rewrite lookup_insert_ne by done. by rewrite stop_handle_other. }
  assert (is_Some (activeTasks (stop_handle (id job) s) !! k)
          ↔ if decide (k = id job) then False else is_Some (activeTasks s !! k))
    as Hstop.
  { destruct (decide (k = id job)) as [->|Hne].
    - rewrite stop_handle_lookup. split; [by intros [? ?] | done].
    - by rewrite stop_handle_other. }
  destruct (schedule_type job).
  - destruct (cron_validate (schedule job)); cbn [negb snd andb].
    + destruct (timezone_error _); cbn [snd].
      * rewrite Hstop. by destruct (decide _).
      * rewrite Harm. by destruct (decide _).
    + rewrite Hstop. by destruct (decide _).
  - destruct (Date_parse (schedule job)) as [d|].
    + destruct (d - now_ms clock <=? 0); cbn [negb snd].
      * rewrite Hstop. by destruct (decide _).
      * rewrite Harm. by destruct (decide _).
    + cbn [snd]. rewrite Harm. by destruct (decide _).
Qed.

Lemma scheduleJob_outcome job clock (s : Cron.State) :
  enabled job ≠ 0 →
  match CronTables.throws cron_validate timezone_error job with
  | Some err => scheduleJob Date_parse cron_validate timezone_error job clock s
                = (Rejected err, stop_handle (id job) s)
  | None => ∃ b, fst (scheduleJob Date_parse cron_validate timezone_error job clock s)
                 = Resolved b
  end.
Proof.
  intros Hen. unfold scheduleJob, truthyZ, CronTables.throws.
  destruct (Z.eqb_spec (enabled job) 0); [done|]. cbn [negb].
  destruct (schedule_type job).
  - destruct (cron_validate (schedule job)); cbn [negb]; [|by eexists].
    destruct (timezone_error _); [done | by eexists].
  - destruct (Date_parse (schedule job)) as [d|]; [|by eexists].
    destruct (d - now_ms clock <=? 0); by eexists.
Qed.

Lemma throws_no_handle job clock err :
  CronTables.throws cron_validate timezone_error job = Some err →
  CronTables.arms Date_parse cron_validate timezone_error job clock = false.
Proof.
  unfold CronTables.throws, CronTables.arms. destruct (schedule_type job); [|done].
  destruct (cron_validate (schedule job)); [|done]. by intros ->.
Qed.

Lemma schedule_all_app before rest clock (s : Cron.State) :
  schedule_all Date_parse cron_validate timezone_error (before ++ rest) clock s
  = match schedule_all Date_parse cron_validate timezone_error before clock s with
    | (Resolved _, s1) =>
        schedule_all Date_parse cron_validate timezone_error rest clock s1
    | (Rejected err, s1) => (Rejected err, s1)
    end.
Proof.
  revert s. induction before as [|j before IH]; intros s; simpl; [done|].
  destruct (scheduleJob _ _ _ j clock s) as [[b|err] s1]; [apply IH | done].
Qed.

(** The loop over jobs that do not throw: it runs to its end, and arms
    exactly the jobs [scheduleJob] arms. *)
Lemma schedule_all_resolved jobs clock (s : Cron.State) :
  NoDup (id <$> jobs) →
  (∀ j, j ∈ jobs → enabled j ≠ 0
                   ∧ CronTables.throws cron_validate timezone_error j = None) →
  fst (schedule_all Date_parse cron_validate timezone_error jobs clock s) = Resolved tt
  ∧ ∀ k, is_Some (activeTasks
                    (snd (schedule_all Date_parse cron_validate timezone_error
                            jobs clock s)) !! k)
         ↔ (is_Some (activeTasks s !! k) ∧ k ∉ id <$> jobs)
           ∨ (∃ j, j ∈ jobs ∧ id j = k
                   ∧ CronTables.arms Date_parse cron_validate timezone_error j clock = true).
Proof.
  revert s. induction jobs as [|j jobs IH]; intros s Hnd Hok.
  - simpl. split; [done|]. intros k. split.
    + intros H. left. split; [done | apply not_elem_of_nil].
    + intros [[H _]|(j & Hj & _)]; [done | by apply elem_of_nil in Hj].
  - rewrite fmap_cons in Hnd. apply NoDup_cons in Hnd as [Hfresh Hnd].
    destruct (Hok j ltac:(left)) as [Hen Hquiet].
    pose proof (scheduleJob_outcome j clock s Hen) as Hout. rewrite Hquiet in Hout.
    destruct Hout as [b Hb].
    pose proof (λ k, scheduleJob_handle j clock s k Hen) as Hh.
    cbn [schedule_all].
    destruct (scheduleJob Date_parse cron_validate timezone_error j clock s)
      as [[b'|err] s1]; [|done]. cbn [snd] in Hh.
    destruct (IH s1 Hnd) as [Hres Hiff]; [intros j' Hj'; apply Hok; by right|].
    split; [done|]. intros k. rewrite Hiff, Hh, fmap_cons, not_elem_of_cons.
    assert (∀ j', j' ∈ jobs → id j' ≠ id j) as Hother.
    { intros j' Hj' E. apply Hfresh. rewrite <- E. by apply list_elem_of_fmap_2. }
    destruct (decide (k = id j)) as [->|Hne]; split.
    + intros [[Harm _]|(j' & Hj' & E & _)]; [|by destruct (Hother j' Hj')].
      right. exists j. split; [left|done].
    + intros [[_ [? _]]|(j' & [->|Hj']%elem_of_cons & E & Harm)]; [done| |].
      * left. split; [done|]. intros Hin. by apply Hfresh.
      * by destruct (Hother j' Hj').
    + intros [[H Hk]|(j' & Hj' & E & Harm)]; [by left|].
      right. exists j'. split; [by right | done].
    + intros [[H [_ Hk]]|(j' & [->|Hj']%elem_of_cons & E & Harm)]; [by left|done|].
      right. by exists j'.
Qed.

(** X29. How a restart rebuilds the handles.  After any history, when the
    new process runs the loop of [initCronJobs] over the enabled rows, in
    whatever order the store returns them: the tables are untouched, and a
    handle is only ever armed for a row with [enabled = 1] that
    [scheduleJob] arms (a cron expression that validates with a time zone
    [cron.schedule] accepts, or a one-shot date still ahead or unreadable).
    If no enabled row has a time zone that [cron.schedule] rejects, the loop
    completes and exactly those rows have a handle.  Otherwise the loop is
    left with the error of the first such row, and only rows before it in
    the order have handles; that row and every row after it have none. *)
Theorem restart_rebuilds_the_handles ops clock rows :
  let s := Cron.after Date_parse cron_validate timezone_error foreign_keys ops in
  rows ≡ₚ filter (λ j, enabled j = 1) (snd <$> map_to_list (cron_jobs s)) →
  let out := schedule_all Date_parse cron_validate timezone_error rows clock
               (boot (cron_jobs s) (cron_runs s)) in
  let armed k := is_Some (activeTasks (snd out) !! k) in
  let armable row :=
    CronTables.arms Date_parse cron_validate timezone_error row clock = true in
  cron_jobs (snd out) = cron_jobs s ∧ cron_runs (snd out) = cron_runs s
  ∧ (∀ k, armed k → ∃ row, cron_jobs s !! k = Some row ∧ enabled row = 1 ∧ armable row)
  ∧ ((∀ row, row ∈ rows → CronTables.throws cron_validate timezone_error row = None) →
       fst out = Resolved tt
       ∧ ∀ k, armed k ↔ ∃ row, cron_jobs s !! k = Some row ∧ enabled row = 1
                               ∧ armable row)
  ∧ (∀ before bad rest err,
       rows = before ++ bad :: rest →
       (∀ row, row ∈ before →
               CronTables.throws cron_validate timezone_error row = None) →
       CronTables.throws cron_validate timezone_error bad = Some err →
       fst out = Rejected err
       ∧ ∀ k, armed k ↔ ∃ row, row ∈ before ∧ id row = k ∧ armable row).
Proof.
  intros s Hperm out armed armable.
  pose proof (after_consistent Date_parse cron_validate timezone_error foreign_keys ops)
    as Hs. fold s in Hs.
  set (L := filter (λ j, enabled j = 1) (snd <$> map_to_list (cron_jobs s))) in *.
  assert (∀ j, j ∈ rows ↔ cron_jobs s !! id j = Some j ∧ enabled j = 1) as Hmem.
  { intros j. rewrite Hperm. subst L. rewrite list_elem_of_filter, list_elem_of_fmap.
    split.
    - intros [Hen ([k j'] & -> & Hin%elem_of_map_to_list)]. simpl in *.
      by rewrite (rows_keyed _ Hs _ _ Hin).
    - intros [Hrow Hen]. split; [done|]. exists (id j, j).
      split; [done | by apply elem_of_map_to_list]. }
  assert (NoDup (id <$> rows)) as Hnd.
  { rewrite Hperm. subst L.
    assert (id <$> (snd <$> map_to_list (cron_jobs s)) = (map_to_list (cron_jobs s)).*1)
      as Hkeys.
    { rewrite <- list_fmap_compose. apply list_fmap_ext.
      intros i [k j] Hi%list_elem_of_lookup_2%elem_of_map_to_list. simpl.
      apply (rows_keyed _ Hs _ _ Hi). }
    eapply sublist_NoDup; [apply (NoDup_fst_map_to_list (cron_jobs s))|].
    rewrite <- Hkeys. apply fmap_sublist, sublist_filter. }
  assert (∀ j, j ∈ rows → enabled j ≠ 0) as Hen
    by (intros j [_ H]%Hmem; lia).
  destruct (schedule_all_tables Date_parse cron_validate timezone_error rows clock
              (boot (cron_jobs s) (cron_runs s))) as [Hj Hr].
  split; [exact Hj|]. split; [exact Hr|].
  assert (∀ l, NoDup (id <$> l) → (∀ j, j ∈ l → j ∈ rows) →
            (∀ j, j ∈ l → CronTables.throws cron_validate timezone_error j = None) →
            fst (schedule_all Date_parse cron_validate timezone_error l clock
                   (boot (cron_jobs s) (cron_runs s))) = Resolved tt
            ∧ ∀ k, is_Some (activeTasks
                              (snd (schedule_all Date_parse cron_validate timezone_error
                                      l clock (boot (cron_jobs s) (cron_runs s)))) !! k)
                   ↔ ∃ row, row ∈ l ∧ id row = k ∧ armable row) as Hquiet.
  { intros l Hndl Hsub Hno.
    destruct (schedule_all_resolved l clock (boot (cron_jobs s) (cron_runs s)) Hndl)
      as [Hres Hiff]; [intros j Hjl; split; [by apply Hen, Hsub | by apply Hno]|].
    split; [done|]. intros k. rewrite Hiff. cbn [activeTasks boot].
    rewrite lookup_empty. split; [|by right].
    intros [[[? ?] _]|?]; done. }
  assert (∀ k, (∃ row, row ∈ rows ∧ id row = k ∧ armable row)
               ↔ ∃ row, cron_jobs s !! k = Some row ∧ enabled row = 1 ∧ armable row)
    as Hrows.
  { intros k. split.
    - intros (row & [Hrow Hen1]%Hmem & <- & Harm). by exists row.
    - intros (row & Hrow & Hen1 & Harm). exists row.
      pose proof (rows_keyed _ Hs _ _ Hrow) as Hid. rewrite Hmem, Hid. done. }
  assert (∀ before bad rest err,
            rows = before ++ bad :: rest →
            (∀ row, row ∈ before →
                    CronTables.throws cron_validate timezone_error row = None) →
            CronTables.throws cron_validate timezone_error bad = Some err →
            fst out = Rejected err
            ∧ ∀ k, armed k ↔ ∃ row, row ∈ before ∧ id row = k ∧ armable row) as Hleft.
  { intros before bad rest err Hsplit Hno Hbad.
    assert (NoDup (id <$> before) ∧ ∀ j, j ∈ before → id j ≠ id bad) as [Hndb Hdiff].
    { rewrite Hsplit, fmap_app, fmap_cons in Hnd.
      apply NoDup_app in Hnd as (Hndb & Hdis & _). split; [done|].
      intros j Hjb E. apply (Hdis (id j)); [by apply list_elem_of_fmap_2|].
      rewrite E. left. }
    destruct (Hquiet before Hndb) as [Hres Hiff]; [|done|].
    { intros j Hjb. rewrite Hsplit. apply elem_of_app. by left. }
    subst out armed. cbv beta. rewrite Hsplit, schedule_all_app.
    destruct (schedule_all Date_parse cron_validate timezone_error before clock
                (boot (cron_jobs s) (cron_runs s))) as [[[]|e] s1]; [|done].
    cbn [snd] in Hiff. cbn [schedule_all].
    pose proof (scheduleJob_outcome bad clock s1) as Hout. rewrite Hbad in Hout.
    rewrite Hout by (apply Hen; rewrite Hsplit; apply elem_of_app; right; left).
    cbn [fst snd]. split; [done|]. intros k.
    destruct (decide (k = id bad)) as [->|Hne].
    - rewrite stop_handle_lookup. split; [by intros [? ?]|].
      intros (row & Hrow & E & _). by destruct (Hdiff row Hrow).
    - rewrite stop_handle_other by done. apply Hiff. }
  split; [|split; [|exact Hleft]].
  - (* soundness, by cases on whether some row throws *)
    intros k Hk. apply Hrows.
    assert (∀ l done_, rows = done_ ++ l →
              (∀ row, row ∈ done_ →
                      CronTables.throws cron_validate timezone_error row = None) →
              ∃ row, row ∈ rows ∧ id row = k ∧ armable row) as Hscan.
    { induction l as [|j l IH]; intros done_ Hsplit Hno.
      - rewrite app_nil_r in Hsplit. subst done_.
        destruct (Hquiet rows Hnd) as [_ Hiff]; [done|done|]. by apply Hiff.
      - destruct (CronTables.throws cron_validate timezone_error j) as [err|] eqn:Ej.
        + destruct (Hleft done_ j l err Hsplit Hno Ej) as [_ Hiff].
          apply Hiff in Hk as (row & Hrow & E & Harm). exists row.
          split; [|done]. rewrite Hsplit. apply elem_of_app. by left.
        + apply (IH (done_ ++ [j])); [by rewrite <- app_assoc|].
          intros row [?|Hlast%list_elem_of_singleton]%elem_of_app; [by apply Hno | by subst row]. }
    apply (Hscan rows []); [done|]. intros row Hrow. by apply elem_of_nil in Hrow.
  - intros Hno. destruct (Hquiet rows Hnd) as [Hres Hiff]; [done|done|].
    split; [done|]. intros k. subst armed. cbv beta. rewrite <- Hrows. apply Hiff.
Qed.

End SchedulerRestart.

Lemma restart_rebuilds_the_handles_witness :
  let s := Cron.after Scenario.Date_parse Scenario.cron_validate Scenario.timezone_error
             false CronScript.mars_and_daily in
  let out := Cron.schedule_all Scenario.Date_parse Scenario.cron_validate
               Scenario.timezone_error [CronScript.mars_row; CronScript.daily_row]
               Scenario.later (Cron.boot (Cron.cron_jobs s) (Cron.cron_runs s)) in
  fst out = Rejected (ErrorObj "RangeError" "Invalid time zone specified: Mars/Olympus")
  ∧ Cron.activeTasks (snd out) !! "j0000002" = None.
Proof.
  intros s out.
  destruct (restart_rebuilds_the_handles Scenario.Date_parse Scenario.cron_validate
              Scenario.timezone_error false CronScript.mars_and_daily Scenario.later
              [CronScript.mars_row; CronScript.daily_row])
    as (_ & _ & _ & _ & Hleft).
  - vm_compute. first [reflexivity | apply perm_swap].
  - destruct (Hleft [] CronScript.mars_row [CronScript.daily_row]
                (ErrorObj "RangeError" "Invalid time zone specified: Mars/Olympus"))
      as [Hres Hiff].
    + reflexivity.
    + intros row Hrow. by apply elem_of_nil in Hrow.
    + reflexivity.
    + split; [exact Hres|]. apply eq_None_not_Some. intros Hk.
      apply Hiff in Hk as (row & Hrow & _). by apply elem_of_nil in Hrow.
Defined.

(* ================================================================== *)
(** * Properties of sessions_send *)

Section SessionsSendTool.
Import SessionsSendBody.
Variable push_failure : option Thrown.
Variable insert_throws : bool.
Variable now : Z.
Variable js_length : string → Z.

(** X30. One call of [sessions_send] delivers at most one push, and only
    for an owner: the message goes out exactly when the caller passes the
    owner check, target and message are not blank and LINE accepts the push;
    then it is one push to the target with the message (prefixed when
    [asBot] is set) and one assistant row in the target's history, the row
    being skipped when the insert throws.  In every other case nothing is
    pushed or stored and the answer is an error payload; the call never
    rejects. *)
Theorem sessions_send_delivers_once env input ctx s :
  let out := execute push_failure insert_throws now js_length env input ctx s in
  let target := trimmed_string_field input "targetUserId" in
  let text := text_of input in
  ∃ delivered : bool,
    (delivered = true
     ↔ SessionsSend.isOwner env (ctx_userId ctx) = true ∧ target ≠ ""
       ∧ trimmed_string_field input "message" ≠ "" ∧ push_failure = None)
    ∧ pushed (snd out) = pushed s ++ (if delivered then [(target, text)] else [])
    ∧ sessions (snd out)
      = sessions s
        ++ (if delivered && negb insert_throws
            then [{| session_id := target; role := "assistant"; content := text;
                     created_at := now |}]
            else [])
    ∧ (∃ r, fst out = Resolved r)
    ∧ (delivered = false → ∃ kind msg, fst out = Resolved (error_payload kind msg)).
Proof.
  cbv zeta. unfold execute, SessionsSend.execute.
  destruct (SessionsSend.isOwner env (ctx_userId ctx)) eqn:Howner; cbn [negb].
  2:{ exists false. rewrite !app_nil_r. split; [naive_solver|].
      do 2 (split; [done|]). split; [by eexists | by eexists _, _]. }
  unfold send.
  destruct (String.eqb_spec (trimmed_string_field input "targetUserId") "") as [Ht|Ht].
  { exists false. rewrite !app_nil_r. split; [naive_solver|].
    do 2 (split; [done|]). split; [by eexists | by eexists _, _]. }
  destruct (String.eqb_spec (trimmed_string_field input "message") "") as [Hm|Hm].
  { exists false. rewrite !app_nil_r. split; [naive_solver|].
    do 2 (split; [done|]). split; [by eexists | by eexists _, _]. }
  destruct push_failure as [err|].
  { exists false. rewrite !app_nil_r. split; [naive_solver|].
    do 2 (split; [done|]). split; [by eexists | by eexists _, _]. }
  exists true. split; [naive_solver|].
  destruct insert_throws; cbn [fst snd pushed sessions andb negb];
    rewrite ?app_nil_r; (do 2 (split; [done|])); (split; [by eexists | done]).
Qed.

End SessionsSendTool.
